(** * js-rsasign: JWS/JWT verification and X.509 ASN.1 builders

    A shallow embedding of the parts of [src/modules/jws-3.3.js] and
    [src/globals/asn1x509-1.0.js] that the specification talks about, and
    the properties of the specification stated over that embedding.

    Conventions.
    - A JavaScript string is a [string]: a sequence of code units.  Every
      separator the code looks for ('/', ',', '.', ':', '\') is a single
      code unit, so [split], [join] and [replace] act on the sequence as
      the JavaScript methods do.
    - A JavaScript number is a binary64 double.  The numbers of the
      sources are UNIX times, lengths and indices, and [JNum n] is the
      double whose value is the integer [n]; a number with a fractional
      part, a NaN and an infinity are no value of [JSValue] (the time
      checks answer on fractions as on integers: [JSNumFacts] shows their
      comparisons unchanged by a scaling of all numbers).  The [+] and
      [-] of the sources are [JS.num_add] and [JS.num_sub], which round
      the exact result to the nearest double ([JS.to_double]: 53 bits,
      ties to even), so that they are the [+] and [-] of [Z] only as long
      as the result stays within 2^53; [<] and [===] on such doubles are
      those of [Z].
    - [throw] is the [Throw] constructor of [Res].  A function that also
      writes to an object returns the object next to the [Res]
      ([verifyJWT] and its [acceptField]), or is a method in [ST] (the
      builders and signing wrappers).
    - The modules the sources import but which are not among them (the
      ASN.1 kernel, the signature and MAC engine, the base64 and key
      utilities) and the built-in [JSON.parse] are the fields of the
      records [JWS.Engine], [JWSSign.SignEngine] and [ASN1.Kernel]: every
      property is stated for all of them, and [Sample] and [Sample2] hold
      concrete ones for the examples.

    Contents: the definitions ([JSStr], [X500Name], [JS], [JWS], [ASN1],
    [TBSCertificate], [Certificate], [TBSCertList], [CRL], [Sample], [RDN],
    [X500NameString], [KeyUsage], [JWSSign], [Sample2]), then the
    properties ([JSStrFacts], [X500NameFacts], [JSNumFacts], [JWSFacts],
    [ASN1X509Facts], [JWSMoreFacts], [JWSSignFacts], [X509StringFacts],
    [ASN1X509MoreFacts]). *)

From Stdlib Require Import ZArith Lia Bool Ascii String List DecimalString DecimalPos.
From stdpp Require Import base option list strings gmap.

#[local] Set Warnings "-register-all".

Local Open Scope Z_scope.

(** ** Results of code that may throw *)

Inductive Res (A : Type) : Type :=
| Ok (a : A)
| Throw (msg : string).
Arguments Ok {A} a.
Arguments Throw {A} msg.

Definition bindR {A B} (r : Res A) (k : A -> Res B) : Res B :=
  match r with
  | Ok a => k a
  | Throw m => Throw m
  end.

Notation "x <- r ;;; k" := (bindR r (fun x => k))
  (at level 100, r at next level, right associativity).

Definition raises {A} (r : Res A) : Prop := exists m, r = Throw m.

Definition is_throw {A} (r : Res A) : bool :=
  match r with Throw _ => true | Ok _ => false end.

(** ** String primitives of JavaScript used by the sources *)

Module JSStr.

(** [s.split(sep)] for a separator of one code unit: always at least one
    piece, [n+1] pieces for [n] separators. *)
Fixpoint split (sep : ascii) (s : string) : list string :=
  match s with
  | EmptyString => [EmptyString]
  | String c s' =>
      if Ascii.eqb c sep then EmptyString :: split sep s'
      else match split sep s' with
           | h :: t => String c h :: t
           | [] => [String c EmptyString]
           end
  end.

(** [a.join(sep)] on an array of strings. *)
Fixpoint join (sep : string) (a : list string) : string :=
  match a with
  | [] => EmptyString
  | [x] => x
  | x :: t => x +:+ sep +:+ join sep t
  end.

(** [a.join(sep) + sep] on an array that is not empty: every element
    followed by [sep]. *)
Fixpoint join_terminated (sep : string) (a : list string) : string :=
  match a with
  | [] => EmptyString
  | x :: t => x +:+ sep +:+ join_terminated sep t
  end.

(** [s.replace(c, r)] where the pattern is one code unit and has no [g]
    flag: only the first occurrence is replaced. *)
Fixpoint replace_first (c : ascii) (r : string) (s : string) : string :=
  match s with
  | EmptyString => EmptyString
  | String a s' =>
      if Ascii.eqb a c then r +:+ s'
      else String a (replace_first c r s')
  end.

(** [s.replace(/\\c/g, c)]: every backslash followed by [c] becomes [c],
    scanning from the left. *)
Fixpoint replace_all_escaped (c : ascii) (s : string) : string :=
  match s with
  | EmptyString => EmptyString
  | String a s' =>
      match s' with
      | EmptyString => String a EmptyString
      | String b s'' =>
          if Ascii.eqb a "\"%char && Ascii.eqb b c
          then String c (replace_all_escaped c s'')
          else String a (replace_all_escaped c s')
      end
  end.

(** [s.substr(-1, 1) === "\\"]. *)
Fixpoint ends_with_backslash (s : string) : bool :=
  match s with
  | EmptyString => false
  | String a EmptyString => Ascii.eqb a "\"%char
  | String _ s' => ends_with_backslash s'
  end.

(** How often the code unit [c] occurs in [s]. *)
Fixpoint count (c : ascii) (s : string) : nat :=
  match s with
  | EmptyString => O
  | String a s' => if Ascii.eqb a c then S (count c s') else count c s'
  end.

(** Does the code unit [c] occur in [s]? *)
Fixpoint occurs (c : ascii) (s : string) : bool :=
  match s with
  | EmptyString => false
  | String a s' => Ascii.eqb a c || occurs c s'
  end.

(** Is [t] at the start of [s]? *)
Fixpoint starts_with (t s : string) : bool :=
  match t, s with
  | EmptyString, _ => true
  | String a t', String b s' => Ascii.eqb a b && starts_with t' s'
  | String _ _, EmptyString => false
  end.

(** [s.indexOf(t) != -1] *)
Fixpoint includes (t s : string) : bool :=
  starts_with t s ||
  match s with
  | EmptyString => false
  | String _ s' => includes t s'
  end.

(** The two code units of ["\r\n"]. *)
Definition CRLF : string := String "013"%char (String "010"%char EmptyString).

(** [s.substr(0, n)] *)
Definition substr0 (n : nat) (s : string) : string := String.substring 0 n s.

End JSStr.

(** ** X500Name: conversion between the oneline and the LDAP form *)

Module X500Name.
Import JSStr.

(** [X500Name.onelineToLDAP] *)
Definition onelineToLDAP (s : string) : Res string :=
  match s with
  | String "/"%char s1 =>
      let a := split "/"%char s1 in
      let a := rev a in
      let a := map (fun s => replace_first ","%char "\," s) a in
      Ok (join "," a)
  | _ => Throw "malformed input"
  end.

(** [a2.pop()], the popped element and the rest; [undefined] on []. *)
Definition pop (a : list string) : option string * list string :=
  (last a, removelast a).

(** String concatenation of a possibly [undefined] operand. *)
Definition str_of (o : option string) : string :=
  match o with Some s => s | None => "undefined" end.

(** One turn of the loop of [ldapToOneline] on the shifted [item]. *)
Definition ldap_step (st : bool * list string) (item : string)
  : bool * list string :=
  let '(isBSbefore, a2) := st in
  let '(isBSbefore, a2) :=
    if isBSbefore then
      let '(a2last, a2) := pop a2 in
      let newitem := replace_all_escaped ","%char (str_of a2last +:+ "," +:+ item) in
      (false, a2 ++ [newitem])
    else (isBSbefore, a2 ++ [item]) in
  if ends_with_backslash item then (true, a2) else (isBSbefore, a2).

(** [X500Name.ldapToOneline] *)
Definition ldapToOneline (s : string) : string :=
  let a := split ","%char s in
  let '(_, a2) := fold_left ldap_step a (false, []) in
  let a2 := map (fun s => replace_first "/"%char "\/" s) a2 in
  let a2 := rev a2 in
  "/" +:+ join "/" a2.

(** The round trip of the specification. *)
Definition roundtrip (dn : string) : Res string :=
  s <- onelineToLDAP dn ;;; Ok (ldapToOneline s).

(** Following the spec's words: the names the round-trip property is stated
    for.  A component is an attribute [type=value] (the pattern
    [^[^=]+=.+$] of [setByString]); its value is what follows the first
    ['=']. *)
Fixpoint attr_value (seg : string) : option string :=
  match seg with
  | EmptyString => None
  | String a s' => if Ascii.eqb a "="%char then Some s' else attr_value s'
  end.

Definition is_attr (seg : string) : bool :=
  match seg, attr_value seg with
  | String a _, Some (String _ _) => negb (Ascii.eqb a "="%char)
  | _, _ => false
  end.

Definition plain_value (v : string) : bool :=
  negb (occurs "+"%char v) && negb (occurs "/"%char v) && negb (occurs ","%char v).

Definition plain_attr (seg : string) : bool :=
  is_attr seg &&
  match attr_value seg with Some v => plain_value v | None => false end.

(** A oneline name that starts with ['/'] and has none of ['+'], ['/'],
    [','] in any attribute value. *)
Definition plain_dn (dn : string) : bool :=
  match dn with
  | String "/"%char s1 => forallb plain_attr (split "/"%char s1)
  | _ => false
  end.

End X500Name.

(** ** JavaScript values *)

Module JS.
Import JSStr.

(** The values [JSON.parse] produces and callers pass.  [JNum n] is the
    double whose value is the integer [n] (see the conventions above): in
    a value that JavaScript can hold, [n] is a double ([is_double] below). *)
Inductive JSValue : Type :=
| JUndefined
| JNull
| JBool (b : bool)
| JNum (n : Z)
| JStr (s : string)
| JArr (a : list JSValue)
| JObj (o : gmap string JSValue).

(** *** Numbers

    [round_at e x], for [0 <= x]: the multiple of [2^e] nearest to [x]; of
    two that are equally near, the even multiple. *)
Definition round_at (e x : Z) : Z :=
  let P := 2 ^ e in
  let q := x / P in
  let r := x mod P in
  if 2 * r <? P then q * P
  else if P <? 2 * r then (q + 1) * P
  else if Z.even q then q * P else (q + 1) * P.

(** The double nearest to the integer [x], as IEEE 754 rounds (to nearest,
    ties to even): a significand of 53 bits, so [x] itself up to 2^53 and
    a multiple of [2^(log2 |x| - 52)] beyond.  A result of magnitude 2^1024
    or more stands for the infinity of that sign: it compares with every
    double as the infinity does. *)
Definition to_double (x : Z) : Z :=
  let a := Z.abs x in
  Z.sgn x * round_at (Z.max 0 (Z.log2 a - 52)) a.

(** The integers that are doubles: rounding leaves them as they are, and
    they are below 2^1024 in magnitude. *)
Definition is_double (x : Z) : bool :=
  (to_double x =? x) && (Z.abs x <? 2 ^ 1024).

(** [a + b] and [a - b] on numbers: the exact result, rounded. *)
Definition num_add (a b : Z) : Z := to_double (a + b).

Definition num_sub (a b : Z) : Z := to_double (a - b).

(** [d[k]] on an object whose prototype has no property [k]:
    [undefined] when [k] is not an own property. *)
Definition get (d : gmap string JSValue) (k : string) : JSValue :=
  default JUndefined (d !! k).

(** [typeof v] *)
Definition typeof (v : JSValue) : string :=
  match v with
  | JUndefined => "undefined"
  | JNull => "object"
  | JBool _ => "boolean"
  | JNum _ => "number"
  | JStr _ => "string"
  | JArr _ => "object"
  | JObj _ => "object"
  end.

(** [x === y] where [x] comes out of [JSON.parse]: primitives are
    compared by value; a freshly parsed array or object is identical to
    no other value. *)
Definition strict_eq (x y : JSValue) : bool :=
  match x, y with
  | JUndefined, JUndefined => true
  | JNull, JNull => true
  | JBool a, JBool b => Bool.eqb a b
  | JNum a, JNum b => Z.eqb a b
  | JStr a, JStr b => String.eqb a b
  | _, _ => false
  end.

(** [String(n)] for an integer. *)
Definition string_of_Z (n : Z) : string := NilZero.string_of_int (Z.to_int n).

(** [ToString]: what string concatenation and [join] make of a value. *)
Fixpoint toString (v : JSValue) : string :=
  match v with
  | JUndefined => "undefined"
  | JNull => "null"
  | JBool b => if b then "true" else "false"
  | JNum n => string_of_Z n
  | JStr s => s
  | JArr a =>
      join "," (map (fun x => match x with
                              | JUndefined | JNull => EmptyString
                              | _ => toString x
                              end) a)
  | JObj _ => "[object Object]"
  end.

(** The string [Array.prototype.join] makes of one element. *)
Definition join_elt (x : JSValue) : string :=
  match x with
  | JUndefined | JNull => EmptyString
  | _ => toString x
  end.

(** Own property names that every object inherits from
    [Object.prototype]: a lookup of one of them in an object literal is
    not [undefined]. *)
Definition Object_prototype_names : list string :=
  [ "constructor"; "hasOwnProperty"; "isPrototypeOf"; "propertyIsEnumerable";
    "toLocaleString"; "toString"; "valueOf"; "__proto__";
    "__defineGetter__"; "__defineSetter__"; "__lookupGetter__";
    "__lookupSetter__" ].

End JS.

(** ** jws-3.3.js: [verify] and [verifyJWT] *)

Module JWS.
Import JSStr JS.

(** The [key] argument: [undefined], [null], a string (a PEM text or a MAC
    secret), an [RSAKeyEx] object, an [ECDSA] object, or another object
    (such as [{utf8: "password"}]).  [h] stands for the key material. *)
Inductive Key : Type :=
| KeyUndefined
| KeyNull
| KeyString (s : string)
| KeyRSA (h : string)
| KeyECDSA (h : string)
| KeyObject (h : string).

(** The collaborators of the module (base64x, keyutil, crypto, ecdsa) and
    the built-ins [JSON.parse] and string-to-number conversion.  An
    argument of type [option string] may be [undefined]. *)
Record Engine : Type := {
  b64utohex : option string -> Res string;
  b64utoutf8 : option string -> Res string;
  JSON_parse : string -> option JSValue;          (* [None]: SyntaxError *)
  StringToNumber : string -> option Z;            (* [None]: NaN *)
  getKey : string -> Res Key;
  (* [new Mac({alg, pass}); updateString(s); doFinal()] *)
  Mac_doFinal : string -> Key -> string -> Res string;
  (* [ECDSA.concatSigToASN1Sig(hSig)] *)
  concatSigToASN1Sig : string -> Res string;
  (* [new Signature({alg}); init(key); updateString(s); verify(hSig)] *)
  Signature_verify : string -> Key -> string -> string -> Res bool
}.

Definition is_null (key : Key) : bool :=
  match key with KeyNull => true | _ => false end.

(** Modelled from the spec: [isDictionary] of [include/type.js], which is
    not among the sources: "header must decode to a JSON object". *)
Definition isDictionary (o : JSValue) : bool :=
  match o with JObj _ => true | _ => false end.

(** An entry of the object literal [jwsalg2sigalg], as [t[alg]] sees it:
    an own entry, a member inherited from [Object.prototype], or
    [undefined]. *)
Inductive TableEntry : Type :=
| Entry (sigAlg : string)
| Inherited
| Absent.

Definition jwsalg2sigalg_table : list (string * string) :=
  [ ("HS256", "HmacSHA256");
    ("HS384", "HmacSHA384");
    ("HS512", "HmacSHA512");
    ("RS256", "SHA256withRSA");
    ("RS384", "SHA384withRSA");
    ("RS512", "SHA512withRSA");
    ("ES256", "SHA256withECDSA");
    ("ES384", "SHA384withECDSA");
    ("PS256", "SHA256withRSAandMGF1");
    ("PS384", "SHA384withRSAandMGF1");
    ("PS512", "SHA512withRSAandMGF1");
    ("none", "none") ].

Fixpoint assoc (k : string) (t : list (string * string)) : option string :=
  match t with
  | [] => None
  | (k', v) :: t' => if String.eqb k k' then Some v else assoc k t'
  end.

Definition jwsalg2sigalg (alg : string) : TableEntry :=
  match assoc alg jwsalg2sigalg_table with
  | Some sigAlg => Entry sigAlg
  | None =>
      if existsb (String.eqb alg) Object_prototype_names then Inherited
      else Absent
  end.

(** [o[k]] where [o] may be [null]. *)
Definition prop (o : option (gmap string JSValue)) (k : string) : Res JSValue :=
  match o with
  | Some d => Ok (get d k)
  | None => Throw "TypeError: cannot read properties of null"
  end.

(** [inArray(item, a)]: [a.indexOf(item) !== -1].  On an array [indexOf]
    compares with [===]; on a string it searches the string of [item];
    other values have no [indexOf]. *)
Definition inArray (item a : JSValue) : Res bool :=
  match a with
  | JArr l => Ok (existsb (strict_eq item) l)
  | JStr s => Ok (includes (toString item) s)
  | JUndefined | JNull => Throw "TypeError: cannot read properties of null or undefined"
  | _ => Throw "TypeError: a.indexOf is not a function"
  end.

(** The loop of [includedArray] over the elements [a1[0]], [a1[1]], ... *)
Fixpoint includedArray_loop (items : list JSValue) (a2 : JSValue) : Res bool :=
  match items with
  | [] => Ok true
  | x :: t =>
      b <- inArray x a2 ;;;
      if negb b then Ok false else includedArray_loop t a2
  end.

Section WithEngine.
Context (E : Engine).

(** [readSafeJSONString] *)
Definition readSafeJSONString (s : string) : option (gmap string JSValue) :=
  match JSON_parse E s with
  | Some o =>
      if negb (isDictionary o) then None
      else match o with JObj d => Some d | _ => None end
  | None => None
  end.

(** [ToNumber], for the bound [i < a1.length]. *)
Definition toNumber (v : JSValue) : option Z :=
  match v with
  | JUndefined => None
  | JNull => Some 0
  | JBool b => Some (if b then 1 else 0)
  | JNum n => Some n
  | JStr s => StringToNumber E s
  | JArr _ | JObj _ => StringToNumber E (toString v)
  end.

(** [includedArray(a1, a2)], called on an [a1] whose [typeof] is
    ["object"]. *)
Definition includedArray (a1 a2 : JSValue) : Res bool :=
  match a1 with
  | JArr l => includedArray_loop l a2
  | JObj o =>
      match toNumber (get o "length") with
      | Some n =>
          includedArray_loop
            (map (fun i => get o (string_of_Z (Z.of_nat i))) (seq 0 (Z.to_nat n))) a2
      | None => Ok true
      end
  | _ => Throw "TypeError: cannot read properties of null"
  end.

(** Step 2 of [verify]: the accepted-algorithms check. *)
Definition check_acceptAlgs (alg : string) (acceptAlgs : JSValue) : Res unit :=
  match acceptAlgs with
  | JArr (x :: l) =>
      let acceptAlgStr := ":" +:+ join ":" (map join_elt (x :: l)) +:+ ":" in
      if includes (":" +:+ alg +:+ ":") acceptAlgStr then Ok tt
      else Throw ("algorithm '" +:+ alg +:+ "' not accepted in the list")
  | _ => Ok tt
  end.

(** Steps 3 to 5 of [verify], for a header algorithm that is a string. *)
Definition verify_with_alg (alg uSignatureInput hSig : string) (key : Key)
    (acceptAlgs : JSValue) : Res bool :=
  let algType := substr0 2 alg in
  (* 2. check whether alg is acceptable algorithms *)
  _ <- check_acceptAlgs alg acceptAlgs ;;;
  (* 3. check whether key is a proper key for alg *)
  _ <- (if negb (String.eqb alg "none") && is_null key
        then Throw "key shall be specified to verify."
        else Ok tt) ;;;
  (* 3.2. convert key object if key is a public key or cert PEM string *)
  key <- (match key with
          | KeyString k => if includes "-----BEGIN " k then getKey E k else Ok key
          | _ => Ok key
          end) ;;;
  (* 3.3. check whether key is RSAKeyEx obj if alg is RS* or PS* *)
  _ <- (if String.eqb algType "RS" || String.eqb algType "PS" then
          match key with
          | KeyRSA _ => Ok tt
          | _ => Throw "key shall be a RSAKeyEx obj for RS* and PS* algs"
          end
        else Ok tt) ;;;
  (* 3.4. check whether key is ECDSA obj if alg is ES* *)
  _ <- (if String.eqb algType "ES" then
          match key with
          | KeyECDSA _ => Ok tt
          | _ => Throw "key shall be a ECDSA obj for ES* algs"
          end
        else Ok tt) ;;;
  (* 4. check whether alg is supported alg in jsjws *)
  match jwsalg2sigalg alg with
  | Absent => Throw ("unsupported alg name: " +:+ alg)
  | Inherited => Throw "TypeError: sigAlg.substr is not a function"
  | Entry sigAlg =>
      (* 5. verify *)
      if String.eqb sigAlg "none" then Throw "not supported"
      else if String.eqb (substr0 4 sigAlg) "Hmac" then
        match key with
        | KeyUndefined => Throw "hexadecimal key shall be specified for HMAC"
        | _ =>
            hSig2 <- Mac_doFinal E sigAlg key uSignatureInput ;;;
            Ok (String.eqb hSig hSig2)
        end
      else if includes "withECDSA" sigAlg then
        match concatSigToASN1Sig E hSig with
        | Throw _ => Ok false
        | Ok hASN1Sig => Signature_verify E sigAlg key uSignatureInput hASN1Sig
        end
      else Signature_verify E sigAlg key uSignatureInput hSig
  end.

(** [verify(sJWS, key, acceptAlgs)] *)
Definition verify (sJWS : string) (key : Key) (acceptAlgs : JSValue) : Res bool :=
  let a := split "."%char sJWS in
  match a with
  | [uHeader; uPayload; a2] =>
      let uSignatureInput := uHeader +:+ "." +:+ uPayload in
      hSig <- b64utohex E (Some a2) ;;;
      (* 1. parse JWS header *)
      sHeader <- b64utoutf8 E (Some uHeader) ;;;
      let pHeader := readSafeJSONString sHeader in
      alg <- prop pHeader "alg" ;;;
      match alg with
      | JUndefined => Throw "algorithm not specified in header"
      | JStr alg => verify_with_alg alg uSignatureInput hSig key acceptAlgs
      | _ => Throw "TypeError: alg.substr is not a function"
      end
  | _ => Ok false
  end.

(** *** [verifyJWT] *)

(** 1. to 3.: split the token and decode header and payload.  [a[1]] and
    [a[2]] are [undefined] when the token has fewer segments. *)
Definition parseJWT (sJWT : string)
  : Res (option (gmap string JSValue) * option (gmap string JSValue)) :=
  let a := split "."%char sJWT in
  let uHeader := a !! 0%nat in
  let uPayload := a !! 1%nat in
  hSig <- b64utohex E (a !! 2%nat) ;;;
  sHeader <- b64utoutf8 E uHeader ;;;
  let pHeader := readSafeJSONString sHeader in
  sPayload <- b64utoutf8 E uPayload ;;;
  let pPayload := readSafeJSONString sPayload in
  Ok (pHeader, pPayload).

(** "Return false unless [c]": the shape of every check of [verifyJWT]. *)
Definition unless_false (c : Res bool) (k : Res bool) : Res bool :=
  ok <- c ;;; if ok then k else Ok false.

Notation "'check' c ;;; k" := (unless_false c k)
  (at level 100, c at next level, right associativity).

(** 4. algorithm ('alg' in header) check *)
Definition alg_check (pHeader : option (gmap string JSValue))
    (acceptField : gmap string JSValue) : Res bool :=
  alg <- prop pHeader "alg" ;;;
  match alg with
  | JUndefined => Ok false
  | _ =>
      match get acceptField "alg" with
      | JUndefined => Throw "acceptField.alg shall be specified"
      | accepted => inArray alg accepted
      end
  end.

(** 5. and 6.: issuer and subject checks, on the claim [name]. *)
Definition member_check (name : string) (pPayload : option (gmap string JSValue))
    (acceptField : gmap string JSValue) : Res bool :=
  v <- prop pPayload name ;;;
  match v with
  | JUndefined => Ok true
  | _ =>
      if String.eqb (typeof (get acceptField name)) "object"
      then inArray v (get acceptField name)
      else Ok true
  end.

(** 7. audience ('aud' in payload) check *)
Definition aud_check (pPayload : option (gmap string JSValue))
    (acceptField : gmap string JSValue) : Res bool :=
  aud <- prop pPayload "aud" ;;;
  match aud with
  | JUndefined => Ok true
  | _ =>
      if String.eqb (typeof (get acceptField "aud")) "object" then
        if String.eqb (typeof aud) "string" then inArray aud (get acceptField "aud")
        else if String.eqb (typeof aud) "object" then includedArray aud (get acceptField "aud")
        else Ok true
      else Ok true
  end.

(** Checks 4 to 7, which run before the time window is looked at. *)
Definition claim_checks (pHeader pPayload : option (gmap string JSValue))
    (acceptField : gmap string JSValue) : Res bool :=
  check alg_check pHeader acceptField ;;;
  check member_check "iss" pPayload acceptField ;;;
  check member_check "sub" pPayload acceptField ;;;
  check aud_check pPayload acceptField ;;;
  Ok true.

(** 8. [now]: [acceptField.verifyAt] when it is a number, else [getNow()],
    here the reading [clock]. *)
Definition verification_time (clock : Z) (acceptField : gmap string JSValue) : Z :=
  match get acceptField "verifyAt" with
  | JNum t => t
  | _ => clock
  end.

(** 8. [acceptField['gracePeriod'] = 0] unless it holds a number. *)
Definition default_gracePeriod (acceptField : gmap string JSValue)
  : gmap string JSValue :=
  match get acceptField "gracePeriod" with
  | JNum _ => acceptField
  | _ => <["gracePeriod" := JNum 0]> acceptField
  end.

(** The number read from [acceptField['gracePeriod']] once it is set. *)
Definition gracePeriod (acceptField : gmap string JSValue) : Z :=
  match get acceptField "gracePeriod" with
  | JNum g => g
  | _ => 0
  end.

(** 8.1 expired time 'exp' check: [exp + gracePeriod < now], the sum being
    that of two doubles. *)
Definition exp_check (pPayload : option (gmap string JSValue))
    (acceptField : gmap string JSValue) (now : Z) : Res bool :=
  exp <- prop pPayload "exp" ;;;
  match exp with
  | JNum exp => Ok (negb (num_add exp (gracePeriod acceptField) <? now))
  | _ => Ok true
  end.

(** 8.2 not before time 'nbf' check: [now < nbf - gracePeriod], the
    difference being that of two doubles. *)
Definition nbf_check (pPayload : option (gmap string JSValue))
    (acceptField : gmap string JSValue) (now : Z) : Res bool :=
  nbf <- prop pPayload "nbf" ;;;
  match nbf with
  | JNum nbf => Ok (negb (now <? num_sub nbf (gracePeriod acceptField)))
  | _ => Ok true
  end.

(** 8.3 issued at time 'iat' check: [now < iat - gracePeriod], likewise. *)
Definition iat_check (pPayload : option (gmap string JSValue))
    (acceptField : gmap string JSValue) (now : Z) : Res bool :=
  iat <- prop pPayload "iat" ;;;
  match iat with
  | JNum iat => Ok (negb (now <? num_sub iat (gracePeriod acceptField)))
  | _ => Ok true
  end.

(** 9 JWT id 'jti' check *)
Definition jti_check (pPayload : option (gmap string JSValue))
    (acceptField : gmap string JSValue) : Res bool :=
  jti <- prop pPayload "jti" ;;;
  match jti, get acceptField "jti" with
  | JUndefined, _ => Ok true
  | _, JUndefined => Ok true
  | jti, accepted => Ok (strict_eq jti accepted)
  end.

(** [verifyJWT(sJWT, key, acceptField)] at the clock reading [clock]: the
    result, and [acceptField] as the call leaves it. *)
Definition verifyJWT (clock : Z) (sJWT : string) (key : Key)
    (acceptField : gmap string JSValue) : Res bool * gmap string JSValue :=
  match parseJWT sJWT with
  | Throw m => (Throw m, acceptField)
  | Ok (pHeader, pPayload) =>
      match claim_checks pHeader pPayload acceptField with
      | Throw m => (Throw m, acceptField)
      | Ok false => (Ok false, acceptField)
      | Ok true =>
          let now := verification_time clock acceptField in
          let acceptField := default_gracePeriod acceptField in
          (check exp_check pPayload acceptField now ;;;
           check nbf_check pPayload acceptField now ;;;
           check iat_check pPayload acceptField now ;;;
           check jti_check pPayload acceptField ;;;
           (* 10 JWS signature check *)
           check verify sJWT key (get acceptField "alg") ;;;
           (* 11 passed all check *)
           Ok true,
           acceptField)
      end
  end.

End WithEngine.

End JWS.

(** ** Methods that change their object and may throw *)

(** A method of an object of state [S]: the result, or the exception, and
    the object as the call leaves it. *)
Definition ST (S A : Type) : Type := S -> Res A * S.

Definition retS {S A} (a : A) : ST S A := fun s => (Ok a, s).

Definition throwS {S A} (msg : string) : ST S A := fun s => (Throw msg, s).

Definition bindS {S A B} (m : ST S A) (k : A -> ST S B) : ST S B :=
  fun s => match m s with
           | (Ok a, s') => k a s'
           | (Throw msg, s') => (Throw msg, s')
           end.

Definition getS {S} : ST S S := fun s => (Ok s, s).

Definition modifyS {S} (f : S -> S) : ST S unit := fun s => (Ok tt, f s).

Definition liftR {S A} (r : Res A) : ST S A := fun s => (r, s).

(** [m] leaves the field [f] of the object as it was, whatever it
    returns. *)
Definition keeps {S F A} (f : S -> F) (m : ST S A) : Prop :=
  forall o, f (snd (m o)) = f o.

(** [m] leaves the field [f] of the object as it was when it throws. *)
Definition keeps_on_throw {S F A} (f : S -> F) (m : ST S A) : Prop :=
  forall o msg o', m o = (Throw msg, o') -> f o' = f o.

Notation "x <~ m ;;; k" := (bindS m (fun x => k))
  (at level 100, m at next level, right associativity).
Notation "m ;;> k" := (bindS m (fun _ => k))
  (at level 100, right associativity).

(** ** asn1x509-1.0.js: the ASN.1 objects and their collaborators *)

Module ASN1.

(** The collaborators: the ASN.1 kernel of [asn1-1.0.js], which turns the
    encodings of the parts into the encoding of the whole, and the
    signature engine. *)
Record Kernel : Type := {
  DERInteger_hex : Z -> string;
  DERBitString_hex : string -> string;              (* from [{hex: h}] *)
  DERSequence_hex : list string -> string;          (* from the elements' TLVs *)
  DERTaggedObject_hex : bool -> string -> string -> string;
  (* [new Signature({alg, prov})] *)
  Signature_new : option string -> option string -> Res unit;
  (* [init(key)] on the object made so *)
  Signature_init : option string -> option string -> option string -> Res unit;
  (* [updateHex(hex); sign()] on the object initialised so *)
  Signature_sign : option string -> option string -> option string -> string -> Res string;
  (* is there a global binding [sig] that the strict-mode assignment
     [sig = ...] can write to? *)
  global_sig : bool;
  (* [hextob64nl] *)
  hextob64nl : string -> string
}.

(** An ASN.1 object as the builders hold it.  [Encoded r] is an object of
    another class of the file (X500Name, Time, SubjectPublicKeyInfo, an
    extension, ...), known by what its [getEncodedHex()] gives. *)
Inductive ASN1Object : Type :=
| DERInteger (int : Z)
| DERBitString (hex : string)
| DERSequence (array : list (option ASN1Object))
| DERTaggedObject (explicit : bool) (tag : string) (obj : ASN1Object)
| Encoded (r : Res string).

(** [o.getEncodedHex()] through the kernel; an array element that is
    [null] is a TypeError. *)
Fixpoint getEncodedHex (K : Kernel) (o : ASN1Object) : Res string :=
  match o with
  | DERInteger i => Ok (DERInteger_hex K i)
  | DERBitString h => Ok (DERBitString_hex K h)
  | DERSequence a =>
      hs <- (fix elements (a : list (option ASN1Object)) : Res (list string) :=
               match a with
               | [] => Ok []
               | None :: _ => Throw "TypeError: cannot read properties of null"
               | Some x :: t =>
                   h <- getEncodedHex K x ;;;
                   hs <- elements t ;;;
                   Ok (h :: hs)
               end) a ;;;
      Ok (DERSequence_hex K hs)
  | DERTaggedObject e t o =>
      h <- getEncodedHex K o ;;;
      Ok (DERTaggedObject_hex K e t h)
  | Encoded r => r
  end.

(** [AlgorithmIdentifier]: the algorithm name, and what its
    [getEncodedHex()] gives. *)
Record AlgorithmIdentifier : Type := {
  nameAlg : option string;
  algid_encoding : Res string
}.

Definition algid_object (a : option AlgorithmIdentifier) : option ASN1Object :=
  match a with
  | Some a => Some (Encoded (algid_encoding a))
  | None => None
  end.

(** Modelled from the spec: the defaults of [DERTaggedObject] in
    [asn1-1.0.js], which is not among the sources: "version is
    explicit-tagged [[0]]".  [new DERTaggedObject({obj: o})]. *)
Definition DERTaggedObject_default (o : ASN1Object) : ASN1Object :=
  DERTaggedObject true "a0" o.

End ASN1.

(** ** TBSCertificate *)

Module TBSCertificate.
Import ASN1.

Record t : Type := mk {
  asn1Array : list (option ASN1Object);
  asn1Version : ASN1Object;
  asn1SerialNumber : option ASN1Object;
  asn1SignatureAlg : option AlgorithmIdentifier;
  asn1Issuer : option ASN1Object;
  asn1NotBefore : option ASN1Object;
  asn1NotAfter : option ASN1Object;
  asn1Subject : option ASN1Object;
  asn1SubjPKey : option ASN1Object;
  extensionsArray : list ASN1Object;
  hTLV : option string;
  isModified : bool
}.

Definition set_asn1Array (a : list (option ASN1Object)) (o : t) : t :=
  mk a (asn1Version o) (asn1SerialNumber o) (asn1SignatureAlg o) (asn1Issuer o)
     (asn1NotBefore o) (asn1NotAfter o) (asn1Subject o) (asn1SubjPKey o)
     (extensionsArray o) (hTLV o) (isModified o).

Definition set_hTLV (h : option string) (o : t) : t :=
  mk (asn1Array o) (asn1Version o) (asn1SerialNumber o) (asn1SignatureAlg o)
     (asn1Issuer o) (asn1NotBefore o) (asn1NotAfter o) (asn1Subject o)
     (asn1SubjPKey o) (extensionsArray o) h (isModified o).

Definition set_isModified (b : bool) (o : t) : t :=
  mk (asn1Array o) (asn1Version o) (asn1SerialNumber o) (asn1SignatureAlg o)
     (asn1Issuer o) (asn1NotBefore o) (asn1NotAfter o) (asn1Subject o)
     (asn1SubjPKey o) (extensionsArray o) (hTLV o) b.

(** Modelled from the spec: the constructor of the base class
    [ASN1Object] ([asn1-1.0.js] is not among the sources) leaves [hTLV]
    null and [isModified] true.  [new TBSCertificate()]. *)
Definition new : t :=
  mk [] (DERTaggedObject_default (DERInteger 2)) None None None None None
     None None [] None true.

(** The setters: each is given the object it builds from its parameter
    ([new DERInteger(intParam)], [new AlgorithmIdentifier(algIdParam)],
    [new X500Name(x500NameParam)], [new Time(timeParam)], ...). *)
Definition setSerialNumberByParam (x : ASN1Object) (o : t) : t :=
  mk (asn1Array o) (asn1Version o) (Some x) (asn1SignatureAlg o) (asn1Issuer o)
     (asn1NotBefore o) (asn1NotAfter o) (asn1Subject o) (asn1SubjPKey o)
     (extensionsArray o) (hTLV o) (isModified o).

Definition setSignatureAlgByParam (x : AlgorithmIdentifier) (o : t) : t :=
  mk (asn1Array o) (asn1Version o) (asn1SerialNumber o) (Some x) (asn1Issuer o)
     (asn1NotBefore o) (asn1NotAfter o) (asn1Subject o) (asn1SubjPKey o)
     (extensionsArray o) (hTLV o) (isModified o).

Definition setIssuerByParam (x : ASN1Object) (o : t) : t :=
  mk (asn1Array o) (asn1Version o) (asn1SerialNumber o) (asn1SignatureAlg o)
     (Some x) (asn1NotBefore o) (asn1NotAfter o) (asn1Subject o)
     (asn1SubjPKey o) (extensionsArray o) (hTLV o) (isModified o).

Definition setNotBeforeByParam (x : ASN1Object) (o : t) : t :=
  mk (asn1Array o) (asn1Version o) (asn1SerialNumber o) (asn1SignatureAlg o)
     (asn1Issuer o) (Some x) (asn1NotAfter o) (asn1Subject o) (asn1SubjPKey o)
     (extensionsArray o) (hTLV o) (isModified o).

Definition setNotAfterByParam (x : ASN1Object) (o : t) : t :=
  mk (asn1Array o) (asn1Version o) (asn1SerialNumber o) (asn1SignatureAlg o)
     (asn1Issuer o) (asn1NotBefore o) (Some x) (asn1Subject o) (asn1SubjPKey o)
     (extensionsArray o) (hTLV o) (isModified o).

Definition setSubjectByParam (x : ASN1Object) (o : t) : t :=
  mk (asn1Array o) (asn1Version o) (asn1SerialNumber o) (asn1SignatureAlg o)
     (asn1Issuer o) (asn1NotBefore o) (asn1NotAfter o) (Some x) (asn1SubjPKey o)
     (extensionsArray o) (hTLV o) (isModified o).

Definition setSubjectPublicKey (x : ASN1Object) (o : t) : t :=
  mk (asn1Array o) (asn1Version o) (asn1SerialNumber o) (asn1SignatureAlg o)
     (asn1Issuer o) (asn1NotBefore o) (asn1NotAfter o) (asn1Subject o) (Some x)
     (extensionsArray o) (hTLV o) (isModified o).

Definition appendExtension (extObj : ASN1Object) (o : t) : t :=
  mk (asn1Array o) (asn1Version o) (asn1SerialNumber o) (asn1SignatureAlg o)
     (asn1Issuer o) (asn1NotBefore o) (asn1NotAfter o) (asn1Subject o)
     (asn1SubjPKey o) (extensionsArray o ++ [extObj]) (hTLV o) (isModified o).

(** The array [getEncodedHex] builds before it encodes. *)
Definition fields (o : t) (asn1Validity : ASN1Object) : list (option ASN1Object) :=
  [ Some (asn1Version o);
    asn1SerialNumber o;
    algid_object (asn1SignatureAlg o);
    asn1Issuer o;
    Some asn1Validity;
    asn1Subject o;
    asn1SubjPKey o ]
  ++ (if (0 <? Z.of_nat (length (extensionsArray o))) then
        let extSeq := DERSequence (map Some (extensionsArray o)) in
        let extTagObj := DERTaggedObject true "a3" extSeq in
        [Some extTagObj]
      else []).

(** [TBSCertificate.getEncodedHex] *)
Definition getEncodedHex (K : Kernel) : ST t string :=
  o <~ getS ;;;
  match asn1NotBefore o, asn1NotAfter o with
  | Some notBefore, Some notAfter =>
      let asn1Validity := DERSequence [Some notBefore; Some notAfter] in
      modifyS (set_asn1Array (fields o asn1Validity)) ;;>
      h <~ liftR (ASN1.getEncodedHex K (DERSequence (fields o asn1Validity))) ;;;
      modifyS (set_hTLV (Some h)) ;;>
      modifyS (set_isModified false) ;;>
      retS h
  | _, _ => throwS "notBefore and/or notAfter not set"
  end.

(** The TBSCertificates a caller can have: a new one, changed by the
    setters and by [getEncodedHex]. *)
Inductive built (K : Kernel) : t -> Prop :=
| built_new : built K new
| built_setSerialNumberByParam x o : built K o -> built K (setSerialNumberByParam x o)
| built_setSignatureAlgByParam x o : built K o -> built K (setSignatureAlgByParam x o)
| built_setIssuerByParam x o : built K o -> built K (setIssuerByParam x o)
| built_setNotBeforeByParam x o : built K o -> built K (setNotBeforeByParam x o)
| built_setNotAfterByParam x o : built K o -> built K (setNotAfterByParam x o)
| built_setSubjectByParam x o : built K o -> built K (setSubjectByParam x o)
| built_setSubjectPublicKey x o : built K o -> built K (setSubjectPublicKey x o)
| built_appendExtension x o : built K o -> built K (appendExtension x o)
| built_getEncodedHex o r o' :
    built K o -> getEncodedHex K o = (r, o') -> built K o'.

End TBSCertificate.

(** ** Certificate *)

Module Certificate.
Import JSStr ASN1.

(** The certificate holds its TBSCertificate: what [sign] does to that
    object (its cached array and encoding) is kept in [asn1TBSCert]. *)
Record t : Type := mk {
  asn1TBSCert : option TBSCertificate.t;
  asn1SignatureAlg : option AlgorithmIdentifier;
  asn1Sig : option ASN1Object;
  hexSig : option string;
  prvKey : option string;
  hTLV : option string;
  isModified : bool
}.

Definition set_asn1TBSCert (x : option TBSCertificate.t) (o : t) : t :=
  mk x (asn1SignatureAlg o) (asn1Sig o) (hexSig o) (prvKey o) (hTLV o) (isModified o).

Definition set_asn1SignatureAlg (x : option AlgorithmIdentifier) (o : t) : t :=
  mk (asn1TBSCert o) x (asn1Sig o) (hexSig o) (prvKey o) (hTLV o) (isModified o).

Definition set_asn1Sig (x : option ASN1Object) (o : t) : t :=
  mk (asn1TBSCert o) (asn1SignatureAlg o) x (hexSig o) (prvKey o) (hTLV o) (isModified o).

Definition set_hexSig (x : option string) (o : t) : t :=
  mk (asn1TBSCert o) (asn1SignatureAlg o) (asn1Sig o) x (prvKey o) (hTLV o) (isModified o).

Definition set_hTLV (x : option string) (o : t) : t :=
  mk (asn1TBSCert o) (asn1SignatureAlg o) (asn1Sig o) (hexSig o) (prvKey o) x (isModified o).

Definition set_isModified (x : bool) (o : t) : t :=
  mk (asn1TBSCert o) (asn1SignatureAlg o) (asn1Sig o) (hexSig o) (prvKey o) (hTLV o) x.

(** Modelled from the spec: the constructor of the base class
    [ASN1Object] ([asn1-1.0.js] is not among the sources) leaves no
    encoding in [hTLV] ([None]: null or undefined) and [isModified] other
    than false ([true]): "unsigned (no signature value; getEncodedHex
    fails)".  [new Certificate({tbscertobj, prvkeyobj})], each parameter
    possibly left out. *)
Definition new (tbscertobj : option TBSCertificate.t) (prvkeyobj : option string) : t :=
  mk tbscertobj None None None prvkeyobj None true.

(** [this.asn1TBSCert.m()]: a method of the TBSCertificate run on the
    object the certificate holds; a TypeError when it holds none. *)
Definition on_asn1TBSCert {A} (m : ST TBSCertificate.t A) : ST t A :=
  fun o => match asn1TBSCert o with
           | Some tbs => let '(r, tbs') := m tbs in (r, set_asn1TBSCert (Some tbs') o)
           | None => (Throw "TypeError: cannot read properties of null", o)
           end.

(** The result of a method, exception included, as a value. *)
Definition attempt {S A} (m : ST S A) : ST S (Res A) :=
  fun s => let '(r, s') := m s in (Ok r, s').

(** [new DERSequence({array: [tbs, sigAlg, sig]}).getEncodedHex()]: the
    TBS object is encoded by its own [getEncodedHex], then the two other
    elements, then the kernel wraps the three. *)
Definition signed_encoding (K : Kernel) (sigAlg : option AlgorithmIdentifier)
    (sig : ASN1Object) : ST t string :=
  rtbs <~ attempt (on_asn1TBSCert (TBSCertificate.getEncodedHex K)) ;;;
  liftR (getEncodedHex K
           (DERSequence [Some (Encoded rtbs); algid_object sigAlg; Some sig])).

(** [Certificate.sign] *)
Definition sign (K : Kernel) : ST t unit :=
  sigAlg <~ on_asn1TBSCert (tbs <~ getS ;;; retS (TBSCertificate.asn1SignatureAlg tbs)) ;;;
  modifyS (set_asn1SignatureAlg sigAlg) ;;>
  alg <~ match sigAlg with
         | Some a => retS (nameAlg a)
         | None => throwS "TypeError: cannot read properties of null"
         end ;;;
  liftR (Signature_new K alg None) ;;>
  o <~ getS ;;;
  liftR (Signature_init K alg None (prvKey o)) ;;>
  hTBS <~ on_asn1TBSCert (TBSCertificate.getEncodedHex K) ;;;
  hexSig <~ liftR (Signature_sign K alg None (prvKey o) hTBS) ;;;
  modifyS (set_hexSig (Some hexSig)) ;;>
  let asn1Sig := DERBitString ("00" +:+ hexSig) in
  modifyS (set_asn1Sig (Some asn1Sig)) ;;>
  h <~ signed_encoding K sigAlg asn1Sig ;;;
  modifyS (set_hTLV (Some h)) ;;>
  modifyS (set_isModified false).

(** [Certificate.setSignatureHex] *)
Definition setSignatureHex (K : Kernel) (sigHex : string) : ST t unit :=
  sigAlg <~ on_asn1TBSCert (tbs <~ getS ;;; retS (TBSCertificate.asn1SignatureAlg tbs)) ;;;
  modifyS (set_asn1SignatureAlg sigAlg) ;;>
  modifyS (set_hexSig (Some sigHex)) ;;>
  let asn1Sig := DERBitString ("00" +:+ sigHex) in
  modifyS (set_asn1Sig (Some asn1Sig)) ;;>
  h <~ signed_encoding K sigAlg asn1Sig ;;;
  modifyS (set_hTLV (Some h)) ;;>
  modifyS (set_isModified false).

(** [Certificate.getEncodedHex] *)
Definition getEncodedHex : ST t string :=
  o <~ getS ;;;
  match isModified o, hTLV o with
  | false, Some h => retS h
  | _, _ => throwS "not signed yet"
  end.

(** [n] calls of [getEncodedHex] in a row: the object they leave. *)
Definition after_getEncodedHex (n : nat) (o : t) : t :=
  Nat.iter n (fun o => snd (getEncodedHex o)) o.

(** [Certificate.getPEMString] *)
Definition getPEMString (K : Kernel) : ST t string :=
  h <~ getEncodedHex ;;;
  let pemBody := hextob64nl K h in
  retS ("-----BEGIN CERTIFICATE-----" +:+ CRLF +:+ pemBody +:+
        CRLF +:+ "-----END CERTIFICATE-----" +:+ CRLF).

(** The certificates on which neither [sign] nor [setSignatureHex] has
    completed: a new one, and what is left of one by a call of [sign] or
    [setSignatureHex] that threw, by [getEncodedHex] or [getPEMString],
    or by the caller changing the TBSCertificate it holds. *)
Inductive unsigned (K : Kernel) : t -> Prop :=
| unsigned_new tbscertobj prvkeyobj :
    unsigned K (new tbscertobj prvkeyobj)
| unsigned_sign_threw o msg o' :
    unsigned K o -> sign K o = (Throw msg, o') -> unsigned K o'
| unsigned_setSignatureHex_threw o sigHex msg o' :
    unsigned K o -> setSignatureHex K sigHex o = (Throw msg, o') -> unsigned K o'
| unsigned_getEncodedHex o r o' :
    unsigned K o -> getEncodedHex o = (r, o') -> unsigned K o'
| unsigned_getPEMString o r o' :
    unsigned K o -> getPEMString K o = (r, o') -> unsigned K o'
| unsigned_tbs_changed o f :
    unsigned K o -> unsigned K (set_asn1TBSCert (option_map f (asn1TBSCert o)) o).

End Certificate.

(** ** TBSCertList *)

Module TBSCertList.
Import ASN1.

Record t : Type := mk {
  asn1Array : list (option ASN1Object);
  asn1Version : option ASN1Object;
  asn1SignatureAlg : option AlgorithmIdentifier;
  asn1Issuer : option ASN1Object;
  asn1ThisUpdate : option ASN1Object;
  asn1NextUpdate : option ASN1Object;
  aRevokedCert : list ASN1Object;
  hTLV : option string;
  isModified : bool
}.

Definition set_asn1Array (a : list (option ASN1Object)) (o : t) : t :=
  mk a (asn1Version o) (asn1SignatureAlg o) (asn1Issuer o) (asn1ThisUpdate o)
     (asn1NextUpdate o) (aRevokedCert o) (hTLV o) (isModified o).

Definition set_hTLV (h : option string) (o : t) : t :=
  mk (asn1Array o) (asn1Version o) (asn1SignatureAlg o) (asn1Issuer o)
     (asn1ThisUpdate o) (asn1NextUpdate o) (aRevokedCert o) h (isModified o).

Definition set_isModified (b : bool) (o : t) : t :=
  mk (asn1Array o) (asn1Version o) (asn1SignatureAlg o) (asn1Issuer o)
     (asn1ThisUpdate o) (asn1NextUpdate o) (aRevokedCert o) (hTLV o) b.

(** [new TBSCertList()]; the base class as for TBSCertificate. *)
Definition new : t := mk [] None None None None None [] None true.

Definition setSignatureAlgByParam (x : AlgorithmIdentifier) (o : t) : t :=
  mk (asn1Array o) (asn1Version o) (Some x) (asn1Issuer o) (asn1ThisUpdate o)
     (asn1NextUpdate o) (aRevokedCert o) (hTLV o) (isModified o).

Definition setIssuerByParam (x : ASN1Object) (o : t) : t :=
  mk (asn1Array o) (asn1Version o) (asn1SignatureAlg o) (Some x) (asn1ThisUpdate o)
     (asn1NextUpdate o) (aRevokedCert o) (hTLV o) (isModified o).

Definition setThisUpdateByParam (x : ASN1Object) (o : t) : t :=
  mk (asn1Array o) (asn1Version o) (asn1SignatureAlg o) (asn1Issuer o) (Some x)
     (asn1NextUpdate o) (aRevokedCert o) (hTLV o) (isModified o).

Definition setNextUpdateByParam (x : ASN1Object) (o : t) : t :=
  mk (asn1Array o) (asn1Version o) (asn1SignatureAlg o) (asn1Issuer o)
     (asn1ThisUpdate o) (Some x) (aRevokedCert o) (hTLV o) (isModified o).

Definition addRevokedCert (entry : ASN1Object) (o : t) : t :=
  mk (asn1Array o) (asn1Version o) (asn1SignatureAlg o) (asn1Issuer o)
     (asn1ThisUpdate o) (asn1NextUpdate o) (aRevokedCert o ++ [entry]) (hTLV o)
     (isModified o).

(** The array [getEncodedHex] builds before it encodes. *)
Definition fields (o : t) : list (option ASN1Object) :=
  (match asn1Version o with Some v => [Some v] | None => [] end)
  ++ [ algid_object (asn1SignatureAlg o); asn1Issuer o; asn1ThisUpdate o ]
  ++ (match asn1NextUpdate o with Some u => [Some u] | None => [] end)
  ++ (if (0 <? Z.of_nat (length (aRevokedCert o))) then
        let seq := DERSequence (map Some (aRevokedCert o)) in [Some seq]
      else []).

(** [TBSCertList.getEncodedHex] *)
Definition getEncodedHex (K : Kernel) : ST t string :=
  o <~ getS ;;;
  modifyS (set_asn1Array (fields o)) ;;>
  h <~ liftR (ASN1.getEncodedHex K (DERSequence (fields o))) ;;;
  modifyS (set_hTLV (Some h)) ;;>
  modifyS (set_isModified false) ;;>
  retS h.

End TBSCertList.

(** ** CRL *)

Module CRL.
Import ASN1.

Record t : Type := mk {
  asn1TBSCertList : option TBSCertList.t;
  asn1SignatureAlg : option AlgorithmIdentifier;
  asn1Sig : option ASN1Object;
  hexSig : option string;
  prvKey : option string;
  hTLV : option string;
  isModified : bool
}.

Definition set_asn1TBSCertList (x : option TBSCertList.t) (o : t) : t :=
  mk x (asn1SignatureAlg o) (asn1Sig o) (hexSig o) (prvKey o) (hTLV o) (isModified o).

Definition set_asn1SignatureAlg (x : option AlgorithmIdentifier) (o : t) : t :=
  mk (asn1TBSCertList o) x (asn1Sig o) (hexSig o) (prvKey o) (hTLV o) (isModified o).

Definition set_asn1Sig (x : option ASN1Object) (o : t) : t :=
  mk (asn1TBSCertList o) (asn1SignatureAlg o) x (hexSig o) (prvKey o) (hTLV o) (isModified o).

Definition set_hexSig (x : option string) (o : t) : t :=
  mk (asn1TBSCertList o) (asn1SignatureAlg o) (asn1Sig o) x (prvKey o) (hTLV o) (isModified o).

Definition set_hTLV (x : option string) (o : t) : t :=
  mk (asn1TBSCertList o) (asn1SignatureAlg o) (asn1Sig o) (hexSig o) (prvKey o) x (isModified o).

Definition set_isModified (x : bool) (o : t) : t :=
  mk (asn1TBSCertList o) (asn1SignatureAlg o) (asn1Sig o) (hexSig o) (prvKey o) (hTLV o) x.

(** [new CRL({tbsobj, prvkeyobj})]; the base class as for Certificate. *)
Definition new (tbsobj : option TBSCertList.t) (prvkeyobj : option string) : t :=
  mk tbsobj None None None prvkeyobj None true.

Definition on_asn1TBSCertList {A} (m : ST TBSCertList.t A) : ST t A :=
  fun o => match asn1TBSCertList o with
           | Some tbs => let '(r, tbs') := m tbs in (r, set_asn1TBSCertList (Some tbs') o)
           | None => (Throw "TypeError: cannot read properties of null", o)
           end.

Definition signed_encoding (K : Kernel) (sigAlg : option AlgorithmIdentifier)
    (sig : ASN1Object) : ST t string :=
  rtbs <~ Certificate.attempt (on_asn1TBSCertList (TBSCertList.getEncodedHex K)) ;;;
  liftR (getEncodedHex K
           (DERSequence [Some (Encoded rtbs); algid_object sigAlg; Some sig])).

(** [CRL.sign].  The algorithm is the literal ['SHA1withRSA'], and the
    Signature object is assigned to [sig], which the method does not
    declare: in strict mode that is a ReferenceError unless a global [sig]
    exists. *)
Definition sign (K : Kernel) : ST t unit :=
  sigAlg <~ on_asn1TBSCertList (tbs <~ getS ;;; retS (TBSCertList.asn1SignatureAlg tbs)) ;;;
  modifyS (set_asn1SignatureAlg sigAlg) ;;>
  liftR (Signature_new K (Some "SHA1withRSA") (Some "cryptojs/jsrsa")) ;;>
  (if global_sig K then retS tt else throwS "ReferenceError: sig is not defined") ;;>
  o <~ getS ;;;
  liftR (Signature_init K (Some "SHA1withRSA") (Some "cryptojs/jsrsa") (prvKey o)) ;;>
  hTBS <~ on_asn1TBSCertList (TBSCertList.getEncodedHex K) ;;;
  hexSig <~ liftR (Signature_sign K (Some "SHA1withRSA") (Some "cryptojs/jsrsa") (prvKey o) hTBS) ;;;
  modifyS (set_hexSig (Some hexSig)) ;;>
  let asn1Sig := DERBitString ("00" +:+ hexSig) in
  modifyS (set_asn1Sig (Some asn1Sig)) ;;>
  h <~ signed_encoding K sigAlg asn1Sig ;;;
  modifyS (set_hTLV (Some h)) ;;>
  modifyS (set_isModified false).

(** [CRL.getEncodedHex] *)
Definition getEncodedHex : ST t string :=
  o <~ getS ;;;
  match isModified o, hTLV o with
  | false, Some h => retS h
  | _, _ => throwS "not signed yet"
  end.

End CRL.

(** ** Concrete collaborators and inputs for the examples *)

Module Sample.
Import JSStr JS.

(** *** A JWS engine *)

(** The decoders of this engine are the identity on a defined string, so
    that a token shows its header and payload; [JSON_parse] reads the few
    texts used below, which are written without the quotes of JSON. *)
Definition decode (o : option string) : Res string :=
  match o with
  | Some s => Ok s
  | None => Throw "TypeError: cannot read properties of undefined"
  end.

Definition json_texts : list (string * JSValue) :=
  [ ("{}", JObj ∅);
    ("{alg:HS256}", JObj {[ "alg" := JStr "HS256" ]});
    ("{alg:RS256}", JObj {[ "alg" := JStr "RS256" ]});
    ("{exp:990}", JObj {[ "exp" := JNum 990 ]});
    ("{exp:'990'}", JObj {[ "exp" := JStr "990" ]});
    ("{exp:'990',nbf:'2000',iat:null}",
       JObj (<[ "exp" := JStr "990" ]> (<[ "nbf" := JStr "2000" ]> {[ "iat" := JNull ]})));
    ("[]", JArr []);
    ("{exp:9007199254740994}", JObj {[ "exp" := JNum 9007199254740994 ]}) ].

Fixpoint json_lookup (s : string) (t : list (string * JSValue)) : option JSValue :=
  match t with
  | [] => None
  | (k, v) :: t' => if String.eqb s k then Some v else json_lookup s t'
  end.

Definition engine : JWS.Engine := {|
  JWS.b64utohex := decode;
  JWS.b64utoutf8 := decode;
  JWS.JSON_parse := fun s => json_lookup s json_texts;
  JWS.StringToNumber := fun _ => None;
  JWS.getKey := fun _ => Throw "not a PEM key";
  JWS.Mac_doFinal := fun _ _ _ => Ok "6d6163";
  JWS.concatSigToASN1Sig := fun h => Ok h;
  JWS.Signature_verify := fun _ _ _ hSig => Ok (String.eqb hSig "736967")
|}.

(** A token with the header [{alg:HS256}], the payload [{exp:990}] and the
    MAC of this engine, and an [acceptField] that accepts HS256. *)
Definition hs256_exp990 : string := "{alg:HS256}.{exp:990}.6d6163".

Definition accept_HS256 : gmap string JSValue := {[ "alg" := JArr [JStr "HS256"] ]}.

(** *** An ASN.1 kernel: tag, DER length, value, on hexadecimal strings

    It stands in for the kernel of [asn1-1.0.js] in the examples only;
    integers are encoded for [n >= 0]. *)

Definition hex_digit (n : N) : ascii :=
  match n with
  | 0 => "0" | 1 => "1" | 2 => "2" | 3 => "3" | 4 => "4" | 5 => "5"
  | 6 => "6" | 7 => "7" | 8 => "8" | 9 => "9" | 10 => "a" | 11 => "b"
  | 12 => "c" | 13 => "d" | 14 => "e" | _ => "f"
  end%N%char.

Definition hex_byte (n : N) : string :=
  String (hex_digit ((n / 16) mod 16)) (String (hex_digit (n mod 16)) EmptyString).

(** The bytes of [n], most significant first, at most [fuel] of them. *)
Fixpoint hex_bytes (fuel : nat) (n : N) : string :=
  match fuel with
  | O => EmptyString
  | S fuel' =>
      if (n <? 256)%N then hex_byte n
      else hex_bytes fuel' (n / 256) +:+ hex_byte (n mod 256)
  end.

Definition der_length (n : N) : string :=
  if (n <? 128)%N then hex_byte n
  else let bs := hex_bytes 8 n in
       hex_byte (128 + N.of_nat (String.length bs) / 2) +:+ bs.

Definition tlv (tag value : string) : string :=
  tag +:+ der_length (N.of_nat (String.length value) / 2) +:+ value.

Definition integer_content (n : Z) : string :=
  let bs := hex_bytes 8 (Z.to_N n) in
  if (128 <=? (Z.to_N n / 256 ^ (N.of_nat (String.length bs) / 2 - 1)) mod 256)%N
  then "00" +:+ bs else bs.

Definition sample_signature (alg : option string) : string :=
  match alg with
  | Some "SHA1withRSA" => "5a01"
  | Some "SHA256withRSA" => "5a02"
  | _ => "5aff"
  end.

Definition kernel (global_sig : bool) : ASN1.Kernel := {|
  ASN1.DERInteger_hex := fun n => tlv "02" (integer_content n);
  ASN1.DERBitString_hex := fun h => tlv "03" h;
  ASN1.DERSequence_hex := fun hs => tlv "30" (String.concat EmptyString hs);
  ASN1.DERTaggedObject_hex := fun explicit tag h =>
    if explicit then tlv tag h else tag +:+ String.substring 2 (String.length h - 2) h;
  ASN1.Signature_new := fun _ _ => Ok tt;
  ASN1.Signature_init := fun _ _ key =>
    match key with
    | Some _ => Ok tt
    | None => Throw "init failed for null key"
    end;
  ASN1.Signature_sign := fun alg _ _ _ => Ok (sample_signature alg);
  ASN1.global_sig := global_sig;
  ASN1.hextob64nl := fun h => h
|}.

Definition algid (name hex : string) : ASN1.AlgorithmIdentifier :=
  {| ASN1.nameAlg := Some name; ASN1.algid_encoding := Ok hex |}.

Definition SHA256withRSA : ASN1.AlgorithmIdentifier :=
  algid "SHA256withRSA" "300d06092a864886f70d01010b0500".

(** serial 4, issuer /C=US, one year of validity, subject /C=US, a
    placeholder key, no extension *)
Definition tbs_v1 : TBSCertificate.t :=
  TBSCertificate.setSubjectPublicKey (ASN1.Encoded (Ok "30030101ff"))
    (TBSCertificate.setSubjectByParam (ASN1.Encoded (Ok "300d310b3009060355040613025553"))
      (TBSCertificate.setNotAfterByParam (ASN1.Encoded (Ok "170d3134303530343233353935395a"))
        (TBSCertificate.setNotBeforeByParam (ASN1.Encoded (Ok "170d3133303530343233353935395a"))
          (TBSCertificate.setIssuerByParam (ASN1.Encoded (Ok "300d310b3009060355040613025553"))
            (TBSCertificate.setSignatureAlgByParam SHA256withRSA
              (TBSCertificate.setSerialNumberByParam (ASN1.DERInteger 4)
                 TBSCertificate.new)))))).

(** the same with a BasicConstraints extension *)
Definition tbs_v3 : TBSCertificate.t :=
  TBSCertificate.appendExtension (ASN1.Encoded (Ok "300c0603551d13040530030101ff")) tbs_v1.

(** a CRL body that declares SHA256withRSA *)
Definition tbscertlist : TBSCertList.t :=
  TBSCertList.setThisUpdateByParam (ASN1.Encoded (Ok "170d3133303530343233353935395a"))
    (TBSCertList.setIssuerByParam (ASN1.Encoded (Ok "300d310b3009060355040613025553"))
      (TBSCertList.setSignatureAlgByParam SHA256withRSA TBSCertList.new)).

(** a CRL on that body, with a key *)
Definition crl : CRL.t := CRL.new (Some tbscertlist) (Some "key").

(** certificates on [tbs_v3]: without key, and with one *)
Definition cert_without_key : Certificate.t := Certificate.new (Some tbs_v3) None.

Definition cert : Certificate.t := Certificate.new (Some tbs_v3) (Some "key").

(** an [acceptField] that accepts RS256 only *)
Definition accept_RS256 : gmap string JSValue := {[ "alg" := JArr [JStr "RS256"] ]}.

End Sample.

(** ** asn1x509-1.0.js: strings of names, and the bits of [KeyUsage] *)

Module RDN.
Import JSStr X500Name.

(** The code unit of the double quote. *)
Definition dquote : ascii := "034"%char.

(** The code units [.] does not match; strings are made of code units
    below 256 here, so these are line feed and carriage return. *)
Definition is_line_terminator (c : ascii) : bool :=
  Ascii.eqb c "010"%char || Ascii.eqb c "013"%char.

Definition has_line_terminator (s : string) : bool :=
  existsb is_line_terminator (list_ascii_of_string s).

(** [item.match] of a double quote at the end of [item]. *)
Fixpoint ends_with_dquote (s : string) : bool :=
  match s with
  | EmptyString => false
  | String a EmptyString => Ascii.eqb a dquote
  | String _ s' => ends_with_dquote s'
  end.

(** [item.match] of the opening pattern (one or more code units other
    than ['='], then ['='] and a double quote): the first ['='] is not the
    first code unit and a double quote follows it. *)
Definition begins_quote (item : string) : bool :=
  match item, attr_value item with
  | String a _, Some (String b _) => negb (Ascii.eqb a "="%char) && Ascii.eqb b dquote
  | _, _ => false
  end.

(** The code units before the first ['=']. *)
Fixpoint attr_type (s : string) : string :=
  match s with
  | EmptyString => EmptyString
  | String a s' => if Ascii.eqb a "="%char then EmptyString else String a (attr_type s')
  end.

(** [s] without its last code unit. *)
Fixpoint chop (s : string) : string :=
  match s with
  | EmptyString => EmptyString
  | String a EmptyString => EmptyString
  | String a s' => String a (chop s')
  end.

(** The [replace] of the quoting pattern by [$1=$2]: when [s] is a type,
    ['='], a double quote, a text without line terminator and a final
    double quote, the two quotes are dropped. *)
Definition unquote (s : string) : string :=
  match attr_value s with
  | Some (String b v) =>
      if begins_quote s && ends_with_dquote v && negb (has_line_terminator (chop v))
      then attr_type s +:+ "=" +:+ chop v
      else s
  | _ => s
  end.

(** One turn of the first loop of [parseString], which joins at an
    escaped ['+']. *)
Definition plus_step (st : bool * list string) (item : string)
  : bool * list string :=
  let '(isBSbefore, a2) := st in
  let '(isBSbefore, a2) :=
    if isBSbefore then
      let '(a2last, a2) := pop a2 in
      let newitem := replace_all_escaped "+"%char (str_of a2last +:+ "+" +:+ item) in
      (false, a2 ++ [newitem])
    else (isBSbefore, a2 ++ [item]) in
  if ends_with_backslash item then (true, a2) else (isBSbefore, a2).

(** One turn of the second loop, which joins inside quotes. *)
Definition quote_step (st : bool * list string) (item : string)
  : bool * list string :=
  let '(beginQuote, a3) := st in
  let '(beginQuote, a3) :=
    if beginQuote then
      let '(a3last, a3) := pop a3 in
      if ends_with_dquote item
      then (false, a3 ++ [unquote (str_of a3last +:+ "+" +:+ item)])
      else (beginQuote, a3 ++ [str_of a3last +:+ "+" +:+ item])
    else (beginQuote, a3 ++ [item]) in
  if begins_quote item then (true, a3) else (beginQuote, a3).

(** [RDN.parseString] *)
Definition parseString (s : string) : list string :=
  let a := split "+"%char s in
  let '(_, a2) := fold_left plus_step a (false, []) in
  let '(_, a3) := fold_left quote_step a2 (false, []) in
  a3.

(** Every ['+'] written as a backslash and ['+']: the text that
    [parseString] reads back as one attribute. *)
Fixpoint escape_plus (s : string) : string :=
  match s with
  | EmptyString => EmptyString
  | String a s' =>
      if Ascii.eqb a "+"%char then String "\"%char (String "+"%char (escape_plus s'))
      else String a (escape_plus s')
  end.

End RDN.

Module X500NameString.
Import JSStr X500Name RDN.

(** [a[i].match(/^[^=]+=.+$/)] *)
Definition match_attr (s : string) : bool :=
  match s, attr_value s with
  | String a _, Some (String b v) =>
      negb (Ascii.eqb a "="%char) && negb (has_line_terminator (String b v))
  | _, _ => false
  end.

(** One turn of the first loop of [setByString]: the array [a1] and the
    property [a1[-1]], which the loop writes while [a1] is empty. *)
Definition setByString_step (st : option string * list string) (item : string)
  : option string * list string :=
  let '(minus1, a1) := st in
  if match_attr item then (minus1, a1 ++ [item])
  else
    match a1 with
    | [] => (Some (str_of minus1 +:+ "/" +:+ item), a1)
    | _ => (minus1, removelast a1 ++ [str_of (last a1) +:+ "/" +:+ item])
    end.

(** The strings [a1[0]], [a1[1]], ... that [setByString(dnStr)] makes
    RDNs of. *)
Definition setByString_a1 (dnStr : string) : list string :=
  let a := split "/"%char dnStr in
  let a := tail a in
  snd (fold_left setByString_step a (None, [])).

End X500NameString.

Module KeyUsage.

Section WithNames.
(** [KEYUSAGE_NAME] of x509-1.1.js, which is not among the sources. *)
Variable KEYUSAGE_NAME : list string.

(** [s.substring(0, j) + '1' + s.substring(j + 1, s.length)] *)
Definition set_bit (j : nat) (s : string) : string :=
  String.substring 0 j s +:+ "1"
  +:+ String.substring (j + 1) (String.length s - (j + 1)) s.

(** The loop over [j] for one name. *)
Definition name_step (s : string) (name : string) : string :=
  fold_left (fun s j => if String.eqb name (nth j KEYUSAGE_NAME EmptyString)
                        then set_bit j s else s)
            (seq 0 (length KEYUSAGE_NAME)) s.

(** The string [s] that the constructor passes to [DERBitString] as
    [bin] for [params.names]. *)
Definition names_bin (names : list string) : string :=
  fold_left name_step names "000000000".

End WithNames.

End KeyUsage.

(** ** jws-3.3.js: [sign], [parse], [JWS.parseJWS] and the utilities *)

Module JWSSign.
Import JSStr JS JWS.

(** The collaborators of these functions beside those of [Engine]:
    base64x, crypto, ecdsa, jsbn, and the built-in [JSON.stringify] on a
    dictionary ([null] for the indented form of [parse]). *)
Record SignEngine : Type := {
  utf8tob64u : string -> Res string;
  hextob64u : string -> Res string;
  JSON_stringify : gmap string JSValue -> string;
  (* [JSON.stringify(o, null, "  ")], [o] a dictionary or [null] *)
  JSON_stringify_indented : option (gmap string JSValue) -> string;
  (* [new Mac({alg, prov, pass}); updateString(s); doFinal()] *)
  Mac_doFinal_prov : string -> string -> Key -> string -> Res string;
  (* [new Signature({alg}); init(key, pass); updateString(s); sign()] *)
  Signature_sign : string -> Key -> option string -> string -> Res string;
  (* [ECDSA.asn1SigToConcatSig(hASN1Sig)] *)
  asn1SigToConcatSig : string -> Res string;
  BigInteger : Type;
  (* [parseBigInt(h, 16)] *)
  parseBigInt : string -> Res BigInteger;
  zulutosec : string -> Res Z;
  rstrtohex : string -> string;
  (* [hashHex(h, alg)] *)
  hashHex : string -> string -> Res string
}.

(** A header or payload argument, as the documentation types the
    header: a string or a dictionary.  The values step 1 of [sign]
    refuses (neither string nor object) and [null] and arrays are
    outside this type. *)
Inductive StringOrObject : Type :=
| AString (s : string)
| AnObject (d : gmap string JSValue).

(** [v == ''] *)
Definition loose_eq_empty (v : JSValue) : bool :=
  match v with
  | JStr s => String.eqb s EmptyString
  | JNum n => Z.eqb n 0
  | JBool b => negb b
  | JArr _ => String.eqb (toString v) EmptyString
  | _ => false
  end.

(** [v == null] *)
Definition loose_eq_null (v : JSValue) : bool :=
  match v with JNull | JUndefined => true | _ => false end.

Definition is_undefined (v : JSValue) : bool :=
  match v with JUndefined => true | _ => false end.

(** [x === undefined] for an entry that may be missing. *)
Definition is_undefined_opt {A} (x : option A) : bool :=
  match x with None => true | Some _ => false end.

(** The three groups of [/^([^.]+)\.([^.]+)\.([^.]+)$/]: the input is
    three non-empty segments without ['.'], joined by ['.']. *)
Definition match_Head_Payload_SigValue (sJWS : string)
  : option (string * string * string) :=
  match split "."%char sJWS with
  | [h; p; g] =>
      if String.eqb h EmptyString || String.eqb p EmptyString || String.eqb g EmptyString then None
      else Some (h, p, g)
  | _ => None
  end.

(** [getEncodedSignatureValueFromJWS] *)
Definition getEncodedSignatureValueFromJWS (sJWS : string) : Res string :=
  match match_Head_Payload_SigValue sJWS with
  | None => Throw "JWS signature is not a form of 'Head.Payload.SigValue'."
  | Some (_, _, g) => Ok g
  end.

Section WithEngines.
Context (E : Engine) (S : SignEngine).

(** [isSafeJSONString(s, h, p)]: whether it returns 1, and the object it
    stores in [h[p]] then (when [h] is given). *)
Definition isSafeJSONString (s : string) : bool * option (gmap string JSValue) :=
  match JSON_parse E s with
  | None => (false, None)                     (* SyntaxError, caught *)
  | Some o =>
      if negb (String.eqb (typeof o) "object") then (false, None)
      else match o with
           | JObj d => (true, Some d)
           | _ => (false, None)   (* an array; [null.constructor] raises, caught *)
           end
  end.

(** Steps 1 to 4 of [sign] on the header: the algorithm, the header
    object, the header text, and the header object of the caller as the
    steps leave it. *)
Definition sign_header (alg : option string) (spHeader : StringOrObject)
  : Res (JSValue * option (gmap string JSValue) * string) * StringOrObject :=
  (* 1. check signatureInput(Header, Payload) is string or object *)
  match (match spHeader with
         | AnObject d => Ok (Some d, JSON_stringify S d)
         | AString s =>
             if negb (fst (isSafeJSONString s))
             then Throw ("JWS Head is not safe JSON string: " +:+ s)
             else Ok (readSafeJSONString E s, s)
         end) with
  | Throw m => (Throw m, spHeader)
  | Ok (pHeader, sHeader) =>
      let alg := match alg with Some a => JStr a | None => JNull end in
      (* 2. use alg if defined in sHeader *)
      match (if loose_eq_empty alg || loose_eq_null alg then
               h <- prop pHeader "alg" ;;;
               Ok (if negb (is_undefined h) then (h, true) else (alg, false))
             else Ok (alg, false)) with
      | Throw m => (Throw m, spHeader)
      | Ok (alg, same) =>
          (* 3. update sHeader to add alg if alg undefined *)
          match (if negb (loose_eq_empty alg) && negb (loose_eq_null alg) then
                   h <- prop pHeader "alg" ;;;
                   Ok (if is_undefined h
                       then let pHeader' := <["alg" := alg]> <$> pHeader in
                            (pHeader', JSON_stringify S (default ∅ pHeader'), true)
                       else (pHeader, sHeader, same))
                 else Ok (pHeader, sHeader, same)) with
          | Throw m => (Throw m, spHeader)
          | Ok (pHeader, sHeader, same) =>
              let spHeader :=
                match spHeader, pHeader with
                | AnObject _, Some d => AnObject d
                | _, _ => spHeader
                end in
              (* 4. check explicit algorithm doesn't match with JWS header. *)
              (h <- prop pHeader "alg" ;;;
               if negb (same || strict_eq alg h)
               then Throw ("alg and sHeader.alg doesn't match: "
                           +:+ toString alg +:+ "!=" +:+ toString h)
               else Ok (alg, pHeader, sHeader),
               spHeader)
          end
      end
  end.

(** Steps 5 and 6 of [sign]. *)
Definition sign_with_alg (alg : JSValue) (sHeader sPayload : string) (key : Key)
    (pass : option string) : Res string :=
  (* 5. set signature algorithm like SHA1withRSA *)
  match jwsalg2sigalg (toString alg) with
  | Absent => Throw ("unsupported alg name: " +:+ toString alg)
  | Inherited =>
      uHeader <- utf8tob64u S sHeader ;;;
      uPayload <- utf8tob64u S sPayload ;;;
      Throw "TypeError: sigAlg.substr is not a function"
  | Entry sigAlg =>
      uHeader <- utf8tob64u S sHeader ;;;
      uPayload <- utf8tob64u S sPayload ;;;
      let uSignatureInput := uHeader +:+ "." +:+ uPayload in
      (* 6. sign *)
      hSig <- (if String.eqb (substr0 4 sigAlg) "Hmac" then
                 match key with
                 | KeyUndefined => Throw "mac key shall be specified for HS* alg"
                 | _ => Mac_doFinal_prov S sigAlg "cryptojs" key uSignatureInput
                 end
               else if includes "withECDSA" sigAlg then
                 hASN1Sig <- Signature_sign S sigAlg key pass uSignatureInput ;;;
                 asn1SigToConcatSig S hASN1Sig
               else if negb (String.eqb sigAlg "none") then
                 Signature_sign S sigAlg key pass uSignatureInput
               else Ok EmptyString) ;;;
      uSig <- hextob64u S hSig ;;;
      Ok (uSignatureInput +:+ "." +:+ uSig)
  end.

(** [sign(alg, spHeader, spPayload, key, pass)]: the result, and the
    header argument as the call leaves it. *)
Definition sign (alg : option string) (spHeader spPayload : StringOrObject)
    (key : Key) (pass : option string) : Res string * StringOrObject :=
  let sPayload :=
    match spPayload with
    | AString s => s
    | AnObject d => JSON_stringify S d
    end in
  match sign_header alg spHeader with
  | (Throw m, spHeader) => (Throw m, spHeader)
  | (Ok (alg, _, sHeader), spHeader) =>
      (sign_with_alg alg sHeader sPayload key pass, spHeader)
  end.

(** *** [parse] *)

(** The dictionary [parse] returns; [sigHex] is absent for a token of two
    segments. *)
Record Parsed : Type := {
  headerObj : option (gmap string JSValue);      (* [None]: [null] *)
  payloadObj : option (gmap string JSValue);
  headerPP : string;
  payloadPP : string;
  sigHex : option string
}.

(** [parse(sJWS)] *)
Definition parse (sJWS : string) : Res Parsed :=
  let a := split "."%char sJWS in
  if negb (Nat.eqb (length a) 2) && negb (Nat.eqb (length a) 3)
  then Throw "malformed sJWS: wrong number of '.' splitted elements"
  else
    let uHeader := a !! 0%nat in
    let uPayload := a !! 1%nat in
    let uSig := if Nat.eqb (length a) 3 then a !! 2%nat else None in
    sHeader <- b64utoutf8 E uHeader ;;;
    let headerObj := readSafeJSONString E sHeader in
    sPayload <- b64utoutf8 E uPayload ;;;
    let payloadObj := readSafeJSONString E sPayload in
    let headerPP := JSON_stringify_indented S headerObj in
    payloadPP <- (match payloadObj with
                  | None => b64utoutf8 E uPayload
                  | Some _ => Ok (JSON_stringify_indented S payloadObj)
                  end) ;;;
    sigHex <- (match uSig with
               | Some g => h <- b64utohex E (Some g) ;;; Ok (Some h)
               | None => Ok None
               end) ;;;
    Ok {| headerObj := headerObj; payloadObj := payloadObj;
          headerPP := headerPP; payloadPP := payloadPP; sigHex := sigHex |}.

(** *** [JWS.parseJWS] *)

(** The dictionary [this.parsedJWS]; the entries set after the first four
    may be missing. *)
Record ParsedJWS : Type := {
  headB64U : string;
  payloadB64U : string;
  sigvalB64U : string;
  si : string;
  sigvalH : option string;
  sigvalBI : option (BigInteger S);
  headS : option string;
  payloadS : option string;
  headP : option (gmap string JSValue)
}.

(** [parseJWS(sJWS, sigValNotNeeded)] on an object whose [parsedJWS] is
    the state ([None]: [undefined]). *)
Definition parseJWS (sJWS : string) (sigValNotNeeded : bool)
  : ST (option ParsedJWS) unit :=
  fun this_parsedJWS =>
  if match this_parsedJWS with
     | Some p => sigValNotNeeded || negb (is_undefined_opt (sigvalH p))
     | None => false
     end
  then (Ok tt, this_parsedJWS)
  else
    match match_Head_Payload_SigValue sJWS with
    | None =>
        (Throw "JWS signature is not a form of 'Head.Payload.SigValue'.",
         this_parsedJWS)
    | Some (b6Head, b6Payload, b6SigVal) =>
        let p := {| headB64U := b6Head; payloadB64U := b6Payload;
                    sigvalB64U := b6SigVal;
                    si := b6Head +:+ "." +:+ b6Payload;
                    sigvalH := None; sigvalBI := None;
                    headS := None; payloadS := None; headP := None |} in
        match (if negb sigValNotNeeded then
                 hSigVal <- b64utohex E (Some b6SigVal) ;;;
                 biSigVal <- parseBigInt S hSigVal ;;;
                 Ok (Some hSigVal, Some biSigVal)
               else Ok (None, None)) with
        | Throw m => (Throw m, Some p)
        | Ok (hSigVal, biSigVal) =>
            let p := {| headB64U := headB64U p; payloadB64U := payloadB64U p;
                        sigvalB64U := sigvalB64U p; si := si p;
                        sigvalH := hSigVal; sigvalBI := biSigVal;
                        headS := None; payloadS := None; headP := None |} in
            match (sHead <- b64utoutf8 E (Some b6Head) ;;;
                   sPayload <- b64utoutf8 E (Some b6Payload) ;;;
                   Ok (sHead, sPayload)) with
            | Throw m => (Throw m, Some p)
            | Ok (sHead, sPayload) =>
                let p := {| headB64U := headB64U p; payloadB64U := payloadB64U p;
                            sigvalB64U := sigvalB64U p; si := si p;
                            sigvalH := sigvalH p; sigvalBI := sigvalBI p;
                            headS := Some sHead; payloadS := Some sPayload;
                            headP := snd (isSafeJSONString sHead) |} in
                if negb (fst (isSafeJSONString sHead))
                then (Throw ("malformed JSON string for JWS Head: " +:+ sHead), Some p)
                else (Ok tt, Some p)
            end
        end
    end.

(** *** [getJWKthumbprint] *)

(** A member of the canonical text: name and value, each between double
    quotes, with a colon between them. *)
Definition member (name value : string) : string :=
  String "034"%char (name +:+ String "034"%char (":" +:+
  String "034"%char (value +:+ String "034"%char EmptyString))).

(** [getJWKthumbprint(o)] *)
Definition getJWKthumbprint (o : gmap string JSValue) : Res string :=
  let kty := get o "kty" in
  if negb (strict_eq kty (JStr "RSA")) && negb (strict_eq kty (JStr "EC"))
     && negb (strict_eq kty (JStr "oct"))
  then Throw "unsupported algorithm for JWK Thumprint"
  else
    (* 1. get canonically ordered json string *)
    s <- (if strict_eq kty (JStr "RSA") then
            match get o "n", get o "e" with
            | JStr n, JStr e =>
                Ok ("{" +:+ member "e" e +:+ "," +:+ member "kty" (toString kty) +:+ ","
                    +:+ member "n" n +:+ "}")
            | _, _ => Throw "wrong n and e value for RSA key"
            end
          else if strict_eq kty (JStr "EC") then
            match get o "crv", get o "x", get o "y" with
            | JStr crv, JStr x, JStr y =>
                Ok ("{" +:+ member "crv" crv +:+ "," +:+ member "kty" (toString kty) +:+ ","
                    +:+ member "x" x +:+ "," +:+ member "y" y +:+ "}")
            | _, _, _ => Throw "wrong crv, x and y value for EC key"
            end
          else
            match get o "k" with
            | JStr k =>
                Ok ("{" +:+ member "kty" (toString kty) +:+ "," +:+ member "k" k +:+ "}")
            | _ => Throw "wrong k value for oct(symmetric) key"
            end) ;;;
    (* 2. get thumb print *)
    let hJWK := rstrtohex S s in
    hash <- hashHex S hJWK "sha256" ;;;
    hextob64u S hash.

(** *** [getIntDate] *)

(** [s.match(/Z$/)] *)
Definition ends_with_Z (s : string) : bool :=
  match last (list_ascii_of_string s) with
  | Some c => Ascii.eqb c "Z"
  | None => false
  end.

Definition is_digit (c : ascii) : bool :=
  (48 <=? nat_of_ascii c)%nat && (nat_of_ascii c <=? 57)%nat.

(** [s.match(/^[0-9]+$/)] *)
Definition all_digits (s : string) : bool :=
  negb (String.eqb s EmptyString) && forallb is_digit (list_ascii_of_string s).

(** [parseInt(s, 10)] on a string of decimal digits: the double nearest
    to the integer the digits denote.  (For more than 20 significant
    digits ECMAScript lets an implementation read the digits after the
    20th as zeros; this is the reading that keeps them.) *)
Definition parseInt10 (s : string) : Z :=
  match NilZero.uint_of_string s with
  | Some d => to_double (Z.of_uint d)
  | None => 0
  end.

(** [getIntDate(s)], with [getNow()] reading [clock]. *)
Definition getIntDate (clock : Z) (s : string) : Res Z :=
  if String.eqb s "now" then Ok clock
  else if String.eqb s "now + 1hour" then Ok (num_add clock (60 * 60))
  else if String.eqb s "now + 1day" then Ok (num_add clock (60 * 60 * 24))
  else if String.eqb s "now + 1month" then Ok (num_add clock (60 * 60 * 24 * 30))
  else if String.eqb s "now + 1year" then Ok (num_add clock (60 * 60 * 24 * 365))
  else if ends_with_Z s then zulutosec S s
  else if all_digits s then Ok (parseInt10 s)
  else Throw ("unsupported format: " +:+ s).

End WithEngines.

Arguments headB64U {S} p.
Arguments payloadB64U {S} p.
Arguments sigvalB64U {S} p.
Arguments si {S} p.
Arguments sigvalH {S} p.
Arguments sigvalBI {S} p.
Arguments headS {S} p.
Arguments payloadS {S} p.
Arguments headP {S} p.

End JWSSign.

(** ** Further examples *)

Module Sample2.
Import JSStr JS.

(** The JWS engine of [Sample], reading some more texts. *)
Definition json_texts : list (string * JSValue) :=
  Sample.json_texts ++
  [ ("{nbf:900,exp:1000,iat:950}",
       JObj (<[ "nbf" := JNum 900 ]> (<[ "exp" := JNum 1000 ]> {[ "iat" := JNum 950 ]})));
    ("{iss:mallory}", JObj {[ "iss" := JStr "mallory" ]});
    ("{aud:[]}", JObj {[ "aud" := JArr [] ]});
    ("{nbf:0,exp:9007199254740994,iat:0}",
       JObj (<[ "nbf" := JNum 0 ]>
               (<[ "exp" := JNum 9007199254740994 ]> {[ "iat" := JNum 0 ]}))) ].

Definition engine : JWS.Engine := {|
  JWS.b64utohex := Sample.decode;
  JWS.b64utoutf8 := Sample.decode;
  JWS.JSON_parse := fun s => Sample.json_lookup s json_texts;
  JWS.StringToNumber := fun _ => None;
  JWS.getKey := fun _ => Throw "not a PEM key";
  JWS.Mac_doFinal := fun _ _ _ => Ok "6d6163";
  JWS.concatSigToASN1Sig := fun h => Ok h;
  JWS.Signature_verify := fun _ _ _ hSig => Ok (String.eqb hSig "736967")
|}.

(** The encoders of this engine are the identity on strings without
    ['.'] and refuse the others; [JSON.stringify] prints the header
    objects used below. *)
Definition encode (s : string) : Res string :=
  if occurs "."%char s then Throw "no encoding in this example" else Ok s.

Definition sign_engine : JWSSign.SignEngine := {|
  JWSSign.utf8tob64u := encode;
  JWSSign.hextob64u := encode;
  JWSSign.JSON_stringify := fun d =>
    match get d "alg" with
    | JStr a => "{alg:" +:+ a +:+ "}"
    | _ => "{}"
    end;
  JWSSign.JSON_stringify_indented := fun o =>
    match o with
    | Some d => match get d "alg" with
                | JStr a => "{ alg: " +:+ a +:+ " }"
                | _ => "{ }"
                end
    | None => "null"
    end;
  JWSSign.Mac_doFinal_prov := fun _ _ _ _ => Ok "6d6163";
  JWSSign.Signature_sign := fun _ _ _ _ => Ok "736967";
  JWSSign.asn1SigToConcatSig := fun h => Ok h;
  JWSSign.BigInteger := string;
  JWSSign.parseBigInt := fun h => Ok h;
  JWSSign.zulutosec := fun _ => Throw "not a time";
  JWSSign.rstrtohex := fun s => s;
  JWSSign.hashHex := fun h _ => Ok h
|}.

End Sample2.

(** * Properties *)

(** ** Strings: [append], [split] and [join] *)

Module JSStrFacts.
Import JSStr.

Lemma append_String x a s : String x a +:+ s = String x (a +:+ s).
Proof. reflexivity. Qed.

Lemma append_Empty s : EmptyString +:+ s = s.
Proof. reflexivity. Qed.

Lemma append_assoc (a b c : string) : (a +:+ b) +:+ c = a +:+ b +:+ c.
Proof.
  induction a as [|x a IH]; [reflexivity|].
  rewrite !append_String. now rewrite IH.
Qed.

Lemma append_nil_r (a : string) : a +:+ EmptyString = a.
Proof.
  induction a as [|x a IH]; [reflexivity|].
  rewrite append_String. now rewrite IH.
Qed.

Lemma split_nonempty sep s : split sep s <> [].
Proof.
  destruct s as [|c s]; simpl; [discriminate|].
  destruct (Ascii.eqb c sep); [discriminate|].
  destruct (split sep s); discriminate.
Qed.

Lemma join_cons sep x y t :
  join sep (x :: y :: t) = x +:+ sep +:+ join sep (y :: t).
Proof. reflexivity. Qed.

Lemma join_String sep c h t :
  join sep (String c h :: t) = String c (join sep (h :: t)).
Proof. destruct t; reflexivity. Qed.

Lemma join_split sep s : join (String sep EmptyString) (split sep s) = s.
Proof.
  induction s as [|c s IH]; simpl; [reflexivity|].
  pose proof (split_nonempty sep s) as Hn.
  destruct (Ascii.eqb_spec c sep) as [->|Hne].
  - destruct (split sep s) as [|y t]; [congruence|].
    rewrite join_cons, IH. reflexivity.
  - destruct (split sep s) as [|h t]; [congruence|].
    now rewrite join_String, IH.
Qed.

Lemma split_absent sep s : occurs sep s = false -> split sep s = [s].
Proof.
  induction s as [|c s IH]; simpl; [reflexivity|].
  intros H. apply orb_false_iff in H as [Hc Hs].
  rewrite Hc, (IH Hs). reflexivity.
Qed.

Lemma split_app_sep sep x rest :
  occurs sep x = false ->
  split sep (x +:+ String sep rest) = x :: split sep rest.
Proof.
  induction x as [|c x IH]; simpl.
  - intros _. now rewrite Ascii.eqb_refl.
  - intros H. apply orb_false_iff in H as [Hc Hx].
    rewrite Hc. fold (String.append x (String sep rest)).
    now rewrite (IH Hx).
Qed.

Lemma split_join sep l :
  l <> [] -> Forall (fun x => occurs sep x = false) l ->
  split sep (join (String sep EmptyString) l) = l.
Proof.
  intros Hne Hall. induction Hall as [|x t Hx Ht IH]; [congruence|].
  destruct t as [|y t].
  - simpl. now apply split_absent.
  - rewrite join_cons.
    change (split sep (x +:+ String sep (join (String sep EmptyString) (y :: t)))
            = x :: y :: t).
    rewrite split_app_sep by assumption.
    f_equal. apply IH. discriminate.
Qed.

(** No piece of a split holds the separator, and a code unit absent from
    the string is absent from every piece. *)
Lemma split_pieces_absent c sep s :
  (c = sep \/ occurs c s = false) ->
  Forall (fun x => occurs c x = false) (split sep s).
Proof.
  induction s as [|a s IH]; simpl; intros H.
  - constructor; [reflexivity|constructor].
  - destruct (Ascii.eqb_spec a sep) as [->|Hne].
    + constructor; [reflexivity|]. apply IH.
      destruct H as [H|H]; [now left|].
      apply orb_false_iff in H as [_ H]. now right.
    + assert (Hac : Ascii.eqb a c = false).
      { destruct H as [->|H]; [now apply Ascii.eqb_neq|].
        now apply orb_false_iff in H as [H _]. }
      assert (IH' : Forall (fun x => occurs c x = false) (split sep s)).
      { apply IH. destruct H as [H|H]; [now left|].
        apply orb_false_iff in H as [_ H]. now right. }
      destruct (split sep s) as [|h t]; simpl.
      * constructor; [simpl; now rewrite Hac|constructor].
      * inversion IH' as [|? ? Hh Ht]; subst.
        constructor; [simpl; now rewrite Hac|assumption].
Qed.

Lemma replace_first_absent c r s :
  occurs c s = false -> replace_first c r s = s.
Proof.
  induction s as [|a s IH]; simpl; [reflexivity|].
  intros H. apply orb_false_iff in H as [Ha Hs].
  now rewrite Ha, (IH Hs).
Qed.

Lemma map_replace_first_absent c r l :
  Forall (fun x => occurs c x = false) l ->
  map (fun s => replace_first c r s) l = l.
Proof.
  induction 1 as [|x t Hx Ht IH]; simpl; [reflexivity|].
  now rewrite replace_first_absent, IH.
Qed.

End JSStrFacts.

(** ** Round trip of the distinguished-name converters *)

Module X500NameFacts.
Import JSStr X500Name JSStrFacts.

Example onelineToLDAP_doc1 : onelineToLDAP "/C=US/O=test" = Ok "O=test,C=US".
Proof. reflexivity. Qed.

Example onelineToLDAP_doc2 : onelineToLDAP "/C=US/O=a,a" = Ok "O=a\,a,C=US".
Proof. reflexivity. Qed.

Example ldapToOneline_doc1 : ldapToOneline "O=test,C=US" = "/C=US/O=test".
Proof. reflexivity. Qed.

Example ldapToOneline_doc2 : ldapToOneline "O=a\,a,C=US" = "/C=US/O=a,a".
Proof. reflexivity. Qed.

Example ldapToOneline_doc3 : ldapToOneline "O=a/a,C=US" = "/C=US/O=a\/a".
Proof. reflexivity. Qed.

(** *** Components with one comma, and the loop of [ldapToOneline] *)

Lemma count_zero_absent c s : count c s = O -> occurs c s = false.
Proof.
  induction s as [|a s IH]; [reflexivity|].
  cbn [count occurs]. destruct (Ascii.eqb a c); [discriminate|]. exact IH.
Qed.

Lemma count_one_inv c s :
  count c s = 1%nat ->
  exists u v, s = u +:+ String c v /\ occurs c u = false /\ occurs c v = false.
Proof.
  induction s as [|a s IH]; [discriminate|].
  cbn [count]. destruct (Ascii.eqb_spec a c) as [->|Hne]; intros H.
  - exists EmptyString, s. injection H as H. repeat split.
    now apply count_zero_absent.
  - destruct (IH H) as (u & v & -> & Hu & Hv).
    exists (String a u), v. repeat split; [|assumption].
    cbn [occurs]. apply Ascii.eqb_neq in Hne. now rewrite Hne.
Qed.

Lemma replace_first_at c r u v :
  occurs c u = false ->
  replace_first c r (u +:+ String c v) = u +:+ r +:+ v.
Proof.
  induction u as [|a u IH]; rewrite ?append_String, ?append_Empty;
    cbn [occurs replace_first]; intros H.
  - now rewrite Ascii.eqb_refl.
  - apply orb_false_iff in H as [Ha Hu]. now rewrite Ha, (IH Hu).
Qed.

Lemma replace_all_escaped_eq c a b s :
  replace_all_escaped c (String a (String b s)) =
  if Ascii.eqb a "\"%char && Ascii.eqb b c
  then String c (replace_all_escaped c s)
  else String a (replace_all_escaped c (String b s)).
Proof. reflexivity. Qed.

Lemma replace_all_escaped_absent c v :
  occurs c v = false -> replace_all_escaped c v = v.
Proof.
  induction v as [|a v IH]; [reflexivity|].
  cbn [occurs]. intros H. apply orb_false_iff in H as [Ha Hv].
  destruct v as [|b v]; [reflexivity|].
  rewrite replace_all_escaped_eq.
  assert (Hb : Ascii.eqb b c = false).
  { cbn [occurs] in Hv. now apply orb_false_iff in Hv as [Hb _]. }
  rewrite Hb, andb_false_r. now rewrite (IH Hv).
Qed.

Lemma replace_all_escaped_at u v :
  occurs ","%char u = false -> occurs ","%char v = false ->
  replace_all_escaped ","%char (u +:+ String "\"%char (String ","%char v))
  = u +:+ String ","%char v.
Proof.
  intros Hu Hv. induction u as [|a u IH]; rewrite ?append_String, ?append_Empty.
  - rewrite replace_all_escaped_eq, !Ascii.eqb_refl. cbn [andb].
    now rewrite replace_all_escaped_absent.
  - cbn [occurs] in Hu. apply orb_false_iff in Hu as [Ha Hu].
    destruct u as [|b u]; rewrite ?append_String, ?append_Empty in *.
    + rewrite replace_all_escaped_eq.
      replace (Ascii.eqb "\"%char ","%char) with false by reflexivity.
      rewrite andb_false_r. now rewrite (IH Hu).
    + rewrite replace_all_escaped_eq.
      assert (Hb : Ascii.eqb b ","%char = false).
      { cbn [occurs] in Hu. now apply orb_false_iff in Hu as [Hb _]. }
      rewrite Hb, andb_false_r. now rewrite (IH Hu).
Qed.

Lemma ends_with_backslash_String a b s :
  ends_with_backslash (String a (String b s)) = ends_with_backslash (String b s).
Proof. reflexivity. Qed.

Lemma ends_with_backslash_snoc u :
  ends_with_backslash (u +:+ "\") = true.
Proof.
  induction u as [|a u IH]; [reflexivity|].
  rewrite append_String. destruct u as [|b u]; [reflexivity|].
  rewrite append_String in *. now rewrite ends_with_backslash_String.
Qed.

Lemma ends_with_backslash_after_comma u v :
  ends_with_backslash (u +:+ String ","%char v) = ends_with_backslash v.
Proof.
  induction u as [|a u IH]; rewrite ?append_String, ?append_Empty.
  - destruct v; reflexivity.
  - destruct u as [|b u]; rewrite ?append_String, ?append_Empty in *;
      now rewrite ends_with_backslash_String.
Qed.

Lemma pop_snoc acc x : pop (acc ++ [x]) = (Some x, acc).
Proof. unfold pop. now rewrite last_snoc, removelast_last. Qed.

Lemma join_app sep P Q :
  P <> [] -> Q <> [] -> join sep (P ++ Q) = join sep P +:+ sep +:+ join sep Q.
Proof.
  intros HP HQ. induction P as [|x P IH]; [congruence|].
  destruct P as [|y P].
  - destruct Q as [|z Q]; [congruence|]. reflexivity.
  - change (join sep ((x :: y :: P) ++ Q))
      with (x +:+ sep +:+ join sep ((y :: P) ++ Q)).
    rewrite IH by discriminate. rewrite join_cons.
    rewrite <- !append_assoc. reflexivity.
Qed.

(** What the two converters do to one component with at most one comma:
    [onelineToLDAP] writes it as pieces without comma, joined by commas,
    and the loop of [ldapToOneline] puts the pieces together again. *)
Lemma component_pieces seg :
  (count ","%char seg <= 1)%nat ->
  exists P, P <> [] /\ Forall (fun x => occurs ","%char x = false) P /\
            replace_first ","%char "\," seg = join "," P /\
            forall acc, fold_left ldap_step P (false, acc)
                        = (ends_with_backslash seg, acc ++ [seg]).
Proof.
  intros H. destruct (count ","%char seg) as [|[|n]] eqn:Hc; [| |lia].
  - apply count_zero_absent in Hc. exists [seg]. repeat split.
    + discriminate.
    + now constructor.
    + now rewrite replace_first_absent.
    + intros acc. cbn [fold_left ldap_step]. now destruct (ends_with_backslash seg).
  - destruct (count_one_inv _ _ Hc) as (u & v & -> & Hu & Hv).
    exists [u +:+ "\"; v]. repeat split.
    + discriminate.
    + constructor; [|now constructor].
      clear -Hu. induction u as [|a u IH]; [reflexivity|].
      rewrite append_String. cbn [occurs] in *.
      apply orb_false_iff in Hu as [Ha Hu]. now rewrite Ha, IH.
    + rewrite replace_first_at by assumption. rewrite join_cons.
      change (join "," [v]) with v. now rewrite append_assoc.
    + intros acc. cbn [fold_left]. unfold ldap_step at 2.
      rewrite ends_with_backslash_snoc. unfold ldap_step.
      rewrite pop_snoc. cbn [str_of].
      rewrite append_assoc.
      change ("\" +:+ "," +:+ v) with (String "\"%char (String ","%char v)).
      rewrite replace_all_escaped_at by assumption.
      rewrite ends_with_backslash_after_comma.
      now destruct (ends_with_backslash v).
Qed.

(** The same for the components of a name, in the order of the LDAP
    form. *)
Lemma components_pieces r :
  r <> [] ->
  Forall (fun seg => (count ","%char seg <= 1)%nat) r ->
  Forall (fun seg => ends_with_backslash seg = false) (removelast r) ->
  exists Q, Q <> [] /\ Forall (fun x => occurs ","%char x = false) Q /\
            join "," (map (fun s => replace_first ","%char "\," s) r) = join "," Q /\
            forall acc, snd (fold_left ldap_step Q (false, acc)) = acc ++ r.
Proof.
  intros Hne Hc. induction Hc as [|seg t Hseg Ht IH]; [congruence|]. intros Hbs.
  destruct (component_pieces seg Hseg) as (P & HP & HPc & HPj & HPf).
  destruct t as [|y t].
  - exists P. repeat split; try assumption.
    intros acc. now rewrite HPf.
  - change (removelast (seg :: y :: t)) with (seg :: removelast (y :: t)) in Hbs.
    inversion Hbs as [|? ? Hb Hbs']; subst.
    destruct (IH ltac:(discriminate) Hbs') as (Q & HQ & HQc & HQj & HQf).
    exists (P ++ Q). repeat split.
    + destruct P; [congruence|discriminate].
    + now apply Forall_app.
    + change (map ?f (seg :: y :: t)) with (f seg :: map f (y :: t)).
      cbn beta. destruct (map _ (y :: t)) as [|m ms] eqn:Hm; [discriminate|].
      rewrite join_cons, HPj, HQj. now rewrite join_app.
    + intros acc. rewrite fold_left_app, HPf, Hb, HQf, <- app_assoc. reflexivity.
Qed.

Lemma ldapToOneline_snd s :
  ldapToOneline s =
  "/" +:+ join "/" (rev (map (fun s => replace_first "/"%char "\/" s)
                             (snd (fold_left ldap_step (split ","%char s) (false, []))))).
Proof.
  unfold ldapToOneline.
  now destruct (fold_left ldap_step (split ","%char s) (false, [])).
Qed.

(** C7, as the specification states it, fails: in ["/A=x/B=y\/C=z"] no
    attribute value holds a ['+'], a [','] or an unescaped ['/'], and the
    round trip returns another name.  The component [B=y\] ends with a
    backslash, which [ldapToOneline] reads as the escape of the comma that
    [onelineToLDAP] has put after it. *)
Lemma roundtrip_escaped_slash_counterexample :
  plain_dn "/A=x/B=y\/C=z" = true /\
  onelineToLDAP "/A=x/B=y\/C=z" = Ok "C=z,B=y\,A=x" /\
  ldapToOneline "C=z,B=y\,A=x" = "/B=y,A=x/C=z" /\
  roundtrip "/A=x/B=y\/C=z" <> Ok "/A=x/B=y\/C=z".
Proof. repeat split; try reflexivity. discriminate. Qed.

(** C7, amended: a oneline name that starts with ['/'], in which every
    component holds at most one [','] and no component but the first ends
    with a backslash, is returned unchanged by [ldapToOneline] after
    [onelineToLDAP]. *)
Theorem roundtrip_components (dn s1 : string) :
  dn = String "/"%char s1 ->
  Forall (fun seg => (count ","%char seg <= 1)%nat) (split "/"%char s1) ->
  Forall (fun seg => ends_with_backslash seg = false) (tail (split "/"%char s1)) ->
  roundtrip dn = Ok dn.
Proof.
  intros -> Hcomma Hbs. unfold roundtrip, onelineToLDAP. simpl bindR.
  pose proof (split_nonempty "/"%char s1) as Hsegs.
  pose proof (split_pieces_absent "/"%char "/"%char s1 (or_introl eq_refl)) as Hslash.
  pose proof (join_split "/"%char s1) as Hjoin.
  destruct (split "/"%char s1) as [|f rest]; [congruence|]. clear Hsegs.
  destruct (components_pieces (rev (f :: rest))) as (Q & HQ & HQc & HQj & HQf).
  - cbn [rev]. now destruct (rev rest).
  - now apply Forall_rev.
  - cbn [rev]. rewrite removelast_last. now apply Forall_rev.
  - rewrite HQj, ldapToOneline_snd, split_join by assumption.
    rewrite (HQf []). cbn [app].
    rewrite map_replace_first_absent by now apply Forall_rev.
    rewrite rev_involutive. f_equal. change ("/" +:+ join "/" (f :: rest))
      with (String "/"%char (join "/" (f :: rest))). now rewrite Hjoin.
Qed.

(** The amended round trip at names of the documentation: without comma,
    and with one comma in a value. *)
Lemma roundtrip_components_witness :
  roundtrip "/C=US/O=aaa/OU=bbb/CN=foo@example.com"
  = Ok "/C=US/O=aaa/OU=bbb/CN=foo@example.com" /\
  roundtrip "/C=US/O=a,a" = Ok "/C=US/O=a,a".
Proof.
  split.
  - apply (roundtrip_components _ "C=US/O=aaa/OU=bbb/CN=foo@example.com").
    + reflexivity.
    + vm_compute split.
      repeat (apply List.Forall_cons; [vm_compute; repeat constructor|]).
      apply List.Forall_nil.
    + vm_compute split. cbn [tail].
      repeat (apply List.Forall_cons; [reflexivity|]). apply List.Forall_nil.
  - apply (roundtrip_components _ "C=US/O=a,a").
    + reflexivity.
    + vm_compute split.
      repeat (apply List.Forall_cons; [vm_compute; repeat constructor|]).
      apply List.Forall_nil.
    + vm_compute split. cbn [tail].
      repeat (apply List.Forall_cons; [reflexivity|]). apply List.Forall_nil.
Defined.

(** Beside C7: two commas in a component, escaped or not, are not
    restored. *)
Remark roundtrip_two_commas :
  roundtrip "/O=a,b,c" = Ok "/c/O=a,b" /\
  roundtrip "/O=a\,b\,c" = Ok "/O=a,b,c".
Proof. split; reflexivity. Qed.

End X500NameFacts.

(** ** [verify] and [verifyJWT] *)

(** ** Rounding to a double *)

Module JSNumFacts.
Import JS.

Lemma round_at_cases e x :
  0 <= e -> 0 <= x ->
  let P := 2 ^ e in
  (round_at e x = x / P * P \/ round_at e x = (x / P + 1) * P) /\
  (x mod P = 0 -> round_at e x = x).
Proof.
  intros He Hx P. unfold round_at. fold P.
  assert (HP : 0 < P) by (apply Z.pow_pos_nonneg; lia).
  pose proof (Z.div_mod x P ltac:(lia)) as Hdm.
  pose proof (Z.mod_pos_bound x P HP) as Hr.
  split.
  - destruct (2 * (x mod P) <? P); [now left|].
    destruct (P <? 2 * (x mod P)); [now right|].
    destruct (Z.even (x / P)); [now left|now right].
  - intros H0. rewrite H0. destruct (Z.ltb_spec (2 * 0) P); lia.
Qed.

Lemma round_at_mono e x y :
  0 <= e -> 0 <= x -> x <= y -> round_at e x <= round_at e y.
Proof.
  intros He Hx Hxy. unfold round_at.
  set (P := 2 ^ e).
  assert (HP : 0 < P) by (apply Z.pow_pos_nonneg; lia).
  pose proof (Z.div_mod x P ltac:(lia)) as Hdx.
  pose proof (Z.div_mod y P ltac:(lia)) as Hdy.
  pose proof (Z.mod_pos_bound x P HP) as Hrx.
  pose proof (Z.mod_pos_bound y P HP) as Hry.
  pose proof (Z.div_le_mono x y P HP Hxy) as Hq.
  set (qx := x / P) in *. set (qy := y / P) in *.
  set (rx := x mod P) in *. set (ry := y mod P) in *.
  destruct (Z.eq_dec qx qy) as [Heq|Hne].
  - rewrite <- Heq in *. assert (rx <= ry) by lia.
    destruct (Z.ltb_spec (2 * rx) P), (Z.ltb_spec (2 * ry) P),
      (Z.ltb_spec P (2 * rx)), (Z.ltb_spec P (2 * ry)), (Z.even qx); nia.
  - assert (qx + 1 <= qy) by lia.
    assert ((qx + 1) * P <= qy * P) by nia.
    destruct (Z.ltb_spec (2 * rx) P), (Z.ltb_spec (2 * ry) P),
      (Z.ltb_spec P (2 * rx)), (Z.ltb_spec P (2 * ry)), (Z.even qx), (Z.even qy); nia.
Qed.

Lemma to_double_nonneg_eq a :
  0 <= a -> to_double a = round_at (Z.max 0 (Z.log2 a - 52)) a.
Proof.
  intros Ha. unfold to_double. rewrite Z.abs_eq by assumption.
  destruct (Z.eq_dec a 0) as [->|Hne]; [reflexivity|].
  rewrite Z.sgn_pos by lia. lia.
Qed.

Lemma to_double_opp x : to_double (- x) = - to_double x.
Proof. unfold to_double. rewrite Z.abs_opp, Z.sgn_opp. ring. Qed.

Lemma to_double_small a : 0 <= a < 2 ^ 53 -> to_double a = a.
Proof.
  intros [Ha Hlt]. rewrite to_double_nonneg_eq by assumption.
  assert (He : Z.max 0 (Z.log2 a - 52) = 0).
  { destruct (Z.eq_dec a 0) as [->|Hne]; [reflexivity|].
    assert (Z.log2 a < 53) by (apply Z.log2_lt_pow2; lia). lia. }
  rewrite He. apply (round_at_cases 0 a); try lia.
  change (2 ^ 0) with 1. apply Z.mod_1_r.
Qed.

(** For [a] of 2^53 or more the result lies in the binade of [a]. *)
Lemma to_double_large a :
  2 ^ 53 <= a ->
  let e := Z.log2 a - 52 in
  1 <= e /\ 2 ^ (e + 52) <= to_double a <= 2 ^ (e + 53) /\ 2 ^ (e + 52) <= a < 2 ^ (e + 53).
Proof.
  intros Ha e.
  assert (H53 : 0 < 2 ^ 53) by reflexivity.
  assert (Hlog : 53 <= Z.log2 a).
  { apply Z.log2_le_pow2; lia. }
  assert (He : 1 <= e) by (unfold e; lia).
  pose proof (Z.log2_spec a ltac:(lia)) as [Hlo Hhi].
  replace (Z.log2 a) with (e + 52) in Hlo by (unfold e; lia).
  replace (Z.succ (Z.log2 a)) with (e + 53) in Hhi by (unfold e; lia).
  split; [assumption|]. split; [|split; assumption].
  rewrite to_double_nonneg_eq by lia. fold e. rewrite Z.max_r by lia.
  rewrite !Z.pow_add_r in * by lia.
  set (P := 2 ^ e) in *.
  assert (HP : 0 < P) by (apply Z.pow_pos_nonneg; lia).
  pose proof (round_at_cases e a ltac:(lia) ltac:(lia)) as [Hc _]. fold P in Hc.
  pose proof (Z.div_mod a P ltac:(lia)) as Hdm.
  pose proof (Z.mod_pos_bound a P HP) as Hr.
  assert (Hq1 : 2 ^ 52 <= a / P).
  { apply Z.div_le_lower_bound; lia. }
  assert (Hq2 : a / P < 2 ^ 53).
  { apply Z.div_lt_upper_bound; lia. }
  destruct Hc as [-> | ->]; nia.
Qed.

(** Up to 2^53 every integer is a double. *)
Lemma to_double_exact x : Z.abs x <= 2 ^ 53 -> to_double x = x.
Proof.
  assert (Hpos : forall a, 0 <= a <= 2 ^ 53 -> to_double a = a).
  { intros a [H0 H1]. destruct (Z.eq_dec a (2 ^ 53)) as [->|Hne]; [reflexivity|].
    apply to_double_small. lia. }
  intros H. destruct (Z.le_ge_cases 0 x) as [Hx|Hx].
  - apply Hpos. lia.
  - rewrite <- (Z.opp_involutive x) at 1. rewrite to_double_opp, Hpos; lia.
Qed.

Lemma to_double_sign a : 0 <= a -> 0 <= to_double a.
Proof.
  intros Ha. destruct (Z.lt_ge_cases a (2 ^ 53)) as [Hs|Hl].
  - rewrite to_double_small; lia.
  - pose proof (to_double_large a Hl) as (He & [Hlo _] & _).
    assert (0 < 2 ^ (Z.log2 a - 52 + 52)) by (apply Z.pow_pos_nonneg; lia). lia.
Qed.

Lemma to_double_mono_nonneg x y : 0 <= x -> x <= y -> to_double x <= to_double y.
Proof.
  intros Hx Hxy.
  destruct (Z.lt_ge_cases y (2 ^ 53)) as [Hy|Hy].
  - rewrite !to_double_small; lia.
  - pose proof (to_double_large y Hy) as (Hey & [Hylo Hyhi] & Hyr).
    destruct (Z.lt_ge_cases x (2 ^ 53)) as [Hxs|Hxl].
    + rewrite (to_double_small x) by lia.
      assert (2 ^ 53 <= 2 ^ (Z.log2 y - 52 + 52)) by (apply Z.pow_le_mono_r; lia). lia.
    + pose proof (to_double_large x Hxl) as (Hex & [Hxlo Hxhi] & Hxr).
      assert (Hlog : Z.log2 x <= Z.log2 y) by (apply Z.log2_le_mono; lia).
      destruct (Z.eq_dec (Z.log2 x) (Z.log2 y)) as [Heq|Hne].
      * rewrite !to_double_nonneg_eq by lia. rewrite Heq.
        apply round_at_mono; lia.
      * assert (2 ^ (Z.log2 x - 52 + 53) <= 2 ^ (Z.log2 y - 52 + 52))
          by (apply Z.pow_le_mono_r; lia).
        lia.
Qed.

(** Rounding keeps the order. *)
Lemma to_double_mono x y : x <= y -> to_double x <= to_double y.
Proof.
  intros Hxy. destruct (Z.le_ge_cases 0 x) as [Hx|Hx].
  - now apply to_double_mono_nonneg.
  - destruct (Z.le_ge_cases 0 y) as [Hy|Hy].
    + pose proof (to_double_sign y Hy) as Hpos.
      pose proof (to_double_sign (- x) ltac:(lia)) as Hneg.
      rewrite to_double_opp in Hneg. lia.
    + pose proof (to_double_mono_nonneg (- y) (- x) ltac:(lia) ltac:(lia)) as H.
      rewrite !to_double_opp in H. lia.
Qed.

(** The rounding of a double is that double, and a rounded integer is at
    most half a unit of its last place away. *)
Lemma to_double_idempotent x : to_double (to_double x) = to_double x.
Proof.
  assert (Hpos : forall a, 0 <= a -> to_double (to_double a) = to_double a).
  { intros a Ha. destruct (Z.lt_ge_cases a (2 ^ 53)) as [Hs|Hl].
    - now rewrite !(to_double_small a) by lia.
    - pose proof (to_double_large a Hl) as (He & _ & Hlo & Hhi).
      set (e := Z.log2 a - 52) in *.
      assert (Heq : to_double a = round_at e a).
      { rewrite to_double_nonneg_eq by lia. fold e. now rewrite Z.max_r by lia. }
      rewrite !Z.pow_add_r in Hlo, Hhi by lia.
      set (P := 2 ^ e) in *.
      assert (HP : 0 < P) by (apply Z.pow_pos_nonneg; lia).
      pose proof (round_at_cases e a ltac:(lia) ltac:(lia)) as [Hc _]. fold P in Hc.
      assert (Hq1 : 2 ^ 52 <= a / P) by (apply Z.div_le_lower_bound; lia).
      assert (Hq2 : a / P < 2 ^ 53) by (apply Z.div_lt_upper_bound; lia).
      assert (Hm : exists m, to_double a = m * P /\ 2 ^ 52 <= m <= 2 ^ 53).
      { rewrite Heq. destruct Hc as [-> | ->]; eexists; (split; [reflexivity|lia]). }
      destruct Hm as (m & Hm & Hm1 & Hm2). rewrite Hm.
      assert (Hlog : Z.log2 (m * P) = e + Z.log2 m).
      { unfold P. apply Z.log2_mul_pow2; lia. }
      rewrite to_double_nonneg_eq by nia. rewrite Hlog.
      destruct (Z.eq_dec m (2 ^ 53)) as [->|Hne].
      + change (Z.log2 (2 ^ 53)) with 53. rewrite Z.max_r by lia.
        apply (round_at_cases (e + 53 - 52) (2 ^ 53 * P)); try nia.
        replace (e + 53 - 52) with (e + 1) by lia. rewrite Z.pow_add_r by lia. fold P.
        change (2 ^ 1) with 2.
        replace (2 ^ 53 * P) with (2 ^ 52 * (P * 2))
          by (change (2 ^ 53) with (2 ^ 52 * 2); ring).
        apply Z.mod_mul. lia.
      + assert (Hl2 : Z.log2 m = 52).
        { apply Z.log2_unique; [lia|]. change (2 ^ Z.succ 52) with (2 ^ 53). lia. }
        rewrite Hl2. replace (e + 52 - 52) with e by lia. rewrite Z.max_r by lia.
        apply (round_at_cases e (m * P)); try nia. fold P. apply Z.mod_mul. lia. }
  destruct (Z.le_ge_cases 0 x) as [Hx|Hx]; [now apply Hpos|].
  replace x with (- - x) by lia. generalize (- x) (Hpos (- x) ltac:(lia)).
  intros y Hy. now rewrite !to_double_opp, Hy.
Qed.


Lemma round_at_near e x :
  0 <= e -> 0 <= x -> 2 * Z.abs (round_at e x - x) <= 2 ^ e.
Proof.
  intros He Hx. unfold round_at. set (P := 2 ^ e).
  assert (HP : 0 < P) by (apply Z.pow_pos_nonneg; lia).
  pose proof (Z.div_mod x P ltac:(lia)) as Hdm.
  pose proof (Z.mod_pos_bound x P HP) as Hr.
  destruct (Z.ltb_spec (2 * (x mod P)) P), (Z.ltb_spec P (2 * (x mod P))),
    (Z.even (x / P)); nia.
Qed.

Lemma to_double_near x :
  2 * Z.abs (to_double x - x) <= 2 ^ Z.max 0 (Z.log2 (Z.abs x) - 52).
Proof.
  destruct (Z.le_ge_cases 0 x) as [Hx|Hx].
  - rewrite to_double_nonneg_eq by assumption. rewrite (Z.abs_eq x) by assumption.
    apply round_at_near; lia.
  - replace (to_double x - x) with (- (to_double (- x) - - x))
      by (rewrite to_double_opp; ring).
    rewrite Z.abs_opp, <- (Z.abs_opp x), to_double_nonneg_eq by lia.
    rewrite (Z.abs_eq (- x)) by lia. apply round_at_near; lia.
Qed.

(** Rounding commutes with a scaling by a power of two. *)
Lemma round_at_scale e x k :
  0 <= e -> 0 <= x -> 0 <= k -> round_at (e + k) (x * 2 ^ k) = round_at e x * 2 ^ k.
Proof.
  intros He Hx Hk. unfold round_at. rewrite Z.pow_add_r by lia.
  set (P := 2 ^ e). set (K := 2 ^ k).
  assert (HP : 0 < P) by (apply Z.pow_pos_nonneg; lia).
  assert (HK : 0 < K) by (apply Z.pow_pos_nonneg; lia).
  rewrite Z.div_mul_cancel_r by lia.
  rewrite Z.mul_mod_distr_r by lia.
  pose proof (Z.mod_pos_bound x P HP) as Hr.
  destruct (Z.ltb_spec (2 * (x mod P)) P), (Z.ltb_spec (2 * (x mod P * K)) (P * K)),
    (Z.ltb_spec P (2 * (x mod P))), (Z.ltb_spec (P * K) (2 * (x mod P * K)));
    try nia; destruct (Z.even (x / P)); ring.
Qed.

Lemma to_double_scale x k : 0 <= k -> to_double (x * 2 ^ k) = to_double x * 2 ^ k.
Proof.
  intros Hk.
  assert (HK : 0 < 2 ^ k) by (apply Z.pow_pos_nonneg; lia).
  assert (Hpos : forall a, 0 < a -> to_double (a * 2 ^ k) = to_double a * 2 ^ k).
  { intros a Ha.
    assert (Hlog : Z.log2 (a * 2 ^ k) = k + Z.log2 a) by (apply Z.log2_mul_pow2; lia).
    rewrite (to_double_nonneg_eq (a * 2 ^ k)) by nia. rewrite Hlog.
    destruct (Z.lt_ge_cases a (2 ^ 53)) as [Hs|Hl].
    - rewrite (to_double_small a) by lia.
      assert (Hl2 : Z.log2 a < 53) by (apply Z.log2_lt_pow2; lia).
      set (e := Z.max 0 (k + Z.log2 a - 52)).
      assert (He : 0 <= e <= k) by lia.
      apply (round_at_cases e (a * 2 ^ k)); try nia.
      replace k with (k - e + e) at 1 by lia. rewrite Z.pow_add_r by lia.
      rewrite Z.mul_assoc. apply Z.mod_mul.
      assert (0 < 2 ^ e) by (apply Z.pow_pos_nonneg; lia). lia.
    - assert (Hl2 : 53 <= Z.log2 a) by (apply Z.log2_le_pow2; lia).
      rewrite (to_double_nonneg_eq a) by lia.
      rewrite !Z.max_r by lia.
      replace (k + Z.log2 a - 52) with (Z.log2 a - 52 + k) by lia.
      apply round_at_scale; lia. }
  destruct (Z.lt_trichotomy x 0) as [Hx|[->|Hx]].
  - replace x with (- - x) by lia. generalize (- x) (Hpos (- x) ltac:(lia)).
    intros y Hy. rewrite Z.mul_opp_l, !to_double_opp, Hy. ring.
  - reflexivity.
  - now apply Hpos.
Qed.

Lemma is_double_eq x : is_double x = true -> to_double x = x.
Proof. unfold is_double. intros H. apply andb_true_iff in H as [H _]. now apply Z.eqb_eq. Qed.

Lemma num_add_exact a b : Z.abs (a + b) <= 2 ^ 53 -> num_add a b = a + b.
Proof. apply to_double_exact. Qed.


(** The comparisons of the time checks do not change when every number
    is multiplied by the same power of two: what they answer on integers
    they answer on the doubles [n / 2^k] too, rounding included, all
    doubles being multiples of 2^-1074. *)
Lemma num_add_ltb_scale a b c k :
  0 <= k ->
  (num_add (a * 2 ^ k) (b * 2 ^ k) <? c * 2 ^ k) = (num_add a b <? c).
Proof.
  intros Hk. unfold num_add. rewrite <- Z.mul_add_distr_r, to_double_scale by assumption.
  assert (HK : 0 < 2 ^ k) by (apply Z.pow_pos_nonneg; lia).
  destruct (Z.ltb_spec (to_double (a + b)) c),
    (Z.ltb_spec (to_double (a + b) * 2 ^ k) (c * 2 ^ k)); try reflexivity; nia.
Qed.

Lemma num_sub_gtb_scale a b c k :
  0 <= k ->
  (c * 2 ^ k <? num_sub (a * 2 ^ k) (b * 2 ^ k)) = (c <? num_sub a b).
Proof.
  intros Hk. unfold num_sub. rewrite <- Z.mul_sub_distr_r, to_double_scale by assumption.
  assert (HK : 0 < 2 ^ k) by (apply Z.pow_pos_nonneg; lia).
  destruct (Z.ltb_spec c (to_double (a - b))),
    (Z.ltb_spec (c * 2 ^ k) (to_double (a - b) * 2 ^ k)); try reflexivity; nia.
Qed.

(** Above 2^53 the sum is rounded: 2^53 + 2 plus 1 is 2^53 + 4, and the
    text of 2^53 + 1 is read as 2^53. *)
Remark num_add_rounds :
  num_add 9007199254740994 1 = 9007199254740996 /\
  to_double 9007199254740993 = 9007199254740992 /\
  is_double 9007199254740993 = false.
Proof. repeat split. Qed.

End JSNumFacts.

Module JWSFacts.
Import JSStr JS JWS JSStrFacts JSNumFacts.

Section WithEngine.
Context (E : Engine).

(** *** The accepted-algorithms check on names without [':'] *)

Lemma join_terminated_eq sep a :
  a <> [] -> join sep a +:+ sep = join_terminated sep a.
Proof.
  induction a as [|x t IH]; [congruence|]. intros _.
  destruct t as [|y t].
  - change (x +:+ sep = x +:+ sep +:+ EmptyString). now rewrite append_nil_r.
  - change (join sep (x :: y :: t)) with (x +:+ sep +:+ join sep (y :: t)).
    rewrite !append_assoc, IH by discriminate. reflexivity.
Qed.

Lemma prefix_colon_terminated a n rest :
  occurs ":"%char a = false -> occurs ":"%char n = false ->
  starts_with (a +:+ ":") (n +:+ String ":"%char rest) = true -> a = n.
Proof.
  revert n. induction a as [|x a IH]; intros [|y n];
    rewrite ?append_String, ?append_Empty; cbn [starts_with occurs]; intros Ha Hn H.
  - reflexivity.
  - apply orb_false_iff in Hn as [Hy _]. rewrite Ascii.eqb_sym, Hy in H. discriminate.
  - apply orb_false_iff in Ha as [Hx _]. rewrite Hx in H. discriminate.
  - apply orb_false_iff in Ha as [_ Ha]. apply orb_false_iff in Hn as [_ Hn].
    apply andb_true_iff in H as [Hxy H]. apply Ascii.eqb_eq in Hxy as ->.
    f_equal. now apply (IH n).
Qed.

Lemma includes_skip_colon_free q n r :
  occurs ":"%char n = false ->
  includes (String ":"%char q) (n +:+ r) = includes (String ":"%char q) r.
Proof.
  induction n as [|y n IH]; rewrite ?append_String, ?append_Empty;
    cbn [occurs]; intros Hn; [reflexivity|].
  apply orb_false_iff in Hn as [Hy Hn].
  change (includes (String ":"%char q) (String y (n +:+ r)))
    with (starts_with (String ":"%char q) (String y (n +:+ r))
          || includes (String ":"%char q) (n +:+ r)).
  cbn [starts_with]. rewrite Ascii.eqb_sym, Hy. cbn [andb orb].
  now apply IH.
Qed.

Lemma includes_join_terminated alg names :
  occurs ":"%char alg = false ->
  Forall (fun n => occurs ":"%char n = false) names ->
  includes (":" +:+ alg +:+ ":") (":" +:+ join_terminated ":" names) = true ->
  In alg names.
Proof.
  intros Halg Hall. induction Hall as [|n t Hn Ht IH]; intros H.
  - destruct alg; vm_compute in H; discriminate.
  - change (":" +:+ join_terminated ":" (n :: t))
      with (String ":"%char (n +:+ String ":"%char (join_terminated ":" t))) in H.
    change (":" +:+ alg +:+ ":") with (String ":"%char (alg +:+ ":")) in H.
    change (includes ?t (String ?c ?s)) with (starts_with t (String c s) || includes t s) in H.
    cbn [starts_with] in H. rewrite Ascii.eqb_refl in H. cbn [andb] in H.
    apply orb_true_iff in H as [H|H].
    + left. symmetry. exact (prefix_colon_terminated alg n _ Halg Hn H).
    + right. apply IH. rewrite includes_skip_colon_free in H by assumption.
      exact H.
Qed.

Lemma jwsalg2sigalg_Entry_colon_free alg sigAlg :
  jwsalg2sigalg alg = Entry sigAlg -> occurs ":"%char alg = false.
Proof.
  unfold jwsalg2sigalg. destruct (assoc alg jwsalg2sigalg_table) eqn:Ha;
    [intros _|destruct (existsb _ _); discriminate].
  cbn in Ha.
  repeat match type of Ha with
         | (if String.eqb alg ?k then _ else _) = _ =>
             destruct (String.eqb_spec alg k) as [->|_]; [reflexivity|]
         end.
  discriminate.
Qed.

Lemma map_join_elt_JStr names : map join_elt (map JStr names) = names.
Proof. induction names as [|n t IH]; [reflexivity|]. cbn. now rewrite IH. Qed.

Lemma raises_bindR {A B} (r : Res A) (k : A -> Res B) :
  (forall a, raises (k a)) -> raises (bindR r k).
Proof. intros H. destruct r as [a|m]; [apply H|now exists m]. Qed.

(** The check rejects an algorithm that is not among accepted names that
    hold no [':']; and what follows the check raises on an algorithm that
    holds one. *)
Lemma verify_with_alg_rejects_unlisted alg uSignatureInput hSig key names :
  names <> [] ->
  Forall (fun n => occurs ":"%char n = false) names ->
  ~ In alg names ->
  raises (verify_with_alg E alg uSignatureInput hSig key (JArr (map JStr names))).
Proof.
  intros Hne Hall Hnot. unfold verify_with_alg, check_acceptAlgs.
  destruct names as [|x l]; [congruence|].
  change (map JStr (x :: l)) with (JStr x :: map JStr l). cbn iota beta zeta.
  replace (map join_elt (JStr x :: map JStr l)) with (x :: l)
    by (symmetry; apply (map_join_elt_JStr (x :: l))).
  destruct (includes _ _) eqn:Hinc; [|eexists; reflexivity].
  cbn [bindR].
  destruct (jwsalg2sigalg alg) as [sigAlg| |] eqn:Htab.
  - exfalso. apply Hnot.
    apply includes_join_terminated;
      [now apply (jwsalg2sigalg_Entry_colon_free alg sigAlg)|assumption|].
    rewrite <- join_terminated_eq by discriminate. exact Hinc.
  - repeat (apply raises_bindR; intros ?). eexists; reflexivity.
  - repeat (apply raises_bindR; intros ?). eexists; reflexivity.
Qed.

(** C1 on names without [':']: [verify] raises on a three-segment token
    whose header algorithm is not in the list. *)
Lemma verify_rejects_unlisted_alg sJWS key names uHeader uPayload uSig sHeader pHeader alg :
  split "."%char sJWS = [uHeader; uPayload; uSig] ->
  b64utoutf8 E (Some uHeader) = Ok sHeader ->
  readSafeJSONString E sHeader = Some pHeader ->
  get pHeader "alg" = JStr alg ->
  names <> [] ->
  Forall (fun n => occurs ":"%char n = false) names ->
  ~ In alg names ->
  raises (verify E sJWS key (JArr (map JStr names))).
Proof.
  intros Hsplit Hhead Hread Halg Hne Hall Hnot. unfold verify. rewrite Hsplit.
  apply raises_bindR. intros hSig. rewrite Hhead. cbn [bindR]. rewrite Hread.
  cbn [prop bindR]. rewrite Halg.
  now apply verify_with_alg_rejects_unlisted.
Qed.

(** The instance of the specification: HS256 in the header, ["RS256"]
    accepted. *)
Lemma verify_rejects_HS256_for_RS256 sJWS key uHeader uPayload uSig sHeader pHeader :
  split "."%char sJWS = [uHeader; uPayload; uSig] ->
  b64utoutf8 E (Some uHeader) = Ok sHeader ->
  readSafeJSONString E sHeader = Some pHeader ->
  get pHeader "alg" = JStr "HS256" ->
  raises (verify E sJWS key (JArr [JStr "RS256"])).
Proof.
  intros Hsplit Hhead Hread Halg.
  apply (verify_rejects_unlisted_alg sJWS key ["RS256"] _ _ _ _ _ "HS256"
           Hsplit Hhead Hread Halg).
  - discriminate.
  - repeat constructor.
  - intros [H|[]]. discriminate.
Qed.

(** *** Tokens that are not in three segments *)

Lemma verify_not_three_segments sJWS key acceptAlgs :
  length (split "."%char sJWS) <> 3%nat ->
  verify E sJWS key acceptAlgs = Ok false.
Proof.
  unfold verify. intros H.
  destruct (split "."%char sJWS) as [|a0 [|a1 [|a2 [|a3 l]]]]; try reflexivity.
  now destruct H.
Qed.

(** *** The grace period and what else [verifyJWT] reads from [acceptField] *)

Lemma gracePeriod_default acceptField :
  gracePeriod (default_gracePeriod acceptField)
  = match get acceptField "gracePeriod" with JNum g => g | _ => 0 end.
Proof.
  unfold gracePeriod, default_gracePeriod.
  destruct (get acceptField "gracePeriod") eqn:Hg; try now rewrite Hg.
  all: unfold get; now rewrite lookup_insert_eq.
Qed.

Lemma default_gracePeriod_lookup_ne (acceptField : gmap string JSValue) k :
  k <> "gracePeriod" ->
  default_gracePeriod acceptField !! k = acceptField !! k.
Proof.
  intros Hk. unfold default_gracePeriod.
  destruct (get acceptField "gracePeriod"); try reflexivity.
  all: now apply lookup_insert_ne.
Qed.

Lemma default_gracePeriod_get_ne (acceptField : gmap string JSValue) k :
  k <> "gracePeriod" ->
  get (default_gracePeriod acceptField) k = get acceptField k.
Proof. intros Hk. unfold get. now rewrite default_gracePeriod_lookup_ne. Qed.

Lemma default_gracePeriod_number acceptField g :
  get acceptField "gracePeriod" = JNum g ->
  default_gracePeriod acceptField = acceptField.
Proof. intros H. unfold default_gracePeriod. now rewrite H. Qed.

Lemma default_gracePeriod_not_number acceptField :
  typeof (get acceptField "gracePeriod") <> "number" ->
  default_gracePeriod acceptField !! "gracePeriod" = Some (JNum 0).
Proof.
  intros H. unfold default_gracePeriod.
  destruct (get acceptField "gracePeriod"); try apply lookup_insert_eq.
  now destruct H.
Qed.

(** [verifyJWT] once the token is parsed and checks 4 to 7 have passed. *)
Lemma verifyJWT_after_claim_checks clock sJWT key acceptField pHeader pPayload :
  parseJWT E sJWT = Ok (pHeader, pPayload) ->
  claim_checks E pHeader pPayload acceptField = Ok true ->
  verifyJWT E clock sJWT key acceptField =
  (let now := verification_time clock acceptField in
   let acceptField := default_gracePeriod acceptField in
   unless_false (exp_check pPayload acceptField now)
     (unless_false (nbf_check pPayload acceptField now)
        (unless_false (iat_check pPayload acceptField now)
           (unless_false (jti_check pPayload acceptField)
              (unless_false (verify E sJWT key (get acceptField "alg")) (Ok true))))),
   default_gracePeriod acceptField).
Proof. intros Hp Hc. unfold verifyJWT. now rewrite Hp, Hc. Qed.

(** C2, amended: an input that does not split at ['.'] into exactly three
    segments makes [verify] return [false]; nothing is raised. *)
Theorem verify_malformed_returns_false sJWS key acceptAlgs :
  length (split "."%char sJWS) <> 3%nat ->
  verify E sJWS key acceptAlgs = Ok false /\ ~ raises (verify E sJWS key acceptAlgs).
Proof.
  intros H. rewrite (verify_not_three_segments _ _ _ H). split; [reflexivity|].
  intros [m Hm]. discriminate.
Qed.

(** C5: for a token with a numeric [exp] that passes every other check,
    [verifyJWT] returns [false] exactly when [exp + gracePeriod] is before
    the verification time, with [gracePeriod] 0 unless [acceptField] holds
    a number.  The sum is the one the code computes, on doubles
    ([num_add]); it is the sum of [Z] whenever that stays within 2^53.  So
    [exp = now - 10] is refused with [gracePeriod] 0 and accepted with
    [gracePeriod] 20, for every [exp] and [now] that are doubles. *)
Theorem verifyJWT_exp_gracePeriod clock sJWT key acceptField pHeader p exp :
  let now := verification_time clock acceptField in
  let grace := match get acceptField "gracePeriod" with JNum g => g | _ => 0 end in
  let result := fst (verifyJWT E clock sJWT key acceptField) in
  parseJWT E sJWT = Ok (pHeader, Some p) ->
  get p "exp" = JNum exp ->
  claim_checks E pHeader (Some p) acceptField = Ok true ->
  nbf_check (Some p) (default_gracePeriod acceptField) now = Ok true ->
  iat_check (Some p) (default_gracePeriod acceptField) now = Ok true ->
  jti_check (Some p) (default_gracePeriod acceptField) = Ok true ->
  verify E sJWT key (get acceptField "alg") = Ok true ->
  (result = Ok false <-> num_add exp grace < now) /\
  (result = Ok true <-> now <= num_add exp grace) /\
  (Z.abs (exp + grace) <= 2 ^ 53 ->
   (result = Ok false <-> exp + grace < now) /\
   (result = Ok true <-> now <= exp + grace)) /\
  (exp = now - 10 -> grace = 0 -> is_double exp = true -> result = Ok false) /\
  (exp = now - 10 -> grace = 20 -> is_double now = true -> result = Ok true).
Proof.
  intros now grace result Hparse Hexp Hclaims Hnbf Hiat Hjti Hverify.
  assert (Hres : result = Ok (negb (num_add exp grace <? now))).
  { unfold result. rewrite (verifyJWT_after_claim_checks _ _ _ _ _ _ Hparse Hclaims).
    cbn [fst]. fold now. rewrite Hnbf, Hiat, Hjti.
    rewrite default_gracePeriod_get_ne by discriminate. rewrite Hverify.
    unfold exp_check. cbn [prop bindR]. rewrite Hexp, gracePeriod_default.
    fold grace. unfold unless_false. cbn [bindR].
    now destruct (num_add exp grace <? now). }
  assert (Hiff : (result = Ok false <-> num_add exp grace < now) /\
                 (result = Ok true <-> now <= num_add exp grace)).
  { rewrite Hres.
    destruct (Z.ltb_spec (num_add exp grace) now) as [Hlt|Hge]; cbn [negb];
      (split; split; intros; try reflexivity; try assumption; try discriminate; lia). }
  destruct Hiff as [Hfalse Htrue].
  split; [exact Hfalse|]. split; [exact Htrue|]. split; [|split].
  - intros Hb. rewrite <- (num_add_exact exp grace Hb). now split.
  - intros He Hg Hd. apply Hfalse. unfold num_add. rewrite Hg, Z.add_0_r.
    rewrite (is_double_eq _ Hd). lia.
  - intros He Hg Hd. apply Htrue. rewrite <- (is_double_eq _ Hd) at 1.
    unfold num_add. apply to_double_mono. lia.
Qed.

(** C8, amended: on a token of exactly three segments, all of which the
    decoders accept, whose header decodes to an object without ['alg'],
    [verifyJWT] returns [false] and [verify] raises
    'algorithm not specified in header'. *)
Theorem missing_alg_verifyJWT_false_verify_raises
    clock sJWT key acceptField acceptAlgs uHeader uPayload uSig hSig sHeader sPayload pHeader :
  split "."%char sJWT = [uHeader; uPayload; uSig] ->
  b64utohex E (Some uSig) = Ok hSig ->
  b64utoutf8 E (Some uHeader) = Ok sHeader ->
  b64utoutf8 E (Some uPayload) = Ok sPayload ->
  readSafeJSONString E sHeader = Some pHeader ->
  get pHeader "alg" = JUndefined ->
  fst (verifyJWT E clock sJWT key acceptField) = Ok false /\
  verify E sJWT key acceptAlgs = Throw "algorithm not specified in header".
Proof.
  intros Hsplit Hsig Hhead Hpay Hread Halg. split.
  - unfold verifyJWT, parseJWT. rewrite Hsplit. cbn [lookup list_lookup].
    rewrite Hsig, Hhead, Hpay. cbn [bindR]. rewrite Hread.
    unfold claim_checks, alg_check, unless_false. cbn [prop bindR].
    now rewrite Halg.
  - unfold verify. rewrite Hsplit, Hsig, Hhead. cbn [bindR]. rewrite Hread.
    cbn [prop bindR]. now rewrite Halg.
Qed.

(** Beside C8: with a fourth segment [verify] does not look at the header
    and both functions return [false]. *)
Remark missing_alg_four_segments_both_false
    clock sJWT key acceptField acceptAlgs uHeader uPayload uSig more hSig sHeader sPayload pHeader :
  split "."%char sJWT = uHeader :: uPayload :: uSig :: more ->
  more <> [] ->
  b64utohex E (Some uSig) = Ok hSig ->
  b64utoutf8 E (Some uHeader) = Ok sHeader ->
  b64utoutf8 E (Some uPayload) = Ok sPayload ->
  readSafeJSONString E sHeader = Some pHeader ->
  get pHeader "alg" = JUndefined ->
  fst (verifyJWT E clock sJWT key acceptField) = Ok false /\
  verify E sJWT key acceptAlgs = Ok false.
Proof.
  intros Hsplit Hmore Hsig Hhead Hpay Hread Halg. split.
  - unfold verifyJWT, parseJWT. rewrite Hsplit. cbn [lookup list_lookup].
    rewrite Hsig, Hhead, Hpay. cbn [bindR]. rewrite Hread.
    unfold claim_checks, alg_check, unless_false. cbn [prop bindR].
    now rewrite Halg.
  - apply verify_not_three_segments. rewrite Hsplit.
    destruct more; [congruence|discriminate].
Qed.

(** C9: a time claim that is present but not a number is not checked: its
    check passes at every verification time and grace period; and a token
    whose [exp], [nbf] and [iat] are all such (or absent) and which passes
    the other checks is accepted whatever the clock reads. *)
Theorem verifyJWT_skips_non_numeric_time_claims (p : gmap string JSValue) :
  (forall v acceptField now,
     p !! "exp" = Some v -> typeof v <> "number" ->
     exp_check (Some p) acceptField now = Ok true) /\
  (forall v acceptField now,
     p !! "nbf" = Some v -> typeof v <> "number" ->
     nbf_check (Some p) acceptField now = Ok true) /\
  (forall v acceptField now,
     p !! "iat" = Some v -> typeof v <> "number" ->
     iat_check (Some p) acceptField now = Ok true) /\
  (forall clock sJWT key acceptField pHeader,
     parseJWT E sJWT = Ok (pHeader, Some p) ->
     claim_checks E pHeader (Some p) acceptField = Ok true ->
     typeof (get p "exp") <> "number" ->
     typeof (get p "nbf") <> "number" ->
     typeof (get p "iat") <> "number" ->
     jti_check (Some p) (default_gracePeriod acceptField) = Ok true ->
     verify E sJWT key (get acceptField "alg") = Ok true ->
     fst (verifyJWT E clock sJWT key acceptField) = Ok true).
Proof.
  assert (Hexp : forall acceptField now, typeof (get p "exp") <> "number" ->
                   exp_check (Some p) acceptField now = Ok true).
  { intros af now H. unfold exp_check. cbn [prop bindR].
    destruct (get p "exp"); try reflexivity. now destruct H. }
  assert (Hnbf : forall acceptField now, typeof (get p "nbf") <> "number" ->
                   nbf_check (Some p) acceptField now = Ok true).
  { intros af now H. unfold nbf_check. cbn [prop bindR].
    destruct (get p "nbf"); try reflexivity. now destruct H. }
  assert (Hiat : forall acceptField now, typeof (get p "iat") <> "number" ->
                   iat_check (Some p) acceptField now = Ok true).
  { intros af now H. unfold iat_check. cbn [prop bindR].
    destruct (get p "iat"); try reflexivity. now destruct H. }
  repeat split.
  - intros v af now Hv Ht. apply Hexp. unfold get. now rewrite Hv.
  - intros v af now Hv Ht. apply Hnbf. unfold get. now rewrite Hv.
  - intros v af now Hv Ht. apply Hiat. unfold get. now rewrite Hv.
  - intros clock sJWT key af pHeader Hparse Hclaims He Hn Hi Hjti Hverify.
    rewrite (verifyJWT_after_claim_checks _ _ _ _ _ _ Hparse Hclaims).
    cbn [fst]. rewrite Hexp, Hnbf, Hiat, Hjti by assumption.
    rewrite default_gracePeriod_get_ne by discriminate. now rewrite Hverify.
Qed.

(** C10, amended: a call of [verifyJWT] changes no entry of [acceptField]
    but ['gracePeriod']; it changes nothing when that entry holds a
    number; when the call gets past checks 4 to 7 and the entry is absent
    or not a number, the call leaves the number 0 in it, and [acceptField]
    is otherwise as it was; and a call that raises while the token is
    parsed, or that raises or returns [false] in checks 4 to 7, leaves
    [acceptField] as it was. *)
Theorem verifyJWT_acceptField_effect clock sJWT key (acceptField : gmap string JSValue) :
  let after := snd (verifyJWT E clock sJWT key acceptField) in
  (forall k, k <> "gracePeriod" -> after !! k = acceptField !! k) /\
  (typeof (get acceptField "gracePeriod") = "number" -> after = acceptField) /\
  (forall pHeader pPayload,
     parseJWT E sJWT = Ok (pHeader, pPayload) ->
     claim_checks E pHeader pPayload acceptField = Ok true ->
     typeof (get acceptField "gracePeriod") <> "number" ->
     after !! "gracePeriod" = Some (JNum 0)) /\
  (forall pHeader pPayload,
     parseJWT E sJWT = Ok (pHeader, pPayload) ->
     claim_checks E pHeader pPayload acceptField = Ok true ->
     typeof (get acceptField "gracePeriod") <> "number" ->
     after = <["gracePeriod" := JNum 0]> acceptField) /\
  (forall m, parseJWT E sJWT = Throw m -> after = acceptField) /\
  (forall pHeader pPayload,
     parseJWT E sJWT = Ok (pHeader, pPayload) ->
     claim_checks E pHeader pPayload acceptField <> Ok true ->
     after = acceptField) /\
  (forall pHeader pPayload m,
     parseJWT E sJWT = Ok (pHeader, pPayload) ->
     claim_checks E pHeader pPayload acceptField = Throw m ->
     verifyJWT E clock sJWT key acceptField = (Throw m, acceptField)) /\
  (forall pHeader pPayload,
     parseJWT E sJWT = Ok (pHeader, pPayload) ->
     claim_checks E pHeader pPayload acceptField = Ok false ->
     verifyJWT E clock sJWT key acceptField = (Ok false, acceptField)).
Proof.
  cbn zeta.
  assert (Hcases : snd (verifyJWT E clock sJWT key acceptField) = acceptField \/
                   snd (verifyJWT E clock sJWT key acceptField)
                   = default_gracePeriod acceptField).
  { unfold verifyJWT. destruct (parseJWT E sJWT) as [[pHeader pPayload]|m]; [|now left].
    destruct (claim_checks E pHeader pPayload acceptField) as [[|]|m];
      [now right|now left|now left]. }
  repeat split.
  - intros k Hk. destruct Hcases as [-> | ->]; [reflexivity|].
    now apply default_gracePeriod_lookup_ne.
  - intros Hnum. destruct Hcases as [-> | ->]; [reflexivity|].
    unfold default_gracePeriod.
    destruct (get acceptField "gracePeriod"); try reflexivity; discriminate.
  - intros pHeader pPayload Hparse Hclaims Hnot.
    rewrite (verifyJWT_after_claim_checks _ _ _ _ _ _ Hparse Hclaims). cbn [snd].
    now apply default_gracePeriod_not_number.
  - intros pHeader pPayload Hparse Hclaims Hnot.
    rewrite (verifyJWT_after_claim_checks _ _ _ _ _ _ Hparse Hclaims). cbn [snd].
    unfold default_gracePeriod.
    destruct (get acceptField "gracePeriod"); try reflexivity. now destruct Hnot.
  - intros m Hparse. unfold verifyJWT. now rewrite Hparse.
  - intros pHeader pPayload Hparse Hclaims. unfold verifyJWT. rewrite Hparse.
    destruct (claim_checks E pHeader pPayload acceptField) as [[|]|m];
      [now destruct Hclaims|reflexivity|reflexivity].
  - intros pHeader pPayload m Hparse Hclaims. unfold verifyJWT.
    now rewrite Hparse, Hclaims.
  - intros pHeader pPayload Hparse Hclaims. unfold verifyJWT.
    now rewrite Hparse, Hclaims.
Qed.

End WithEngine.

(** *** The properties at concrete tokens *)

Import Sample.

(** C2, as the specification states it, fails: a token of two segments is
    answered with [false], not with an exception. *)
Lemma verify_two_segments_counterexample :
  split "."%char "{alg:HS256}.{exp:990}" = ["{alg:HS256}"; "{exp:990}"] /\
  verify Sample.engine "{alg:HS256}.{exp:990}" (KeyString "secret") (JArr [JStr "HS256"])
  = Ok false /\
  ~ raises (verify Sample.engine "{alg:HS256}.{exp:990}" (KeyString "secret")
              (JArr [JStr "HS256"])).
Proof.
  split; [reflexivity|]. split; [reflexivity|]. intros [m Hm]. discriminate.
Qed.

Lemma verify_malformed_returns_false_witness :
  verify Sample.engine "no dots at all" KeyNull JUndefined = Ok false /\
  ~ raises (verify Sample.engine "no dots at all" KeyNull JUndefined).
Proof.
  apply (verify_malformed_returns_false Sample.engine "no dots at all").
  vm_compute. discriminate.
Defined.

(** [exp = now - 10]: refused without a grace period, accepted with a
    grace period of 20. *)
Lemma verifyJWT_exp_gracePeriod_witness :
  fst (verifyJWT Sample.engine 1000 hs256_exp990 (KeyString "secret") accept_HS256)
  = Ok false /\
  fst (verifyJWT Sample.engine 1000 hs256_exp990 (KeyString "secret")
         (<["gracePeriod" := JNum 20]> accept_HS256))
  = Ok true /\
  fst (verifyJWT Sample.engine 1000 "{alg:HS256}.{exp:9007199254740994}.6d6163"
         (KeyString "secret")
         (<["verifyAt" := JNum 9007199254740996]>
            (<["gracePeriod" := JNum 1]> accept_HS256)))
  = Ok true.
Proof.
  split; [|split].
  - refine (proj1 (proj2 (proj2 (proj2
      (verifyJWT_exp_gracePeriod Sample.engine 1000 hs256_exp990
         (KeyString "secret") accept_HS256
         (Some {[ "alg" := JStr "HS256" ]}) {[ "exp" := JNum 990 ]} 990
         _ _ _ _ _ _ _)))) _ _ _); reflexivity.
  - refine (proj2 (proj2 (proj2 (proj2
      (verifyJWT_exp_gracePeriod Sample.engine 1000 hs256_exp990
         (KeyString "secret") (<["gracePeriod" := JNum 20]> accept_HS256)
         (Some {[ "alg" := JStr "HS256" ]}) {[ "exp" := JNum 990 ]} 990
         _ _ _ _ _ _ _)))) _ _ _); reflexivity.
  - refine (proj2 (proj1 (proj2
      (verifyJWT_exp_gracePeriod Sample.engine 1000
         "{alg:HS256}.{exp:9007199254740994}.6d6163" (KeyString "secret")
         (<["verifyAt" := JNum 9007199254740996]>
            (<["gracePeriod" := JNum 1]> accept_HS256))
         (Some {[ "alg" := JStr "HS256" ]}) {[ "exp" := JNum 9007199254740994 ]}
         9007199254740994 _ _ _ _ _ _ _))) _); reflexivity.
Defined.

(** C8, as the specification states it, fails on a token that is not in
    three segments.  The header [{}] decodes to an object without ['alg'].
    With a fourth segment [verifyJWT] returns [false] and [verify] returns
    [false] too: it raises nothing.  With two segments [verify] returns
    [false] and it is [verifyJWT] that raises, when it decodes the
    signature segment that is not there. *)
Lemma missing_alg_not_three_segments_counterexample :
  readSafeJSONString Sample.engine "{}" = Some ∅ /\
  get (∅ : gmap string JSValue) "alg" = JUndefined /\
  fst (verifyJWT Sample.engine 1000 "{}.{exp:990}.6d6163.x" (KeyString "secret")
         accept_HS256) = Ok false /\
  verify Sample.engine "{}.{exp:990}.6d6163.x" (KeyString "secret") (JArr [JStr "HS256"])
  = Ok false /\
  ~ raises (verify Sample.engine "{}.{exp:990}.6d6163.x" (KeyString "secret")
              (JArr [JStr "HS256"])) /\
  raises (fst (verifyJWT Sample.engine 1000 "{}.{exp:990}" (KeyString "secret")
                 accept_HS256)) /\
  verify Sample.engine "{}.{exp:990}" (KeyString "secret") (JArr [JStr "HS256"])
  = Ok false.
Proof.
  repeat (split; [reflexivity|]).
  split; [intros [m Hm]; discriminate|].
  split; [eexists; reflexivity|reflexivity].
Qed.

Lemma missing_alg_verifyJWT_false_verify_raises_witness :
  fst (verifyJWT Sample.engine 1000 "{}.{exp:990}.6d6163" (KeyString "secret") accept_HS256)
  = Ok false /\
  verify Sample.engine "{}.{exp:990}.6d6163" (KeyString "secret") (JArr [JStr "HS256"])
  = Throw "algorithm not specified in header".
Proof.
  apply (missing_alg_verifyJWT_false_verify_raises Sample.engine 1000
           "{}.{exp:990}.6d6163" (KeyString "secret") accept_HS256 (JArr [JStr "HS256"])
           "{}" "{exp:990}" "6d6163" "6d6163" "{}" "{exp:990}" ∅);
    reflexivity.
Defined.

(** A token whose [exp] is the string '990', whose [nbf] is the string
    '2000' and whose [iat] is [null] is accepted at time 1000 and at time
    5000. *)
Lemma verifyJWT_skips_non_numeric_time_claims_witness :
  fst (verifyJWT Sample.engine 1000 "{alg:HS256}.{exp:'990',nbf:'2000',iat:null}.6d6163"
         (KeyString "secret") accept_HS256) = Ok true /\
  fst (verifyJWT Sample.engine 5000 "{alg:HS256}.{exp:'990',nbf:'2000',iat:null}.6d6163"
         (KeyString "secret") accept_HS256) = Ok true.
Proof.
  pose proof (verifyJWT_skips_non_numeric_time_claims Sample.engine
                (<[ "exp" := JStr "990" ]> (<[ "nbf" := JStr "2000" ]> {[ "iat" := JNull ]})))
    as (_ & _ & _ & H).
  split; apply (H _ _ _ _ (Some {[ "alg" := JStr "HS256" ]}));
    try reflexivity; vm_compute; discriminate.
Defined.

(** C10, as the specification states it, fails: the header algorithm is
    not accepted, the call returns at check 4, and [acceptField], which
    had no ['gracePeriod'], still has none. *)
Lemma verifyJWT_early_return_counterexample :
  accept_RS256 !! "gracePeriod" = None /\
  verifyJWT Sample.engine 1000 hs256_exp990 (KeyString "secret") accept_RS256
  = (Ok false, accept_RS256) /\
  snd (verifyJWT Sample.engine 1000 hs256_exp990 (KeyString "secret") accept_RS256)
    !! "gracePeriod" = None.
Proof. repeat split. Qed.

(** Where HS256 is accepted the call leaves 0 in ['gracePeriod'] and
    ['alg'] as it was; where only RS256 is accepted the call returns at
    check 4 and leaves [acceptField] as it was. *)
Lemma verifyJWT_acceptField_effect_witness :
  snd (verifyJWT Sample.engine 1000 hs256_exp990 (KeyString "secret") accept_HS256)
    !! "gracePeriod" = Some (JNum 0) /\
  snd (verifyJWT Sample.engine 1000 hs256_exp990 (KeyString "secret") accept_HS256)
    !! "alg" = accept_HS256 !! "alg" /\
  snd (verifyJWT Sample.engine 1000 hs256_exp990 (KeyString "secret") accept_RS256)
  = accept_RS256.
Proof.
  pose proof (verifyJWT_acceptField_effect Sample.engine 1000 hs256_exp990
                (KeyString "secret") accept_HS256) as (Hframe & _ & Hset & _).
  pose proof (verifyJWT_acceptField_effect Sample.engine 1000 hs256_exp990
                (KeyString "secret") accept_RS256) as (_ & _ & _ & _ & _ & Hearly & _).
  split; [|split].
  - apply (Hset (Some {[ "alg" := JStr "HS256" ]}) (Some {[ "exp" := JNum 990 ]}));
      try reflexivity. vm_compute. discriminate.
  - apply Hframe. discriminate.
  - apply (Hearly (Some {[ "alg" := JStr "HS256" ]}) (Some {[ "exp" := JNum 990 ]}));
      [reflexivity|]. vm_compute. discriminate.
Defined.

(** C1 at the input where the code departs from it: the list of accepted
    algorithms has the one element ["RS256:HS256"], the header algorithm
    [HS256] is not in the list, and [verify] goes on to check the MAC and
    returns [true]. *)
Theorem verify_accepts_alg_inside_list_element :
  ~ In (JStr "HS256") [JStr "RS256:HS256"] /\
  verify Sample.engine hs256_exp990 (KeyString "secret") (JArr [JStr "RS256:HS256"])
  = Ok true.
Proof.
  split; [|reflexivity]. intros [H|[]]. discriminate.
Qed.

End JWSFacts.

(** ** The TBS builders and the signing wrappers *)

Module ASN1X509Facts.
Import JSStr ASN1.

(** Unfold the calls of a method down to its matches. *)
Ltac run_st :=
  unfold bindS, retS, throwS, getS, modifyS, liftR, Certificate.attempt in *;
  cbn beta iota zeta in *.

(** *** Methods that keep a field *)

Section Keeps.
Context {S F : Type} (f : S -> F).

Lemma keeps_retS {A} (a : A) : keeps f (retS a).
Proof. now intros o. Qed.

Lemma keeps_throwS {A} msg : keeps f (@throwS S A msg).
Proof. now intros o. Qed.

Lemma keeps_getS : keeps f getS.
Proof. now intros o. Qed.

Lemma keeps_liftR {A} (r : Res A) : keeps f (liftR r).
Proof. now intros o. Qed.

Lemma keeps_modifyS g : (forall o, f (g o) = f o) -> keeps f (modifyS g).
Proof. intros H o. apply H. Qed.

Lemma keeps_bindS {A B} (m : ST S A) (k : A -> ST S B) :
  keeps f m -> (forall a, keeps f (k a)) -> keeps f (bindS m k).
Proof.
  intros Hm Hk o. unfold bindS. specialize (Hm o).
  destruct (m o) as [[a|msg] o1]; cbn [snd] in *; [|assumption].
  now rewrite Hk.
Qed.

Lemma keeps_attempt {A} (m : ST S A) : keeps f m -> keeps f (Certificate.attempt m).
Proof.
  intros Hm o. unfold Certificate.attempt. specialize (Hm o).
  now destruct (m o).
Qed.

Lemma keeps_on_throw_keeps {A} (m : ST S A) : keeps f m -> keeps_on_throw f m.
Proof. intros Hm o msg o' H. specialize (Hm o). now rewrite H in Hm. Qed.

Lemma keeps_on_throw_bindS {A B} (m : ST S A) (k : A -> ST S B) :
  keeps f m -> (forall a, keeps_on_throw f (k a)) -> keeps_on_throw f (bindS m k).
Proof.
  intros Hm Hk o msg o'. unfold bindS. specialize (Hm o).
  destruct (m o) as [[a|msg1] o1]; cbn [snd] in *.
  - intros H. now rewrite (Hk _ _ _ _ H).
  - now intros [= _ <-].
Qed.

Lemma keeps_on_throw_modifyS g : keeps_on_throw f (modifyS g).
Proof. intros o msg o'. discriminate. Qed.

Lemma keeps_on_throw_modifyS_bindS {B} g (k : ST S B) :
  (forall o msg o', k o <> (Throw msg, o')) ->
  keeps_on_throw f (bindS (modifyS g) (fun _ => k)).
Proof. intros Hk o msg o' H. unfold bindS, modifyS in H. now apply Hk in H. Qed.

End Keeps.

(** What a method that returned has done, step by step. *)
Lemma bindS_Ok_inv {S A B} (m : ST S A) (k : A -> ST S B) o b o' :
  bindS m k o = (Ok b, o') ->
  exists a o1, m o = (Ok a, o1) /\ k a o1 = (Ok b, o').
Proof.
  unfold bindS. destruct (m o) as [[a|msg] o1]; [eauto|discriminate].
Qed.

(** *** TBSCertificate.getEncodedHex *)

Lemma TBSCertificate_getEncodedHex_eq K o notBefore notAfter :
  TBSCertificate.asn1NotBefore o = Some notBefore ->
  TBSCertificate.asn1NotAfter o = Some notAfter ->
  TBSCertificate.getEncodedHex K o =
  (let a := TBSCertificate.fields o (DERSequence [Some notBefore; Some notAfter]) in
   match getEncodedHex K (DERSequence a) with
   | Ok h => (Ok h, TBSCertificate.set_isModified false
                      (TBSCertificate.set_hTLV (Some h)
                         (TBSCertificate.set_asn1Array a o)))
   | Throw msg => (Throw msg, TBSCertificate.set_asn1Array a o)
   end).
Proof.
  intros Hb Ha. unfold TBSCertificate.getEncodedHex. run_st.
  rewrite Hb, Ha. cbn zeta.
  now destruct (getEncodedHex K _).
Qed.

Lemma TBSCertificate_getEncodedHex_unset K o :
  TBSCertificate.asn1NotBefore o = None \/ TBSCertificate.asn1NotAfter o = None ->
  TBSCertificate.getEncodedHex K o = (Throw "notBefore and/or notAfter not set", o).
Proof.
  intros H. unfold TBSCertificate.getEncodedHex. run_st.
  destruct H as [-> | ->]; [|destruct (TBSCertificate.asn1NotBefore o)]; reflexivity.
Qed.

(** What [getEncodedHex] reads is what the setters write: its own writes
    ([asn1Array], [hTLV], [isModified]) do not change a second result. *)
Lemma TBSCertificate_getEncodedHex_again K o r o' :
  TBSCertificate.getEncodedHex K o = (r, o') ->
  fst (TBSCertificate.getEncodedHex K o') = r.
Proof.
  destruct (TBSCertificate.asn1NotBefore o) as [nb|] eqn:Hb;
    [destruct (TBSCertificate.asn1NotAfter o) as [na|] eqn:Ha|].
  - rewrite (TBSCertificate_getEncodedHex_eq K o nb na Hb Ha). cbn zeta.
    destruct (getEncodedHex K _) as [h|m] eqn:Hh; intros [= <- <-].
    + rewrite (TBSCertificate_getEncodedHex_eq K _ nb na); [|assumption..].
      cbn zeta. unfold TBSCertificate.fields in *. cbn in *. now rewrite Hh.
    + rewrite (TBSCertificate_getEncodedHex_eq K _ nb na); [|assumption..].
      cbn zeta. unfold TBSCertificate.fields in *. cbn in *. now rewrite Hh.
  - rewrite TBSCertificate_getEncodedHex_unset by now right.
    intros [= <- <-]. now rewrite TBSCertificate_getEncodedHex_unset by now right.
  - rewrite TBSCertificate_getEncodedHex_unset by now left.
    intros [= <- <-]. now rewrite TBSCertificate_getEncodedHex_unset by now left.
Qed.

Lemma built_asn1Version K o :
  TBSCertificate.built K o ->
  TBSCertificate.asn1Version o = DERTaggedObject true "a0" (DERInteger 2).
Proof.
  induction 1 as [| | | | | | | | |o r o' Hb IH Hg]; try assumption; try reflexivity.
  destruct (TBSCertificate.asn1NotBefore o) as [nb|] eqn:Hnb;
    [destruct (TBSCertificate.asn1NotAfter o) as [na|] eqn:Hna|].
  - rewrite (TBSCertificate_getEncodedHex_eq K o nb na Hnb Hna) in Hg. cbn zeta in Hg.
    destruct (getEncodedHex K _); injection Hg as <- <-; exact IH.
  - rewrite TBSCertificate_getEncodedHex_unset in Hg by now right.
    injection Hg as <- <-. exact IH.
  - rewrite TBSCertificate_getEncodedHex_unset in Hg by now left.
    injection Hg as <- <-. exact IH.
Qed.

(** C4, as the specification states it, fails: a TBSCertificate without
    extensions is encoded with the version field [[0] INTEGER 2] first
    ([a003020102] after the header of the SEQUENCE). *)
Lemma TBSCertificate_without_extension_counterexample :
  TBSCertificate.extensionsArray Sample.tbs_v1 = [] /\
  hd_error (TBSCertificate.asn1Array
              (snd (TBSCertificate.getEncodedHex (Sample.kernel true) Sample.tbs_v1)))
  = Some (Some (DERTaggedObject true "a0" (DERInteger 2))) /\
  fst (TBSCertificate.getEncodedHex (Sample.kernel true) Sample.tbs_v1)
  = Ok ("305a" +:+ "a003020102" +:+
        "020104300d06092a864886f70d01010b0500300d310b3009060355040613025553301e170d3133303530343233353935395a170d3134303530343233353935395a300d310b300906035504061302555330030101ff").
Proof. repeat split. Qed.

(** C4, amended: [getEncodedHex] puts the version field, explicit [[0]]
    around INTEGER 2, first whether or not there are extensions; the
    extensions, when there are some, come last as a SEQUENCE in an
    explicit [[3]], and nothing stands for them when there are none. *)
Theorem TBSCertificate_fields_encoded K o notBefore notAfter :
  TBSCertificate.built K o ->
  TBSCertificate.asn1NotBefore o = Some notBefore ->
  TBSCertificate.asn1NotAfter o = Some notAfter ->
  let r := fst (TBSCertificate.getEncodedHex K o) in
  let o' := snd (TBSCertificate.getEncodedHex K o) in
  TBSCertificate.asn1Array o' =
    [ Some (DERTaggedObject true "a0" (DERInteger 2));
      TBSCertificate.asn1SerialNumber o;
      algid_object (TBSCertificate.asn1SignatureAlg o);
      TBSCertificate.asn1Issuer o;
      Some (DERSequence [Some notBefore; Some notAfter]);
      TBSCertificate.asn1Subject o;
      TBSCertificate.asn1SubjPKey o ]
    ++ match TBSCertificate.extensionsArray o with
       | [] => []
       | exts => [Some (DERTaggedObject true "a3" (DERSequence (map Some exts)))]
       end
  /\ r = getEncodedHex K (DERSequence (TBSCertificate.asn1Array o')).
Proof.
  intros Hbuilt Hb Ha.
  rewrite (TBSCertificate_getEncodedHex_eq K o _ _ Hb Ha). cbn zeta.
  assert (Hf : TBSCertificate.fields o (DERSequence [Some notBefore; Some notAfter]) =
    [ Some (DERTaggedObject true "a0" (DERInteger 2));
      TBSCertificate.asn1SerialNumber o;
      algid_object (TBSCertificate.asn1SignatureAlg o);
      TBSCertificate.asn1Issuer o;
      Some (DERSequence [Some notBefore; Some notAfter]);
      TBSCertificate.asn1Subject o;
      TBSCertificate.asn1SubjPKey o ]
    ++ match TBSCertificate.extensionsArray o with
       | [] => []
       | exts => [Some (DERTaggedObject true "a3" (DERSequence (map Some exts)))]
       end).
  { unfold TBSCertificate.fields. rewrite (built_asn1Version K o Hbuilt).
    now destruct (TBSCertificate.extensionsArray o). }
  destruct (getEncodedHex K _) as [h|m] eqn:Hh; cbn [fst snd];
    (split; [exact Hf | now rewrite <- Hh]).
Qed.

Lemma TBSCertificate_fields_encoded_witness :
  TBSCertificate.asn1Array
    (snd (TBSCertificate.getEncodedHex (Sample.kernel true) Sample.tbs_v3)) =
    [ Some (DERTaggedObject true "a0" (DERInteger 2));
      Some (DERInteger 4);
      Some (Encoded (Ok "300d06092a864886f70d01010b0500"));
      Some (Encoded (Ok "300d310b3009060355040613025553"));
      Some (DERSequence [Some (Encoded (Ok "170d3133303530343233353935395a"));
                         Some (Encoded (Ok "170d3134303530343233353935395a"))]);
      Some (Encoded (Ok "300d310b3009060355040613025553"));
      Some (Encoded (Ok "30030101ff"));
      Some (DERTaggedObject true "a3"
              (DERSequence [Some (Encoded (Ok "300c0603551d13040530030101ff"))])) ].
Proof.
  apply (TBSCertificate_fields_encoded (Sample.kernel true) Sample.tbs_v3
           (Encoded (Ok "170d3133303530343233353935395a"))
           (Encoded (Ok "170d3134303530343233353935395a"))).
  - unfold Sample.tbs_v3, Sample.tbs_v1. repeat constructor.
  - reflexivity.
  - reflexivity.
Defined.

(** *** Certificate *)

Lemma Certificate_getEncodedHex_state o :
  snd (Certificate.getEncodedHex o) = o.
Proof.
  unfold Certificate.getEncodedHex. run_st.
  now destruct (Certificate.isModified o), (Certificate.hTLV o).
Qed.

Lemma Certificate_getEncodedHex_unsigned o :
  Certificate.hTLV o = None ->
  Certificate.getEncodedHex o = (Throw "not signed yet", o).
Proof.
  intros H. unfold Certificate.getEncodedHex. run_st. rewrite H.
  now destruct (Certificate.isModified o).
Qed.

Lemma Certificate_getPEMString_state K o :
  snd (Certificate.getPEMString K o) = o.
Proof.
  unfold Certificate.getPEMString, Certificate.getEncodedHex. run_st.
  now destruct (Certificate.isModified o), (Certificate.hTLV o).
Qed.

Lemma keeps_on_asn1TBSCert {F A} (f : Certificate.t -> F) (m : ST TBSCertificate.t A) :
  (forall x o, f (Certificate.set_asn1TBSCert x o) = f o) ->
  keeps f (Certificate.on_asn1TBSCert m).
Proof.
  intros H o. unfold Certificate.on_asn1TBSCert.
  destruct (Certificate.asn1TBSCert o) as [tbs|]; [|reflexivity].
  destruct (m tbs). apply H.
Qed.

Create HintDb keeps.

#[local] Hint Resolve keeps_retS keeps_throwS keeps_getS keeps_liftR keeps_modifyS
  keeps_attempt keeps_on_asn1TBSCert keeps_on_throw_modifyS : keeps.

Ltac keeps_step :=
  first [ solve [apply keeps_on_throw_modifyS_bindS; discriminate]
        | apply keeps_on_throw_bindS; [|intros ?]
        | apply keeps_bindS; [|intros ?]
        | match goal with |- keeps _ (match ?x with _ => _ end) => destruct x end
        | solve [auto with keeps] ].

Lemma Certificate_signed_encoding_keeps_hTLV K sigAlg sig :
  keeps Certificate.hTLV (Certificate.signed_encoding K sigAlg sig).
Proof. unfold Certificate.signed_encoding. repeat keeps_step. Qed.

#[local] Hint Resolve Certificate_signed_encoding_keeps_hTLV : keeps.

Lemma Certificate_sign_threw_hTLV K :
  keeps_on_throw Certificate.hTLV (Certificate.sign K).
Proof.
  unfold Certificate.sign. repeat keeps_step.
Qed.

Lemma Certificate_setSignatureHex_threw_hTLV K sigHex :
  keeps_on_throw Certificate.hTLV (Certificate.setSignatureHex K sigHex).
Proof.
  unfold Certificate.setSignatureHex. repeat keeps_step.
Qed.

Lemma unsigned_hTLV K o : Certificate.unsigned K o -> Certificate.hTLV o = None.
Proof.
  induction 1 as [tbs key|o msg o' _ IH Hs|o sigHex msg o' _ IH Hs
                 |o r o' _ IH Hg|o r o' _ IH Hg|o g _ IH].
  - reflexivity.
  - now rewrite (Certificate_sign_threw_hTLV K _ _ _ Hs).
  - now rewrite (Certificate_setSignatureHex_threw_hTLV K _ _ _ _ Hs).
  - pose proof (Certificate_getEncodedHex_state o) as Hst.
    rewrite Hg in Hst. cbn [snd] in Hst. now subst.
  - pose proof (Certificate_getPEMString_state K o) as Hst.
    rewrite Hg in Hst. cbn [snd] in Hst. now subst.
  - exact IH.
Qed.

(** What [this.asn1TBSCert.m()] has done when it returned. *)
Lemma on_asn1TBSCert_Ok_inv {A} (m : ST TBSCertificate.t A) o a o1 :
  Certificate.on_asn1TBSCert m o = (Ok a, o1) ->
  exists tbs tbs', Certificate.asn1TBSCert o = Some tbs /\
                   m tbs = (Ok a, tbs') /\
                   o1 = Certificate.set_asn1TBSCert (Some tbs') o.
Proof.
  unfold Certificate.on_asn1TBSCert.
  destruct (Certificate.asn1TBSCert o) as [tbs|]; [|discriminate].
  destruct (m tbs) as [r tbs'] eqn:Hm. intros [= -> <-]. eauto.
Qed.

Lemma attempt_on_asn1TBSCert_inv {A} (m : ST TBSCertificate.t A) o tbs r o1 :
  Certificate.attempt (Certificate.on_asn1TBSCert m) o = (Ok r, o1) ->
  Certificate.asn1TBSCert o = Some tbs ->
  exists tbs', m tbs = (r, tbs') /\ o1 = Certificate.set_asn1TBSCert (Some tbs') o.
Proof.
  unfold Certificate.attempt, Certificate.on_asn1TBSCert. intros H Htbs.
  rewrite Htbs in H.
  destruct (m tbs) as [r' tbs']. injection H as <- <-. eauto.
Qed.

Ltac inv_bind H :=
  let a := fresh "a" in
  let o := fresh "o" in
  let H1 := fresh "Hstep" in
  apply bindS_Ok_inv in H as (a & o & H1 & H).

Lemma Certificate_sign_Ok K o o' :
  Certificate.sign K o = (Ok tt, o') ->
  exists tbs tbs1 a hTBS hexSig hAlg,
    Certificate.asn1TBSCert o = Some tbs /\
    TBSCertificate.asn1SignatureAlg tbs = Some a /\
    TBSCertificate.getEncodedHex K tbs = (Ok hTBS, tbs1) /\
    Signature_sign K (nameAlg a) None (Certificate.prvKey o) hTBS = Ok hexSig /\
    algid_encoding a = Ok hAlg /\
    Certificate.asn1SignatureAlg o' = Some a /\
    Certificate.hexSig o' = Some hexSig /\
    Certificate.asn1Sig o' = Some (DERBitString ("00" +:+ hexSig)) /\
    Certificate.hTLV o' =
      Some (DERSequence_hex K [hTBS; hAlg; DERBitString_hex K ("00" +:+ hexSig)]) /\
    Certificate.isModified o' = false.
Proof.
  unfold Certificate.sign. intros H.
  inv_bind H. apply on_asn1TBSCert_Ok_inv in Hstep as (tbs & tbs0 & Htbs & Hget & ->).
  cbv [bindS getS retS] in Hget. injection Hget as <- <-.
  inv_bind H. cbv [modifyS] in Hstep. injection Hstep as _ <-.
  inv_bind H. destruct (TBSCertificate.asn1SignatureAlg tbs) as [sigAlg|] eqn:HsigAlg;
    [|discriminate].
  cbv [retS] in Hstep. injection Hstep as <- <-.
  inv_bind H. cbv [liftR] in Hstep. injection Hstep as Hnew <-.
  inv_bind H. cbv [getS] in Hstep. injection Hstep as <- <-.
  inv_bind H. cbv [liftR] in Hstep. injection Hstep as Hinit <-.
  inv_bind H. apply on_asn1TBSCert_Ok_inv in Hstep as (tbs' & tbs1 & Htbs' & Henc & ->).
  cbn in Htbs'. injection Htbs' as <-.
  inv_bind H. cbv [liftR] in Hstep. injection Hstep as Hsign <-.
  inv_bind H. cbv [modifyS] in Hstep. injection Hstep as _ <-.
  inv_bind H. cbv [modifyS] in Hstep. injection Hstep as _ <-.
  inv_bind H. unfold Certificate.signed_encoding in Hstep.
  inv_bind Hstep.
  apply (attempt_on_asn1TBSCert_inv _ _ tbs1) in Hstep0 as (tbs2 & Henc2 & ->);
    [|reflexivity].
  pose proof (TBSCertificate_getEncodedHex_again K _ _ _ Henc) as Hagain.
  rewrite Henc2 in Hagain. cbn [fst] in Hagain. subst a7.
  cbv [liftR] in Hstep. injection Hstep as Hseq <-.
  cbn [getEncodedHex bindR algid_object] in Hseq.
  destruct (algid_encoding sigAlg) as [hAlg|] eqn:HhAlg; [|discriminate].
  cbn [bindR] in Hseq. injection Hseq as <-.
  cbv [bindS modifyS] in H. injection H as <-.
  exists tbs, tbs1, sigAlg, a2, a3, hAlg. repeat split; assumption.
Qed.

Lemma after_getEncodedHex_state n o : Certificate.after_getEncodedHex n o = o.
Proof.
  induction n as [|n IH]; [reflexivity|].
  unfold Certificate.after_getEncodedHex in *. rewrite Nat.iter_succ.
  now rewrite Certificate_getEncodedHex_state.
Qed.

(** C6: [getEncodedHex] raises "not signed yet" on every certificate on
    which neither [sign] nor [setSignatureHex] has completed; and once
    [sign] has returned, every call of [getEncodedHex] that follows
    returns the encoding that [sign] has stored. *)
Theorem Certificate_getEncodedHex_after_sign_only K :
  (forall o, Certificate.unsigned K o ->
             Certificate.getEncodedHex o = (Throw "not signed yet", o)) /\
  (forall o o', Certificate.sign K o = (Ok tt, o') ->
     exists h, Certificate.hTLV o' = Some h /\
               forall n, Certificate.getEncodedHex (Certificate.after_getEncodedHex n o')
                         = (Ok h, Certificate.after_getEncodedHex n o')).
Proof.
  split.
  - intros o Hu. apply Certificate_getEncodedHex_unsigned, (unsigned_hTLV K o Hu).
  - intros o o' Hs.
    apply Certificate_sign_Ok in Hs
      as (tbs & tbs1 & a & hTBS & hexSig & hAlg & _ & _ & _ & _ & _ & _ & _ & _ & Hh & Hm).
    eexists. split; [exact Hh|]. intros n. rewrite after_getEncodedHex_state.
    unfold Certificate.getEncodedHex. run_st. now rewrite Hm, Hh.
Qed.

(** An unsigned certificate, also after a [sign] that threw for want of a
    key; and a signed one, asked three times. *)
Lemma Certificate_getEncodedHex_after_sign_only_witness :
  Certificate.getEncodedHex (snd (Certificate.sign (Sample.kernel true) Sample.cert_without_key))
  = (Throw "not signed yet",
     snd (Certificate.sign (Sample.kernel true) Sample.cert_without_key)) /\
  exists h,
    Certificate.hTLV (snd (Certificate.sign (Sample.kernel true) Sample.cert)) = Some h /\
    fst (Certificate.getEncodedHex
           (Certificate.after_getEncodedHex 2
              (snd (Certificate.sign (Sample.kernel true) Sample.cert)))) = Ok h.
Proof.
  destruct (Certificate_getEncodedHex_after_sign_only (Sample.kernel true)) as [Hu Hs].
  split.
  - apply Hu.
    apply (Certificate.unsigned_sign_threw _ Sample.cert_without_key
             "init failed for null key").
    + constructor.
    + reflexivity.
  - destruct (Hs Sample.cert (snd (Certificate.sign (Sample.kernel true) Sample.cert)))
      as (h & Hh & Hn); [reflexivity|].
    exists h. split; [exact Hh|]. now rewrite (Hn 2%nat).
Defined.

(** Beside C6: nothing in the file sets [isModified] again, and a change
    of the TBSCertificate after [sign] leaves the stored encoding in
    place. *)
Remark Certificate_getEncodedHex_after_tbs_change K o o' f :
  Certificate.sign K o = (Ok tt, o') ->
  exists h, Certificate.hTLV o' = Some h /\
    fst (Certificate.getEncodedHex
           (Certificate.set_asn1TBSCert (option_map f (Certificate.asn1TBSCert o')) o'))
    = Ok h.
Proof.
  intros Hs.
  apply Certificate_sign_Ok in Hs
    as (tbs & tbs1 & a & hTBS & hexSig & hAlg & _ & _ & _ & _ & _ & _ & _ & _ & Hh & Hm).
  eexists. split; [exact Hh|].
  unfold Certificate.getEncodedHex. run_st.
  cbn [Certificate.isModified Certificate.hTLV Certificate.set_asn1TBSCert].
  now rewrite Hm, Hh.
Qed.

(** *** CRL *)

Lemma TBSCertList_getEncodedHex_again K o r o' :
  TBSCertList.getEncodedHex K o = (r, o') ->
  fst (TBSCertList.getEncodedHex K o') = r.
Proof.
  unfold TBSCertList.getEncodedHex. run_st.
  destruct (getEncodedHex K (DERSequence (TBSCertList.fields o))) as [h|m] eqn:Hh;
    intros [= <- <-]; unfold TBSCertList.fields in *; cbn in *; now rewrite Hh.
Qed.

Lemma on_asn1TBSCertList_Ok_inv {A} (m : ST TBSCertList.t A) o a o1 :
  CRL.on_asn1TBSCertList m o = (Ok a, o1) ->
  exists tbs tbs', CRL.asn1TBSCertList o = Some tbs /\
                   m tbs = (Ok a, tbs') /\
                   o1 = CRL.set_asn1TBSCertList (Some tbs') o.
Proof.
  unfold CRL.on_asn1TBSCertList.
  destruct (CRL.asn1TBSCertList o) as [tbs|]; [|discriminate].
  destruct (m tbs) as [r tbs'] eqn:Hm. intros [= -> <-]. eauto.
Qed.

(** What [CRL.sign] has done when it returned: a global [sig] exists, and
    the signature is the one of ['SHA1withRSA'], whatever algorithm the
    TBSCertList declares. *)
Lemma CRL_sign_Ok K o o' :
  CRL.sign K o = (Ok tt, o') ->
  exists tbs tbs1 hTBS hexSig,
    global_sig K = true /\
    CRL.asn1TBSCertList o = Some tbs /\
    TBSCertList.getEncodedHex K tbs = (Ok hTBS, tbs1) /\
    Signature_sign K (Some "SHA1withRSA") (Some "cryptojs/jsrsa") (CRL.prvKey o) hTBS
      = Ok hexSig /\
    CRL.asn1SignatureAlg o' = TBSCertList.asn1SignatureAlg tbs /\
    CRL.hexSig o' = Some hexSig.
Proof.
  unfold CRL.sign. intros H.
  inv_bind H. apply on_asn1TBSCertList_Ok_inv in Hstep as (tbs & tbs0 & Htbs & Hget & ->).
  cbv [bindS getS retS] in Hget. injection Hget as <- <-.
  inv_bind H. cbv [modifyS] in Hstep. injection Hstep as _ <-.
  inv_bind H. cbv [liftR] in Hstep. injection Hstep as Hnew <-.
  inv_bind H. destruct (global_sig K) eqn:Hglobal; [|discriminate].
  cbv [retS] in Hstep. injection Hstep as _ <-.
  inv_bind H. cbv [getS] in Hstep. injection Hstep as <- <-.
  inv_bind H. cbv [liftR] in Hstep. injection Hstep as Hinit <-.
  inv_bind H. apply on_asn1TBSCertList_Ok_inv in Hstep as (tbs' & tbs1 & Htbs' & Henc & ->).
  cbn in Htbs'. injection Htbs' as <-.
  inv_bind H. cbv [liftR] in Hstep. injection Hstep as Hsign <-.
  inv_bind H. cbv [modifyS] in Hstep. injection Hstep as _ <-.
  inv_bind H. cbv [modifyS] in Hstep. injection Hstep as _ <-.
  inv_bind H. unfold CRL.signed_encoding in Hstep.
  inv_bind Hstep.
  unfold Certificate.attempt, CRL.on_asn1TBSCertList in Hstep0.
  cbn [CRL.asn1TBSCertList CRL.set_asn1Sig CRL.set_hexSig CRL.set_asn1TBSCertList
       CRL.set_asn1SignatureAlg] in Hstep0.
  destruct (TBSCertList.getEncodedHex K tbs1) as [r tbs2].
  injection Hstep0 as <- <-.
  cbv [liftR] in Hstep. injection Hstep as _ <-.
  cbv [bindS modifyS] in H. injection H as <-.
  exists tbs, tbs1, a3, a4. repeat split; assumption.
Qed.

(** C3 at the input where the code departs from it: a CRL whose
    TBSCertList declares SHA256withRSA.  Where [sign] returns, the
    signature is the one of SHA1withRSA while the copied identifier says
    SHA256withRSA; without a global [sig] it throws a ReferenceError. *)
Theorem CRL_sign_ignores_declared_algorithm :
  option_map nameAlg (TBSCertList.asn1SignatureAlg Sample.tbscertlist)
    = Some (Some "SHA256withRSA") /\
  (forall K o', CRL.sign K Sample.crl = (Ok tt, o') ->
     option_map nameAlg (CRL.asn1SignatureAlg o') = Some (Some "SHA256withRSA") /\
     exists hTBS hexSig,
       fst (TBSCertList.getEncodedHex K Sample.tbscertlist) = Ok hTBS /\
       Signature_sign K (Some "SHA1withRSA") (Some "cryptojs/jsrsa") (Some "key") hTBS
         = Ok hexSig /\
       CRL.hexSig o' = Some hexSig) /\
  CRL.hexSig (snd (CRL.sign (Sample.kernel true) Sample.crl))
    = Some (Sample.sample_signature (Some "SHA1withRSA")) /\
  Sample.sample_signature (Some "SHA1withRSA")
    <> Sample.sample_signature (Some "SHA256withRSA") /\
  fst (CRL.sign (Sample.kernel false) Sample.crl) = Throw "ReferenceError: sig is not defined".
Proof.
  split; [reflexivity|]. split; [|repeat split; discriminate].
  intros K o' Hs.
  apply CRL_sign_Ok in Hs as (tbs & tbs1 & hTBS & hexSig & _ & Htbs & Henc & Hsign & Ha & Hh).
  cbn in Htbs. injection Htbs as <-. split.
  - now rewrite Ha.
  - exists hTBS, hexSig. rewrite Henc. repeat split; assumption.
Qed.

(** The part of C3 that holds: [Certificate.sign] signs the encoding of
    the TBSCertificate with the algorithm its identifier names, and
    stores SEQUENCE{tbs, sigAlg, BIT STRING 00||signature}. *)
Lemma Certificate_sign_uses_declared_algorithm K o o' :
  Certificate.sign K o = (Ok tt, o') ->
  exists tbs a hTBS hexSig hAlg,
    Certificate.asn1TBSCert o = Some tbs /\
    TBSCertificate.asn1SignatureAlg tbs = Some a /\
    fst (TBSCertificate.getEncodedHex K tbs) = Ok hTBS /\
    algid_encoding a = Ok hAlg /\
    Signature_sign K (nameAlg a) None (Certificate.prvKey o) hTBS = Ok hexSig /\
    Certificate.asn1SignatureAlg o' = Some a /\
    Certificate.hTLV o' =
      Some (DERSequence_hex K [hTBS; hAlg; DERBitString_hex K ("00" +:+ hexSig)]).
Proof.
  intros Hs.
  apply Certificate_sign_Ok in Hs
    as (tbs & tbs1 & a & hTBS & hexSig & hAlg & H1 & H2 & H3 & H4 & H5 & H6 & _ & _ & H9 & _).
  exists tbs, a, hTBS, hexSig, hAlg. rewrite H3. repeat split; assumption.
Qed.

End ASN1X509Facts.

(** ** More of jws-3.3.js: what [verify] and [verifyJWT] accept *)

Module JWSMoreFacts.
Import JSStr JS JWS JSStrFacts JSNumFacts JWSFacts.

Section WithEngine.
Context (E : Engine).

Lemma assoc_In k t v : assoc k t = Some v -> In (k, v) t.
Proof.
  induction t as [|[k' v'] t IH]; [discriminate|]. cbn [assoc].
  destruct (String.eqb_spec k k') as [->|Hne].
  - intros [= ->]. now left.
  - intros H. right. now apply IH.
Qed.

Lemma jwsalg2sigalg_Entry_In alg sigAlg :
  jwsalg2sigalg alg = Entry sigAlg -> In (alg, sigAlg) jwsalg2sigalg_table.
Proof.
  unfold jwsalg2sigalg. destruct (assoc alg jwsalg2sigalg_table) eqn:Ha.
  - intros [= ->]. now apply assoc_In.
  - now destruct (existsb _ _).
Qed.

Lemma verify_with_alg_Ok_inv alg input hSig key acceptAlgs b :
  verify_with_alg E alg input hSig key acceptAlgs = Ok b ->
  exists key' sigAlg,
    check_acceptAlgs alg acceptAlgs = Ok tt /\
    (alg = "none" \/ key <> KeyNull) /\
    ((key' = key /\ forall k, key = KeyString k -> includes "-----BEGIN " k = false) \/
     (exists k, key = KeyString k /\ includes "-----BEGIN " k = true /\
                getKey E k = Ok key')) /\
    (substr0 2 alg = "RS" \/ substr0 2 alg = "PS" -> exists h, key' = KeyRSA h) /\
    (substr0 2 alg = "ES" -> exists h, key' = KeyECDSA h) /\
    jwsalg2sigalg alg = Entry sigAlg /\ sigAlg <> "none" /\
    (substr0 4 sigAlg = "Hmac" ->
       key' <> KeyUndefined /\
       exists hSig2, Mac_doFinal E sigAlg key' input = Ok hSig2 /\ b = String.eqb hSig hSig2).
Proof.
  unfold verify_with_alg. intros H.
  destruct (check_acceptAlgs alg acceptAlgs) as [[]|m] eqn:Hacc; cbn [bindR] in H; [|discriminate].
  destruct (negb (String.eqb alg "none") && is_null key) eqn:Hnull;
    cbn [bindR] in H; [discriminate|].
  match type of H with
  | bindR ?c _ = _ => destruct c as [key'|m] eqn:Hconv; cbn [bindR] in H; [|discriminate]
  end.
  match type of H with
  | bindR ?c _ = _ => destruct c as [[]|m] eqn:Hrsa; cbn [bindR] in H; [|discriminate]
  end.
  match type of H with
  | bindR ?c _ = _ => destruct c as [[]|m] eqn:Hec; cbn [bindR] in H; [|discriminate]
  end.
  destruct (jwsalg2sigalg alg) as [sigAlg| |] eqn:Htab; try discriminate.
  exists key', sigAlg. split; [reflexivity|].
  split.
  { destruct (String.eqb_spec alg "none") as [->|Hne]; [now left|right].
    intros ->. cbn in Hnull. discriminate. }
  split.
  { destruct key; try (injection Hconv as <-; left; split; [reflexivity|discriminate]).
    destruct (includes "-----BEGIN " s) eqn:Hpem.
    - right. now exists s.
    - injection Hconv as <-. left. split; [reflexivity|]. now intros k [= <-]. }
  split.
  { intros Hty.
    assert (Hb : String.eqb (substr0 2 alg) "RS" || String.eqb (substr0 2 alg) "PS" = true).
    { destruct Hty as [-> | ->]; reflexivity. }
    rewrite Hb in Hrsa. destruct key'; try discriminate. now exists h. }
  split.
  { intros Hty. rewrite Hty in Hec. cbn in Hec. destruct key'; try discriminate. now exists h. }
  split; [reflexivity|].
  destruct (String.eqb_spec sigAlg "none") as [->|Hnone]; [discriminate|].
  split; [assumption|].
  intros Hmac. rewrite Hmac in H.
  change (String.eqb "Hmac" "Hmac") with true in H. cbv iota in H.
  destruct key'; try discriminate.
  all: split; [discriminate|].
  all: cbv iota in H.
  all: match type of H with
       | bindR ?c _ = _ => destruct c as [h2|m] eqn:Hm; cbn [bindR] in H; [|discriminate]
       end.
  all: exists h2; (split; [reflexivity|]); now injection H as <-.
Qed.

(** What [verify] has done when it returns a boolean on three segments. *)
Lemma verify_Ok_inv sJWS key acceptAlgs b :
  verify E sJWS key acceptAlgs = Ok b ->
  (length (split "."%char sJWS) <> 3%nat /\ b = false) \/
  exists uHeader uPayload uSig hSig sHeader pHeader alg,
    split "."%char sJWS = [uHeader; uPayload; uSig] /\
    b64utohex E (Some uSig) = Ok hSig /\
    b64utoutf8 E (Some uHeader) = Ok sHeader /\
    readSafeJSONString E sHeader = Some pHeader /\
    get pHeader "alg" = JStr alg /\
    verify_with_alg E alg (uHeader +:+ "." +:+ uPayload) hSig key acceptAlgs = Ok b.
Proof.
  unfold verify. intros H.
  destruct (split "."%char sJWS) as [|uHeader [|uPayload [|uSig [|x l]]]];
    try (left; split; [discriminate|now injection H as <-]).
  right. cbv zeta in H.
  destruct (b64utohex E (Some uSig)) as [hSig|m] eqn:Hsig; cbn [bindR] in H; [|discriminate].
  destruct (b64utoutf8 E (Some uHeader)) as [sHeader|m] eqn:Hhead; cbn [bindR] in H;
    [|discriminate].
  destruct (readSafeJSONString E sHeader) as [pHeader|] eqn:Hread; cbn [prop bindR] in H;
    [|discriminate].
  destruct (get pHeader "alg") as [| | | |alg| |] eqn:Halg; try discriminate.
  now exists uHeader, uPayload, uSig, hSig, sHeader, pHeader, alg.
Qed.

(** X1: [verify] returns a boolean only on a token that does not have
    three segments (then [false]) or whose header names one of the eleven
    algorithms HS256 to PS512; for ['none'] and for every other name it
    raises. *)
Theorem verify_boolean_only_supported_alg sJWS key acceptAlgs b :
  verify E sJWS key acceptAlgs = Ok b ->
  (length (split "."%char sJWS) <> 3%nat /\ b = false) \/
  exists uHeader uPayload uSig sHeader pHeader alg,
    split "."%char sJWS = [uHeader; uPayload; uSig] /\
    b64utoutf8 E (Some uHeader) = Ok sHeader /\
    readSafeJSONString E sHeader = Some pHeader /\
    get pHeader "alg" = JStr alg /\
    In alg ["HS256"; "HS384"; "HS512"; "RS256"; "RS384"; "RS512";
            "ES256"; "ES384"; "PS256"; "PS384"; "PS512"].
Proof.
  intros H. destruct (verify_Ok_inv _ _ _ _ H) as [Hl|Hr]; [now left|right].
  destruct Hr as (uHeader & uPayload & uSig & hSig & sHeader & pHeader & alg
                  & Hsplit & Hsig & Hhead & Hread & Halg & Hv).
  exists uHeader, uPayload, uSig, sHeader, pHeader, alg.
  repeat (split; [assumption|]).
  destruct (verify_with_alg_Ok_inv _ _ _ _ _ _ Hv)
    as (key' & sigAlg & _ & _ & _ & _ & _ & Htab & Hnone & _).
  apply jwsalg2sigalg_Entry_In in Htab. cbn [In jwsalg2sigalg_table] in Htab.
  repeat (destruct Htab as [[= <- <-]|Htab];
          [try (now destruct Hnone); cbn [In]; auto 20|]).
  destruct Htab.
Qed.

(** X2: when [verify] returns a boolean for a header algorithm [alg], the
    key was not [null]; the key it used (the argument, or what [getKey]
    made of a PEM text) is an RSAKeyEx object if [alg] starts with RS or
    PS, an ECDSA object if it starts with ES, and not [undefined] if it
    starts with HS. *)
Theorem verify_boolean_key_fits_alg
    sJWS key acceptAlgs b uHeader uPayload uSig sHeader pHeader alg :
  split "."%char sJWS = [uHeader; uPayload; uSig] ->
  b64utoutf8 E (Some uHeader) = Ok sHeader ->
  readSafeJSONString E sHeader = Some pHeader ->
  get pHeader "alg" = JStr alg ->
  verify E sJWS key acceptAlgs = Ok b ->
  key <> KeyNull /\
  exists key',
    ((key' = key /\ forall k, key = KeyString k -> includes "-----BEGIN " k = false) \/
     (exists k, key = KeyString k /\ includes "-----BEGIN " k = true /\
                getKey E k = Ok key')) /\
    (substr0 2 alg = "RS" \/ substr0 2 alg = "PS" -> exists h, key' = KeyRSA h) /\
    (substr0 2 alg = "ES" -> exists h, key' = KeyECDSA h) /\
    (substr0 2 alg = "HS" -> key' <> KeyUndefined).
Proof.
  intros Hsplit Hhead Hread Halg H.
  destruct (verify_Ok_inv _ _ _ _ H) as [[Hl _]|Hr].
  { rewrite Hsplit in Hl. now destruct Hl. }
  destruct Hr as (uHeader' & uPayload' & uSig' & hSig & sHeader' & pHeader' & alg'
                  & Hsplit' & Hsig & Hhead' & Hread' & Halg' & Hv).
  rewrite Hsplit in Hsplit'. injection Hsplit' as <- <- <-.
  rewrite Hhead in Hhead'. injection Hhead' as <-.
  rewrite Hread in Hread'. injection Hread' as <-.
  rewrite Halg in Halg'. injection Halg' as <-.
  destruct (verify_with_alg_Ok_inv _ _ _ _ _ _ Hv)
    as (key' & sigAlg & _ & Hnull & Hconv & Hrsa & Hec & Htab & Hnone & Hmac).
  assert (Hin := jwsalg2sigalg_Entry_In _ _ Htab).
  split.
  { destruct Hnull as [->|Hk]; [|assumption].
    exfalso. cbn [In jwsalg2sigalg_table] in Hin.
    repeat (destruct Hin as [Hin|Hin];
            [try discriminate Hin; injection Hin as <-; now apply Hnone|]).
    destruct Hin. }
  exists key'. repeat (split; [assumption|]).
  intros Hhs. apply Hmac.
  cbn [In jwsalg2sigalg_table] in Hin.
  repeat (destruct Hin as [[= <- <-]|Hin]; [try reflexivity; discriminate Hhs|]).
  destruct Hin.
Qed.

(** X28: the list of accepted algorithms is looked at only when it is
    an array that is not empty: with an empty array, or with a value that
    is no array, [verify] answers as it does without the argument. *)
Theorem verify_ignores_empty_accept_list sJWS key acceptAlgs :
  (forall x l, acceptAlgs <> JArr (x :: l)) ->
  verify E sJWS key acceptAlgs = verify E sJWS key JUndefined.
Proof.
  intros Hacc.
  assert (Hc : forall alg, check_acceptAlgs alg acceptAlgs = Ok tt).
  { intros alg. destruct acceptAlgs as [| | | | |[|x l]|]; try reflexivity.
    now destruct (Hacc x l). }
  unfold verify.
  destruct (split "."%char sJWS) as [|uHeader [|uPayload [|uSig [|x l]]]]; try reflexivity.
  cbv zeta. destruct (b64utohex E (Some uSig)); cbn [bindR]; [|reflexivity].
  destruct (b64utoutf8 E (Some uHeader)); cbn [bindR]; [|reflexivity].
  destruct (prop _ "alg") as [[| | | |alg| |]|]; cbn [bindR]; try reflexivity.
  unfold verify_with_alg. now rewrite Hc.
Qed.

(** *** [verifyJWT]: what a [true] answer means *)

Lemma unless_false_true c k :
  unless_false c k = Ok true <-> c = Ok true /\ k = Ok true.
Proof.
  unfold unless_false. destruct c as [[]|m]; cbn [bindR]; split.
  all: try (intros [? ?]); try (intros ?); try discriminate; auto.
Qed.


Lemma verifyJWT_true_inv clock sJWT key acceptField :
  fst (verifyJWT E clock sJWT key acceptField) = Ok true ->
  exists pHeader pPayload,
    parseJWT E sJWT = Ok (pHeader, pPayload) /\
    claim_checks E pHeader pPayload acceptField = Ok true /\
    exp_check pPayload (default_gracePeriod acceptField)
      (verification_time clock acceptField) = Ok true /\
    nbf_check pPayload (default_gracePeriod acceptField)
      (verification_time clock acceptField) = Ok true /\
    iat_check pPayload (default_gracePeriod acceptField)
      (verification_time clock acceptField) = Ok true /\
    jti_check pPayload (default_gracePeriod acceptField) = Ok true /\
    verify E sJWT key (get acceptField "alg") = Ok true.
Proof.
  unfold verifyJWT.
  destruct (parseJWT E sJWT) as [[pHeader pPayload]|m] eqn:Hp; [|discriminate].
  destruct (claim_checks E pHeader pPayload acceptField) as [[]|m] eqn:Hc;
    try discriminate.
  cbn [fst]. rewrite !unless_false_true.
  rewrite default_gracePeriod_get_ne by discriminate.
  intros (H1 & H2 & H3 & H4 & H5 & _). now exists pHeader, pPayload.
Qed.




Lemma exp_check_monotone pPayload af1 af2 now :
  gracePeriod af1 <= gracePeriod af2 ->
  exp_check pPayload af1 now = Ok true -> exp_check pPayload af2 now = Ok true.
Proof.
  unfold exp_check. intros Hg. destruct (prop pPayload "exp") as [v|m]; cbn [bindR]; auto.
  destruct v; auto. intros [= H]. f_equal.
  apply negb_true_iff, Z.ltb_ge in H. apply negb_true_iff, Z.ltb_ge.
  etransitivity; [exact H|]. apply to_double_mono. lia.
Qed.

Lemma nbf_check_monotone pPayload af1 af2 now :
  gracePeriod af1 <= gracePeriod af2 ->
  nbf_check pPayload af1 now = Ok true -> nbf_check pPayload af2 now = Ok true.
Proof.
  unfold nbf_check. intros Hg. destruct (prop pPayload "nbf") as [v|m]; cbn [bindR]; auto.
  destruct v; auto. intros [= H]. f_equal.
  apply negb_true_iff, Z.ltb_ge in H. apply negb_true_iff, Z.ltb_ge.
  etransitivity; [|exact H]. apply to_double_mono. lia.
Qed.

Lemma iat_check_monotone pPayload af1 af2 now :
  gracePeriod af1 <= gracePeriod af2 ->
  iat_check pPayload af1 now = Ok true -> iat_check pPayload af2 now = Ok true.
Proof.
  unfold iat_check. intros Hg. destruct (prop pPayload "iat") as [v|m]; cbn [bindR]; auto.
  destruct v; auto. intros [= H]. f_equal.
  apply negb_true_iff, Z.ltb_ge in H. apply negb_true_iff, Z.ltb_ge.
  etransitivity; [|exact H]. apply to_double_mono. lia.
Qed.

(** [acceptField] entries and what checks 4 to 7 make of them. *)
Lemma member_check_ext name pPayload (af1 af2 : gmap string JSValue) :
  get af1 name = get af2 name \/
  (typeof (get af1 name) <> "object" /\ typeof (get af2 name) <> "object") ->
  member_check name pPayload af1 = member_check name pPayload af2.
Proof.
  unfold member_check. intros [-> | [H1 H2]]; [reflexivity|].
  apply String.eqb_neq in H1, H2. now rewrite H1, H2.
Qed.

Lemma aud_check_ext pPayload (af1 af2 : gmap string JSValue) :
  get af1 "aud" = get af2 "aud" \/
  (typeof (get af1 "aud") <> "object" /\ typeof (get af2 "aud") <> "object") ->
  aud_check E pPayload af1 = aud_check E pPayload af2.
Proof.
  unfold aud_check. intros [-> | [H1 H2]]; [reflexivity|].
  apply String.eqb_neq in H1, H2. now rewrite H1, H2.
Qed.

Lemma claim_checks_ext pHeader pPayload (af1 af2 : gmap string JSValue) :
  get af1 "alg" = get af2 "alg" ->
  (forall name, name = "iss" \/ name = "sub" \/ name = "aud" ->
     get af1 name = get af2 name \/
     (typeof (get af1 name) <> "object" /\ typeof (get af2 name) <> "object")) ->
  claim_checks E pHeader pPayload af1 = claim_checks E pHeader pPayload af2.
Proof.
  intros Halg H. unfold claim_checks, alg_check. rewrite Halg.
  rewrite (member_check_ext "iss" pPayload af1 af2) by (apply H; auto).
  rewrite (member_check_ext "sub" pPayload af1 af2) by (apply H; auto).
  rewrite (aud_check_ext pPayload af1 af2) by (apply H; auto).
  reflexivity.
Qed.

(** The answer of [verifyJWT] depends on seven entries of [acceptField]
    only, and on ['iss'], ['sub'] and ['aud'] only when their type is
    object. *)
Lemma verifyJWT_fst_ext clock sJWT key (af1 af2 : gmap string JSValue) :
  (forall k, k = "alg" \/ k = "verifyAt" \/ k = "gracePeriod" \/ k = "jti" ->
     get af1 k = get af2 k) ->
  (forall name, name = "iss" \/ name = "sub" \/ name = "aud" ->
     get af1 name = get af2 name \/
     (typeof (get af1 name) <> "object" /\ typeof (get af2 name) <> "object")) ->
  fst (verifyJWT E clock sJWT key af1) = fst (verifyJWT E clock sJWT key af2).
Proof.
  intros Hk Hn. unfold verifyJWT.
  destruct (parseJWT E sJWT) as [[pHeader pPayload]|m]; [|reflexivity].
  rewrite (claim_checks_ext pHeader pPayload af1 af2) by (auto using Hk).
  destruct (claim_checks E pHeader pPayload af2) as [[]|m]; try reflexivity.
  cbn [fst]. unfold verification_time, exp_check, nbf_check, iat_check, jti_check.
  rewrite !gracePeriod_default, !default_gracePeriod_get_ne by discriminate.
  now rewrite !(Hk "verifyAt"), !(Hk "gracePeriod"), !(Hk "jti"), !(Hk "alg") by auto.
Qed.

Lemma get_insert_ne (d : gmap string JSValue) k k' v :
  k <> k' -> get (<[k := v]> d) k' = get d k'.
Proof. intros H. unfold get. now rewrite lookup_insert_ne. Qed.

Lemma get_insert_eq (d : gmap string JSValue) k v : get (<[k := v]> d) k = v.
Proof. unfold get. now rewrite lookup_insert_eq. Qed.

Lemma get_delete_ne (d : gmap string JSValue) k k' :
  k <> k' -> get (delete k d) k' = get d k'.
Proof. intros H. unfold get. now rewrite lookup_delete_ne. Qed.

Lemma get_delete_eq (d : gmap string JSValue) k : get (delete k d) k = JUndefined.
Proof. unfold get. now rewrite lookup_delete_eq. Qed.

(** X5: a token that [verifyJWT] accepts is accepted with every larger
    grace period, everything else unchanged. *)
Theorem verifyJWT_gracePeriod_monotone clock sJWT key acceptField g' :
  fst (verifyJWT E clock sJWT key acceptField) = Ok true ->
  match get acceptField "gracePeriod" with JNum g => g | _ => 0 end <= g' ->
  fst (verifyJWT E clock sJWT key (<["gracePeriod" := JNum g']> acceptField)) = Ok true.
Proof.
  intros H Hg.
  destruct (verifyJWT_true_inv _ _ _ _ H)
    as (pHeader & pPayload & Hp & Hc & Hexp & Hnbf & Hiat & Hjti & Hv).
  set (af2 := <["gracePeriod" := JNum g']> acceptField).
  assert (Hne : forall k, k <> "gracePeriod" -> get af2 k = get acceptField k).
  { intros k Hk. apply get_insert_ne. congruence. }
  assert (Hc2 : claim_checks E pHeader pPayload af2 = Ok true).
  { rewrite <- Hc. apply claim_checks_ext; [now apply Hne|].
    intros name [-> | [-> | ->]]; left; now apply Hne. }
  rewrite (verifyJWT_after_claim_checks _ _ _ _ _ _ _ Hp Hc2). cbn [fst].
  assert (Hd : default_gracePeriod af2 = af2).
  { apply (default_gracePeriod_number _ g'). apply get_insert_eq. }
  assert (Hgr : gracePeriod (default_gracePeriod acceptField) <= gracePeriod af2).
  { rewrite gracePeriod_default. unfold gracePeriod at 1, af2.
    now rewrite get_insert_eq. }
  assert (Hnow : verification_time clock af2 = verification_time clock acceptField).
  { unfold verification_time. now rewrite Hne. }
  rewrite Hd, Hnow, !unless_false_true.
  split; [now apply (exp_check_monotone _ _ _ _ Hgr)|].
  split; [now apply (nbf_check_monotone _ _ _ _ Hgr)|].
  split; [now apply (iat_check_monotone _ _ _ _ Hgr)|].
  split.
  { unfold jti_check in *. rewrite default_gracePeriod_get_ne in Hjti by discriminate.
    now rewrite Hne. }
  split; [|reflexivity]. now rewrite Hne.
Qed.

(** X6: an [acceptField] entry ['iss'], ['sub'] or ['aud'] whose type is
    not object (a string, for one) is not looked at: [verifyJWT] answers
    as if the entry were absent. *)
Theorem verifyJWT_ignores_non_object_accept clock sJWT key acceptField name :
  name = "iss" \/ name = "sub" \/ name = "aud" ->
  typeof (get acceptField name) <> "object" ->
  fst (verifyJWT E clock sJWT key acceptField)
  = fst (verifyJWT E clock sJWT key (delete name acceptField)).
Proof.
  intros Hname Hty. apply verifyJWT_fst_ext.
  - intros k Hk. symmetry. apply get_delete_ne.
    destruct Hname as [-> | [-> | ->]], Hk as [-> | [-> | [-> | ->]]]; discriminate.
  - intros k Hk. destruct (String.eqb_spec name k) as [<-|Hne].
    + right. split; [assumption|]. rewrite get_delete_eq. discriminate.
    + left. symmetry. now apply get_delete_ne.
Qed.

(** *** [includedArray] *)

Lemma includedArray_loop_array a1 a2 :
  includedArray_loop a1 (JArr a2)
  = Ok (forallb (fun x => existsb (strict_eq x) a2) a1).
Proof.
  induction a1 as [|x a1 IH]; [reflexivity|].
  cbn [includedArray_loop inArray bindR forallb].
  destruct (existsb (strict_eq x) a2); cbn [negb andb]; [exact IH|reflexivity].
Qed.

(** X7: on two arrays [includedArray(a1, a2)] never raises and is [true]
    exactly when every element of [a1] is identical ([===]) to some
    element of [a2], whatever the order of either array; for an empty
    [a1] it is [true] whatever [a2] is, even [null]. *)
Theorem includedArray_is_inclusion a1 a2 :
  (exists b, includedArray E (JArr a1) (JArr a2) = Ok b) /\
  (includedArray E (JArr a1) (JArr a2) = Ok true <->
   forall x, In x a1 -> exists y, In y a2 /\ strict_eq x y = true) /\
  (forall v, includedArray E (JArr []) v = Ok true).
Proof.
  cbn [includedArray]. rewrite includedArray_loop_array.
  split; [eauto|]. split; [|reflexivity]. split.
  - intros [= H] x Hx. rewrite forallb_forall in H.
    apply existsb_exists. now apply H.
  - intros H. f_equal. apply forallb_forall. intros x Hx.
    apply existsb_exists. now apply H.
Qed.

End WithEngine.

Import Sample.

Lemma verify_boolean_only_supported_alg_witness :
  (length (split "."%char hs256_exp990) <> 3%nat /\ true = false) \/
  exists uHeader uPayload uSig sHeader pHeader alg,
    split "."%char hs256_exp990 = [uHeader; uPayload; uSig] /\
    b64utoutf8 Sample.engine (Some uHeader) = Ok sHeader /\
    readSafeJSONString Sample.engine sHeader = Some pHeader /\
    get pHeader "alg" = JStr alg /\
    In alg ["HS256"; "HS384"; "HS512"; "RS256"; "RS384"; "RS512";
            "ES256"; "ES384"; "PS256"; "PS384"; "PS512"].
Proof.
  apply (verify_boolean_only_supported_alg Sample.engine hs256_exp990
           (KeyString "secret") (JArr [JStr "HS256"]) true).
  reflexivity.
Defined.

Lemma verify_boolean_key_fits_alg_witness :
  KeyRSA "n,e" <> KeyNull /\
  exists key',
    ((key' = KeyRSA "n,e" /\
      forall k, KeyRSA "n,e" = KeyString k -> includes "-----BEGIN " k = false) \/
     (exists k, KeyRSA "n,e" = KeyString k /\ includes "-----BEGIN " k = true /\
                getKey Sample.engine k = Ok key')) /\
    (substr0 2 "RS256" = "RS" \/ substr0 2 "RS256" = "PS" -> exists h, key' = KeyRSA h) /\
    (substr0 2 "RS256" = "ES" -> exists h, key' = KeyECDSA h) /\
    (substr0 2 "RS256" = "HS" -> key' <> KeyUndefined).
Proof.
  apply (verify_boolean_key_fits_alg Sample.engine "{alg:RS256}.{exp:990}.736967"
           (KeyRSA "n,e") (JArr [JStr "RS256"]) true
           "{alg:RS256}" "{exp:990}" "736967" "{alg:RS256}" {[ "alg" := JStr "RS256" ]});
    reflexivity.
Defined.

(** includedArray(['a', 'b'], ['b', 'c', 'a']) of the documentation. *)
Lemma includedArray_is_inclusion_witness :
  includedArray Sample.engine (JArr [JStr "a"; JStr "b"])
    (JArr [JStr "b"; JStr "c"; JStr "a"]) = Ok true.
Proof.
  apply (proj2 (proj1 (proj2 (includedArray_is_inclusion Sample.engine
                                [JStr "a"; JStr "b"] [JStr "b"; JStr "c"; JStr "a"])))).
  intros x [<-|[<-|[]]].
  - exists (JStr "a"). split; [cbn [In]; auto|reflexivity].
  - exists (JStr "b"). split; [cbn [In]; auto|reflexivity].
Defined.

(** With an empty list a token signed with HS256 is accepted. *)
Lemma verify_ignores_empty_accept_list_witness :
  verify Sample.engine hs256_exp990 (KeyString "secret") (JArr [])
  = verify Sample.engine hs256_exp990 (KeyString "secret") JUndefined /\
  verify Sample.engine hs256_exp990 (KeyString "secret") (JArr []) = Ok true.
Proof.
  split; [|reflexivity].
  apply (verify_ignores_empty_accept_list Sample.engine hs256_exp990 (KeyString "secret")
           (JArr [])).
  discriminate.
Defined.



Lemma verifyJWT_gracePeriod_monotone_witness :
  fst (verifyJWT Sample.engine 1000 hs256_exp990 (KeyString "secret")
         (<["gracePeriod" := JNum 30]> (<["gracePeriod" := JNum 20]> accept_HS256)))
  = Ok true.
Proof.
  apply (verifyJWT_gracePeriod_monotone Sample.engine 1000 hs256_exp990
           (KeyString "secret") (<["gracePeriod" := JNum 20]> accept_HS256) 30).
  - reflexivity.
  - vm_compute. discriminate.
Defined.

(** With [acceptField.iss] the string 'alice' a token issued by 'mallory'
    is accepted, as it is without the entry. *)
Lemma verifyJWT_ignores_non_object_accept_witness :
  fst (verifyJWT Sample2.engine 1000 "{alg:HS256}.{iss:mallory}.6d6163"
         (KeyString "secret") (<["iss" := JStr "alice"]> accept_HS256))
  = fst (verifyJWT Sample2.engine 1000 "{alg:HS256}.{iss:mallory}.6d6163"
           (KeyString "secret") (delete "iss" (<["iss" := JStr "alice"]> accept_HS256))).
Proof.
  apply (verifyJWT_ignores_non_object_accept Sample2.engine 1000
           "{alg:HS256}.{iss:mallory}.6d6163" (KeyString "secret")
           (<["iss" := JStr "alice"]> accept_HS256) "iss").
  - now left.
  - vm_compute. discriminate.
Defined.

End JWSMoreFacts.

(** ** More of jws-3.3.js: [sign], [parse], [parseJWS], [getIntDate] *)

Module JWSSignFacts.
Import JSStr JS JWS JWSSign JSStrFacts.

Section WithEngines.
Context (E : Engine) (S : SignEngine).

Lemma strict_eq_eq x y : strict_eq x y = true -> x = y.
Proof.
  destruct x, y; cbn [strict_eq]; try discriminate; intros H; try reflexivity.
  - now apply Bool.eqb_prop in H as ->.
  - now apply Z.eqb_eq in H as ->.
  - now apply String.eqb_eq in H as ->.
Qed.

(** What steps 1 to 4 of [sign] leave when they pass: a header object
    whose ['alg'] is the algorithm signed with; it is the object of the
    caller when the header was passed as an object. *)
Lemma sign_header_Ok_inv alg spHeader a pHeader sHeader hdr' :
  sign_header E S alg spHeader = (Ok (a, pHeader, sHeader), hdr') ->
  exists d, pHeader = Some d /\ get d "alg" = a /\
            hdr' = match spHeader with AnObject _ => AnObject d | AString _ => spHeader end.
Proof.
  unfold sign_header.
  match goal with
  | |- context [match ?c with Ok _ => _ | Throw _ => _ end] =>
      destruct c as [[pH0 sH0]|m] eqn:H1; [|discriminate]
  end.
  match goal with
  | |- context [match ?c with Ok _ => _ | Throw _ => _ end] =>
      destruct c as [[alg1 same1]|m] eqn:H2; [|discriminate]
  end.
  match goal with
  | |- context [match ?c with Ok _ => _ | Throw _ => _ end] =>
      destruct c as [[[pH1 sH1] same2]|m] eqn:H3; [|discriminate]
  end.
  destruct pH1 as [d|]; cbn [prop bindR]; [|destruct spHeader; discriminate].
  destruct (negb (same2 || strict_eq alg1 (get d "alg"))) eqn:Hsame; [discriminate|].
  intros H. injection H as Ha Hp Hs Hh. subst a pHeader sHeader hdr'.
  exists d. split; [reflexivity|].
  split; [|now destruct spHeader].
  apply negb_false_iff, orb_true_iff in Hsame.
  destruct Hsame as [->|Hs]; [|symmetry; now apply strict_eq_eq].
  (* same2 = true: the algorithm was read from, or stored into, the header *)
  destruct (negb (loose_eq_empty alg1) && negb (loose_eq_null alg1)) eqn:Hne.
  - destruct pH0 as [d0|]; cbn [prop bindR] in H3; [|discriminate].
    destruct (is_undefined (get d0 "alg")) eqn:Hu.
    + injection H3 as Hd _. subst d. unfold get. now rewrite lookup_insert_eq.
    + injection H3 as Hd _ Hs. subst d0 same1.
      destruct (loose_eq_empty _ || loose_eq_null _); [|discriminate].
      cbn [prop bindR] in H2. rewrite Hu in H2. cbn [negb] in H2. congruence.
  - injection H3 as Hd _ Hs. subst pH0 same1.
    destruct (loose_eq_empty _ || loose_eq_null _); [|discriminate].
    cbn [prop bindR] in H2.
    destruct (is_undefined (get d "alg")); cbn [negb] in H2; congruence.
Qed.

Lemma sign_with_alg_Ok_inv alg sHeader sPayload key pass token :
  sign_with_alg S alg sHeader sPayload key pass = Ok token ->
  exists sigAlg uHeader uPayload hSig uSig,
    jwsalg2sigalg (toString alg) = Entry sigAlg /\
    utf8tob64u S sHeader = Ok uHeader /\
    utf8tob64u S sPayload = Ok uPayload /\
    (String.eqb (substr0 4 sigAlg) "Hmac" = true ->
       key <> KeyUndefined /\
       Mac_doFinal_prov S sigAlg "cryptojs" key (uHeader +:+ "." +:+ uPayload) = Ok hSig) /\
    hextob64u S hSig = Ok uSig /\
    token = (uHeader +:+ "." +:+ uPayload) +:+ "." +:+ uSig.
Proof.
  unfold sign_with_alg.
  destruct (jwsalg2sigalg (toString alg)) as [sigAlg| |] eqn:Htab; [| |discriminate].
  2:{ destruct (utf8tob64u S sHeader); cbn [bindR]; [|discriminate].
      destruct (utf8tob64u S sPayload); discriminate. }
  destruct (utf8tob64u S sHeader) as [uHeader|] eqn:HuH; cbn [bindR]; [|discriminate].
  destruct (utf8tob64u S sPayload) as [uPayload|] eqn:HuP; cbn [bindR]; [|discriminate].
  match goal with
  | |- bindR ?c _ = _ -> _ => destruct c as [hSig|] eqn:Hsig; cbn [bindR]; [|discriminate]
  end.
  destruct (hextob64u S hSig) as [uSig|] eqn:Hu; cbn [bindR]; [|discriminate].
  intros [= <-]. exists sigAlg, uHeader, uPayload, hSig, uSig.
  repeat (split; [reflexivity|]). split; [|split; [assumption|reflexivity]].
  intros Hmac. rewrite Hmac in Hsig. now destruct key.
Qed.

Lemma split_three uH uP uS :
  occurs "."%char uH = false -> occurs "."%char uP = false ->
  occurs "."%char uS = false ->
  split "."%char ((uH +:+ "." +:+ uP) +:+ "." +:+ uS) = [uH; uP; uS].
Proof.
  intros H1 H2 H3. rewrite append_assoc.
  change (split "."%char (uH +:+ String "."%char (uP +:+ String "."%char uS))
          = [uH; uP; uS]).
  now rewrite !split_app_sep, split_absent.
Qed.

(** The text [sign] encodes as the payload. *)
Lemma sign_eq alg spHeader spPayload key pass :
  sign E S alg spHeader spPayload key pass
  = match sign_header E S alg spHeader with
    | (Throw m, hdr) => (Throw m, hdr)
    | (Ok (alg, _, sHeader), hdr) =>
        (sign_with_alg S alg sHeader
           match spPayload with AString s => s | AnObject d => JSON_stringify S d end
           key pass, hdr)
    end.
Proof. reflexivity. Qed.

(** X8: HMAC round trip.  Let [sign] return a token for a header whose
    algorithm is HS256, HS384 or HS512.  If the header text it emitted
    parses back to the header object, the decoders of [verify] invert the
    encoders of [sign], which emit no ['.'], the MAC does not depend on
    the provider, and the key is neither [null] nor a string holding
    '-----BEGIN ', then [verify] accepts the token with the same key. *)
Theorem sign_verify_HMAC
    alg spHeader spPayload key pass token hdr' a d sHeader acceptAlgs :
  sign E S alg spHeader spPayload key pass = (Ok token, hdr') ->
  sign_header E S alg spHeader = (Ok (JStr a, Some d, sHeader), hdr') ->
  a = "HS256" \/ a = "HS384" \/ a = "HS512" ->
  JSON_parse E sHeader = Some (JObj d) ->
  (forall s u, utf8tob64u S s = Ok u ->
     occurs "."%char u = false /\ b64utoutf8 E (Some u) = Ok s) ->
  (forall h u, hextob64u S h = Ok u ->
     occurs "."%char u = false /\ b64utohex E (Some u) = Ok h) ->
  (forall sigAlg input,
     Mac_doFinal E sigAlg key input = Mac_doFinal_prov S sigAlg "cryptojs" key input) ->
  key <> KeyNull ->
  (forall k, key = KeyString k -> includes "-----BEGIN " k = false) ->
  acceptAlgs = JUndefined \/ acceptAlgs = JArr [JStr a] ->
  verify E token key acceptAlgs = Ok true.
Proof.
  intros Hsign Hhdr Ha Hjson Hutf Hhex Hmac Hnull Hpem Hacc.
  rewrite sign_eq, Hhdr in Hsign. injection Hsign as Hsign.
  destruct (sign_header_Ok_inv _ _ _ _ _ _ Hhdr) as (d' & Hd & Halg & _).
  injection Hd as <-.
  destruct (sign_with_alg_Ok_inv _ _ _ _ _ _ Hsign)
    as (sigAlg & uHeader & uPayload & hSig & uSig & Htab & HuH & HuP & Hsig & HuS & ->).
  destruct (Hutf _ _ HuH) as [HdH HdecH], (Hutf _ _ HuP) as [HdP _],
    (Hhex _ _ HuS) as [HdS HdecS].
  unfold verify. rewrite split_three by assumption.
  rewrite HdecS, HdecH. cbn [bindR]. unfold readSafeJSONString. rewrite Hjson.
  cbn [isDictionary negb prop bindR]. rewrite Halg.
  cbn [toString] in Htab. unfold verify_with_alg.
  assert (Hfacts : check_acceptAlgs a acceptAlgs = Ok tt /\
                   String.eqb a "none" = false /\
                   String.eqb (substr0 2 a) "RS" || String.eqb (substr0 2 a) "PS" = false /\
                   String.eqb (substr0 2 a) "ES" = false /\
                   String.eqb sigAlg "none" = false /\
                   String.eqb (substr0 4 sigAlg) "Hmac" = true).
  { destruct Ha as [-> | [-> | ->]]; injection Htab as <-;
      (split; [destruct Hacc as [-> | ->]; reflexivity|]); repeat split; reflexivity. }
  destruct Hfacts as (Hc & Hn & Hrs & Hes & Hnone & Hh).
  rewrite Hc, Hn. cbn [negb andb bindR].
  assert (Hconv : match key with
                  | KeyString k => if includes "-----BEGIN " k then getKey E k else Ok key
                  | _ => Ok key
                  end = Ok key).
  { destruct key; try reflexivity. now rewrite (Hpem s). }
  rewrite Hconv. cbn [bindR]. rewrite Hrs, Hes. cbn [bindR]. rewrite Htab, Hnone, Hh.
  destruct (Hsig Hh) as [Hundef Hm]. rewrite Hmac, Hm.
  destruct key; try (now destruct Hundef); cbn [bindR]; now rewrite String.eqb_refl.
Qed.


(** X10: when the header object has no ['alg'] and [sign] is given an
    algorithm (not the empty string), [sign] stores the algorithm in the
    object of the caller, also when it then raises, and answers as it
    does for the amended header without an algorithm argument. *)
Theorem sign_stores_alg_in_header a d spPayload key pass :
  a <> EmptyString -> get d "alg" = JUndefined ->
  snd (sign E S (Some a) (AnObject d) spPayload key pass)
  = AnObject (<["alg" := JStr a]> d) /\
  sign E S (Some a) (AnObject d) spPayload key pass
  = sign E S None (AnObject (<["alg" := JStr a]> d)) spPayload key pass.
Proof.
  intros Ha Hget.
  assert (Hempty : String.eqb a EmptyString = false) by now apply String.eqb_neq.
  assert (Hget' : get (<["alg" := JStr a]> d) "alg" = JStr a).
  { unfold get. now rewrite lookup_insert_eq. }
  assert (H1 : sign_header E S (Some a) (AnObject d)
               = (Ok (JStr a, Some (<["alg" := JStr a]> d),
                      JSON_stringify S (<["alg" := JStr a]> d)),
                  AnObject (<["alg" := JStr a]> d))).
  { unfold sign_header.
    repeat (progress (cbn [loose_eq_empty loose_eq_null orb negb andb prop bindR
                           is_undefined];
                      rewrite ?Hempty, ?Hget)).
    change (<["alg" := JStr a]> <$> Some d) with (Some (<["alg" := JStr a]> d)).
    reflexivity. }
  assert (H2 : sign_header E S None (AnObject (<["alg" := JStr a]> d))
               = (Ok (JStr a, Some (<["alg" := JStr a]> d),
                      JSON_stringify S (<["alg" := JStr a]> d)),
                  AnObject (<["alg" := JStr a]> d))).
  { unfold sign_header.
    repeat (progress (cbn [loose_eq_empty loose_eq_null orb negb andb prop bindR
                           is_undefined];
                      rewrite ?Hempty, ?Hget')).
    reflexivity. }
  rewrite !sign_eq, H1, H2. split; reflexivity.
Qed.

(** X11: when the encoders emit no ['.'], a token that [sign] returns
    splits at ['.'] into exactly three segments, the second of which is
    the encoding of the payload text: a string payload as given, an
    object payload as [JSON.stringify] prints it. *)
Theorem sign_three_segments alg spHeader spPayload key pass token hdr' :
  sign E S alg spHeader spPayload key pass = (Ok token, hdr') ->
  (forall s u, utf8tob64u S s = Ok u -> occurs "."%char u = false) ->
  (forall h u, hextob64u S h = Ok u -> occurs "."%char u = false) ->
  exists uHeader uPayload uSig,
    split "."%char token = [uHeader; uPayload; uSig] /\
    token = uHeader +:+ "." +:+ uPayload +:+ "." +:+ uSig /\
    utf8tob64u S match spPayload with
                 | AString s => s
                 | AnObject d => JSON_stringify S d
                 end = Ok uPayload.
Proof.
  intros Hsign Hutf Hhex. rewrite sign_eq in Hsign.
  destruct (sign_header E S alg spHeader) as [[[[a pH] sH]|m] hdr]; [|discriminate].
  injection Hsign as Hsign _.
  destruct (sign_with_alg_Ok_inv _ _ _ _ _ _ Hsign)
    as (sigAlg & uHeader & uPayload & hSig & uSig & _ & HuH & HuP & _ & HuS & ->).
  exists uHeader, uPayload, uSig. split; [|split; [|assumption]].
  - apply split_three; eauto.
  - rewrite append_assoc. reflexivity.
Qed.

(** *** [parse] and [parseJWS] *)

(** X12: [parse] raises 'malformed sJWS' exactly for tokens of other
    than two or three segments.  When it returns, the token has two
    segments, the result has no [sigHex] and [verify] answers [false]
    for the token whatever the key; or it has three and [sigHex] is the
    decoded third segment. *)
Theorem parse_two_or_three_segments sJWS :
  (length (split "."%char sJWS) <> 2%nat -> length (split "."%char sJWS) <> 3%nat ->
   parse E S sJWS = Throw "malformed sJWS: wrong number of '.' splitted elements") /\
  (forall r, parse E S sJWS = Ok r ->
     (length (split "."%char sJWS) = 2%nat /\ sigHex r = None /\
      forall key acceptAlgs, verify E sJWS key acceptAlgs = Ok false) \/
     (exists uHeader uPayload uSig hSig,
        split "."%char sJWS = [uHeader; uPayload; uSig] /\
        b64utohex E (Some uSig) = Ok hSig /\ sigHex r = Some hSig)).
Proof.
  unfold parse. split.
  - intros H2 H3. apply Nat.eqb_neq in H2, H3. now rewrite H2, H3.
  - intros r.
    destruct (split "."%char sJWS) as [|uHeader [|uPayload [|uSig [|x l]]]] eqn:Hs;
      try discriminate; cbn [length Nat.eqb negb andb lookup list_lookup].
    + (* two segments *)
      destruct (b64utoutf8 E (Some uHeader)); cbn [bindR]; [|discriminate].
      destruct (b64utoutf8 E (Some uPayload)); cbn [bindR]; [|discriminate].
      match goal with
      | |- bindR ?c _ = _ -> _ => destruct c; cbn [bindR]; [|discriminate]
      end.
      intros [= <-]. left. split; [reflexivity|]. split; [reflexivity|].
      intros key acceptAlgs. unfold verify. now rewrite Hs.
    + (* three segments *)
      destruct (b64utoutf8 E (Some uHeader)); cbn [bindR]; [|discriminate].
      destruct (b64utoutf8 E (Some uPayload)); cbn [bindR]; [|discriminate].
      match goal with
      | |- bindR ?c _ = _ -> _ => destruct c; cbn [bindR]; [|discriminate]
      end.
      destruct (b64utohex E (Some uSig)) as [hSig|] eqn:Hh; cbn [bindR]; [|discriminate].
      intros [= <-]. right. now exists uHeader, uPayload, uSig, hSig.
Qed.

(** X13: [parseJWS] parses once per object.  After a first call on a
    token of three non-empty segments whose signature segment decodes,
    the object holds a [parsedJWS], also when that call raised because
    the header or the payload did not decode or the header was not the
    text of a JSON object; every later call, whatever token and flag it
    is given, returns normally and leaves [parsedJWS] as it is. *)
Theorem parseJWS_parses_once sJWS b6Head b6Payload b6SigVal hSigVal biSigVal :
  match_Head_Payload_SigValue sJWS = Some (b6Head, b6Payload, b6SigVal) ->
  b64utohex E (Some b6SigVal) = Ok hSigVal ->
  parseBigInt S hSigVal = Ok biSigVal ->
  exists p,
    snd (parseJWS E S sJWS false None) = Some p /\
    sigvalB64U p = b6SigVal /\ sigvalH p = Some hSigVal /\
    forall sJWS' sigValNotNeeded,
      parseJWS E S sJWS' sigValNotNeeded (Some p) = (Ok tt, Some p).
Proof.
  intros Hm Hh Hb. unfold parseJWS at 1. rewrite Hm. cbn [negb]. rewrite Hh.
  cbn [bindR]. rewrite Hb. cbn [bindR].
  assert (Hlater : forall p, sigvalH p = Some hSigVal ->
            forall sJWS' flag, parseJWS E S sJWS' flag (Some p) = (Ok tt, Some p)).
  { intros p Hp sJWS' flag. unfold parseJWS. rewrite Hp.
    cbn [is_undefined_opt negb]. now rewrite orb_true_r. }
  destruct (b64utoutf8 E (Some b6Head)) as [sHead|]; cbn [bindR].
  2:{ eexists. split; [reflexivity|]. repeat (split; [reflexivity|]). now apply Hlater. }
  destruct (b64utoutf8 E (Some b6Payload)) as [sPayload|]; cbn [bindR].
  2:{ eexists. split; [reflexivity|]. repeat (split; [reflexivity|]). now apply Hlater. }
  destruct (negb (fst (isSafeJSONString E sHead))).
  all: eexists; (split; [reflexivity|]); repeat (split; [reflexivity|]); now apply Hlater.
Qed.

(** *** [getJWKthumbprint] and [getEncodedSignatureValueFromJWS] *)

(** X26: the thumbprint is made of the required members only: two JWK
    objects with the same ['kty'] and the same ['n'] and ['e'] (RSA), the
    same ['crv'], ['x'] and ['y'] (EC) or the same ['k'] (oct) get the
    same result, whatever other members they hold. *)
Theorem getJWKthumbprint_required_members (o o' : gmap string JSValue) :
  get o "kty" = get o' "kty" ->
  (get o "kty" = JStr "RSA" -> get o "n" = get o' "n" /\ get o "e" = get o' "e") ->
  (get o "kty" = JStr "EC" ->
   get o "crv" = get o' "crv" /\ get o "x" = get o' "x" /\ get o "y" = get o' "y") ->
  (get o "kty" = JStr "oct" -> get o "k" = get o' "k") ->
  getJWKthumbprint S o = getJWKthumbprint S o'.
Proof.
  intros Hkty Hrsa Hec Hoct. unfold getJWKthumbprint. rewrite <- Hkty.
  destruct (get o "kty") as [| | | |kty| |] eqn:Hk; try reflexivity.
  cbn [strict_eq].
  destruct (String.eqb_spec kty "RSA") as [->|H1].
  { destruct (Hrsa eq_refl) as [<- <-]. reflexivity. }
  destruct (String.eqb_spec kty "EC") as [->|H2].
  { destruct (Hec eq_refl) as (<- & <- & <-). reflexivity. }
  destruct (String.eqb_spec kty "oct") as [->|H3].
  { rewrite <- (Hoct eq_refl). reflexivity. }
  reflexivity.
Qed.

(** X27: [getEncodedSignatureValueFromJWS] returns [g] exactly when the
    token is three non-empty segments without ['.'], separated by two
    ['.'], the last of which is [g]; on every other string it raises. *)
Theorem getEncodedSignatureValueFromJWS_spec sJWS g :
  (getEncodedSignatureValueFromJWS sJWS = Ok g <->
   exists h p,
     sJWS = h +:+ "." +:+ p +:+ "." +:+ g /\
     h <> EmptyString /\ p <> EmptyString /\ g <> EmptyString /\
     occurs "."%char h = false /\ occurs "."%char p = false /\
     occurs "."%char g = false) /\
  ((exists g', getEncodedSignatureValueFromJWS sJWS = Ok g') \/
   getEncodedSignatureValueFromJWS sJWS
   = Throw "JWS signature is not a form of 'Head.Payload.SigValue'.").
Proof.
  unfold getEncodedSignatureValueFromJWS, match_Head_Payload_SigValue. split.
  - split.
    + pose proof (join_split "."%char sJWS) as Hj.
      pose proof (split_pieces_absent "."%char "."%char sJWS (or_introl eq_refl)) as Hd.
      destruct (split "."%char sJWS) as [|h [|p [|g' [|x l]]]]; try discriminate.
      destruct (String.eqb_spec h EmptyString) as [->|Hh]; [discriminate|].
      destruct (String.eqb_spec p EmptyString) as [->|Hp]; [discriminate|].
      destruct (String.eqb_spec g' EmptyString) as [->|Hg]; [discriminate|].
      cbn [orb]. intros [= <-]. exists h, p.
      apply Forall_cons in Hd as [H1 Hd]. apply Forall_cons in Hd as [H2 Hd].
      apply Forall_cons in Hd as [H3 _].
      split; [now rewrite <- Hj|]. now repeat split.
    + intros (h & p & -> & Hh & Hp & Hg & H1 & H2 & H3).
      change (h +:+ "." +:+ p +:+ "." +:+ g) with (h +:+ ("." +:+ p) +:+ ("." +:+ g)).
      rewrite <- (append_assoc h ("." +:+ p) ("." +:+ g)).
      rewrite split_three by assumption.
      apply String.eqb_neq in Hh, Hp, Hg. now rewrite Hh, Hp, Hg.
  - destruct (split "."%char sJWS) as [|h [|p [|g' [|x l]]]]; auto.
    destruct (String.eqb h EmptyString || String.eqb p EmptyString || String.eqb g' EmptyString); auto.
    left. now exists g'.
Qed.

(** *** [getIntDate] *)

Lemma digits_string_of_uint d :
  forallb is_digit (list_ascii_of_string (NilEmpty.string_of_uint d)) = true.
Proof.
  induction d; cbn [NilEmpty.string_of_uint list_ascii_of_string forallb];
    try reflexivity; now rewrite IHd.
Qed.

Lemma last_digit l c :
  forallb is_digit l = true -> last l = Some c -> is_digit c = true.
Proof.
  induction l as [|x l IH]; [discriminate|]. cbn [forallb].
  intros H Hl. apply andb_true_iff in H as [Hx Hr].
  destruct l as [|y l]; [injection Hl as <-; assumption|].
  apply IH; [assumption|]. exact Hl.
Qed.

Lemma string_of_Z_nonneg n :
  0 <= n ->
  exists d, d <> Decimal.Nil /\ string_of_Z n = NilEmpty.string_of_uint d /\
            Z.of_uint d = n.
Proof.
  intros Hn. destruct n as [|p|p]; [| |lia].
  - exists (Decimal.D0 Decimal.Nil). repeat split. discriminate.
  - exists (Pos.to_uint p). split; [apply DecimalPos.Unsigned.to_uint_nonnil|].
    split.
    + unfold string_of_Z. cbn [Z.to_int NilZero.string_of_int NilZero.string_of_uint].
      destruct (Pos.to_uint p) eqn:Hp; try reflexivity.
      now destruct (DecimalPos.Unsigned.to_uint_nonnil p).
    + unfold Z.of_uint. now rewrite DecimalPos.Unsigned.of_to.
Qed.

(** X14: from the decimal text of an integer [n >= 0], [getIntDate]
    gives [n] itself as long as [n <= 2^53], and beyond that (up to the 20
    digits that [parseInt] must read) the double nearest to [n]. *)
Theorem getIntDate_decimal clock n :
  0 <= n ->
  (n <= 2 ^ 53 -> getIntDate S clock (string_of_Z n) = Ok n) /\
  (n < 10 ^ 20 -> getIntDate S clock (string_of_Z n) = Ok (to_double n)).
Proof.
  intros Hn.
  enough (Hget : getIntDate S clock (string_of_Z n) = Ok (to_double n)).
  { split; intros Hb; [|exact Hget].
    rewrite Hget, JSNumFacts.to_double_exact; [reflexivity|lia]. }
  destruct (string_of_Z_nonneg n Hn) as (d & Hd & -> & Hz).
  assert (Hdig := digits_string_of_uint d).
  unfold getIntDate.
  assert (Hnow : forall t,
            String.eqb (NilEmpty.string_of_uint d) (String "n"%char t) = false).
  { intros t. destruct d; reflexivity. }
  rewrite !Hnow.
  assert (HZ : ends_with_Z (NilEmpty.string_of_uint d) = false).
  { unfold ends_with_Z.
    destruct (last (list_ascii_of_string (NilEmpty.string_of_uint d))) as [c|] eqn:Hl;
      [|reflexivity].
    apply (last_digit _ _ Hdig) in Hl.
    destruct (Ascii.eqb_spec c "Z") as [->|]; [discriminate Hl|reflexivity]. }
  rewrite HZ. unfold all_digits. rewrite Hdig.
  assert (Hne : String.eqb (NilEmpty.string_of_uint d) EmptyString = false).
  { destruct d; try reflexivity. now destruct Hd. }
  rewrite Hne. cbn [negb andb]. unfold parseInt10, NilZero.uint_of_string.
  destruct (NilEmpty.string_of_uint d) eqn:Hs; [discriminate Hne|].
  rewrite <- Hs, NilEmpty.usu. now rewrite Hz.
Qed.

End WithEngines.

Import Sample Sample2.

Lemma encode_inverse s u :
  encode s = Ok u -> occurs "."%char u = false /\ decode (Some u) = Ok s.
Proof.
  unfold encode. destruct (occurs "."%char s) eqn:H; [discriminate|].
  intros [= <-]. now split.
Qed.

(** Signing the payload text '{exp:990}' under the header [{alg: HS256}]
    gives the token that [verify] accepts. *)
Lemma sign_verify_HMAC_witness :
  sign Sample.engine sign_engine None (AnObject {[ "alg" := JStr "HS256" ]})
    (AString "{exp:990}") (KeyString "secret") None
  = (Ok hs256_exp990, AnObject {[ "alg" := JStr "HS256" ]}) /\
  verify Sample.engine hs256_exp990 (KeyString "secret") (JArr [JStr "HS256"]) = Ok true.
Proof.
  split; [reflexivity|].
  apply (sign_verify_HMAC Sample.engine sign_engine None
           (AnObject {[ "alg" := JStr "HS256" ]}) (AString "{exp:990}")
           (KeyString "secret") None hs256_exp990
           (AnObject {[ "alg" := JStr "HS256" ]}) "HS256"
           {[ "alg" := JStr "HS256" ]} "{alg:HS256}" (JArr [JStr "HS256"])).
  - reflexivity.
  - reflexivity.
  - now left.
  - reflexivity.
  - exact encode_inverse.
  - exact encode_inverse.
  - reflexivity.
  - discriminate.
  - intros k [= <-]. reflexivity.
  - now right.
Defined.


(** [sign('ES512', {}, ...)] raises and leaves the header [{alg: 'ES512'}]. *)
Lemma sign_stores_alg_in_header_witness :
  sign Sample.engine sign_engine (Some "ES512") (AnObject ∅)
    (AString "{exp:990}") (KeyString "secret") None
  = (Throw "unsupported alg name: ES512", AnObject (<["alg" := JStr "ES512"]> ∅)) /\
  snd (sign Sample.engine sign_engine (Some "ES512") (AnObject ∅)
         (AString "{exp:990}") (KeyString "secret") None)
  = AnObject (<["alg" := JStr "ES512"]> ∅).
Proof.
  split; [reflexivity|].
  apply (sign_stores_alg_in_header Sample.engine sign_engine "ES512" ∅
           (AString "{exp:990}") (KeyString "secret") None).
  - discriminate.
  - reflexivity.
Defined.

Lemma sign_three_segments_witness :
  exists uHeader uPayload uSig,
    split "."%char hs256_exp990 = [uHeader; uPayload; uSig] /\
    hs256_exp990 = uHeader +:+ "." +:+ uPayload +:+ "." +:+ uSig /\
    utf8tob64u sign_engine "{exp:990}" = Ok uPayload.
Proof.
  apply (sign_three_segments Sample.engine sign_engine None
           (AnObject {[ "alg" := JStr "HS256" ]}) (AString "{exp:990}")
           (KeyString "secret") None hs256_exp990
           (AnObject {[ "alg" := JStr "HS256" ]})).
  - reflexivity.
  - intros s u H. now apply encode_inverse in H.
  - intros s u H. now apply encode_inverse in H.
Defined.

(** A first call on a token whose header is not the text of a JSON object
    raises; the object keeps the decoded signature. *)
Lemma parseJWS_parses_once_witness :
  fst (parseJWS Sample.engine sign_engine "x.{exp:990}.6d6163" false None)
  = Throw "malformed JSON string for JWS Head: x" /\
  exists p,
    snd (parseJWS Sample.engine sign_engine "x.{exp:990}.6d6163" false None) = Some p /\
    sigvalB64U p = "6d6163" /\ sigvalH p = Some "6d6163" /\
    forall sJWS' sigValNotNeeded,
      parseJWS Sample.engine sign_engine sJWS' sigValNotNeeded (Some p) = (Ok tt, Some p).
Proof.
  split; [reflexivity|].
  apply (parseJWS_parses_once Sample.engine sign_engine "x.{exp:990}.6d6163"
           "x" "{exp:990}" "6d6163" "6d6163" "6d6163"); reflexivity.
Defined.

(** A token of two segments: [parse] returns, [verify] answers [false]. *)
Lemma parse_two_or_three_segments_witness :
  exists r,
    parse Sample.engine sign_engine "{alg:HS256}.{exp:990}" = Ok r /\
    sigHex r = None /\
    verify Sample.engine "{alg:HS256}.{exp:990}" KeyNull JUndefined = Ok false.
Proof.
  eexists. split; [reflexivity|].
  destruct (proj2 (parse_two_or_three_segments Sample.engine sign_engine
                     "{alg:HS256}.{exp:990}") _ eq_refl)
    as [(_ & H1 & H2)|(uH & uP & uS & h & Hs & _)].
  - split; [exact H1|apply H2].
  - discriminate Hs.
Defined.

Lemma getEncodedSignatureValueFromJWS_spec_witness :
  getEncodedSignatureValueFromJWS hs256_exp990 = Ok "6d6163".
Proof.
  apply (proj2 (proj1 (getEncodedSignatureValueFromJWS_spec hs256_exp990 "6d6163"))).
  exists "{alg:HS256}", "{exp:990}".
  repeat split; try reflexivity; discriminate.
Defined.

(** A key identifier added to an RSA key leaves the thumbprint as it is. *)
Lemma getJWKthumbprint_required_members_witness :
  getJWKthumbprint sign_engine
    (<["kid" := JStr "2011-04-29"]>
       (<["kty" := JStr "RSA"]> (<["n" := JStr "0vx7"]> {[ "e" := JStr "AQAB" ]})))
  = getJWKthumbprint sign_engine
      (<["kty" := JStr "RSA"]> (<["n" := JStr "0vx7"]> {[ "e" := JStr "AQAB" ]})).
Proof.
  apply (getJWKthumbprint_required_members sign_engine
           (<["kid" := JStr "2011-04-29"]>
              (<["kty" := JStr "RSA"]> (<["n" := JStr "0vx7"]> {[ "e" := JStr "AQAB" ]})))
           (<["kty" := JStr "RSA"]> (<["n" := JStr "0vx7"]> {[ "e" := JStr "AQAB" ]}))).
  - reflexivity.
  - intros _. split; reflexivity.
  - intros H. vm_compute in H. discriminate H.
  - intros H. vm_compute in H. discriminate H.
Defined.

(** The text of 1377714748 is read as that number; the text of 2^53 + 1
    as 2^53. *)
Lemma getIntDate_decimal_witness :
  getIntDate sign_engine 1000 (string_of_Z 1377714748) = Ok 1377714748 /\
  getIntDate sign_engine 1000 (string_of_Z 9007199254740993) = Ok 9007199254740992.
Proof.
  split.
  - apply (getIntDate_decimal sign_engine 1000 1377714748); lia.
  - apply (getIntDate_decimal sign_engine 1000 9007199254740993); lia.
Defined.

End JWSSignFacts.

(** ** More of asn1x509-1.0.js: the strings of [setByString] and
    [parseString], the bits of [KeyUsage] *)

Module X509StringFacts.
Import JSStr X500Name RDN X500NameString JSStrFacts X500NameFacts.

(** *** [X500Name.setByString] *)

Lemma fold_slash_join ps x :
  fold_left (fun acc p => acc +:+ "/" +:+ p) ps x = join "/" (x :: ps).
Proof.
  revert x. induction ps as [|p ps IH]; intros x; [reflexivity|].
  cbn [fold_left]. rewrite IH. destruct ps as [|q r].
  - cbn [join]. reflexivity.
  - rewrite !join_cons. now rewrite !append_assoc.
Qed.

Lemma snoc_inv {A} (l : list A) : l <> [] -> exists init x, l = init ++ [x].
Proof.
  induction l as [|a l IH]; [congruence|]. intros _.
  destruct l as [|b l]; [now exists [], a|].
  destruct IH as (init & x & Hl); [discriminate|].
  exists (a :: init), x. now rewrite Hl.
Qed.

Lemma join_snoc sep init x :
  init <> [] -> join sep (init ++ [x]) = join sep init +:+ sep +:+ x.
Proof. intros H. now rewrite join_app by (assumption || discriminate). Qed.

Lemma setByString_step_join m a1 item :
  a1 <> [] ->
  snd (setByString_step (m, a1) item) <> [] /\
  join "/" (snd (setByString_step (m, a1) item)) = join "/" a1 +:+ "/" +:+ item.
Proof.
  intros Hne. unfold setByString_step. destruct (match_attr item); cbn [snd].
  - split; [now destruct a1|]. now apply join_snoc.
  - destruct (snoc_inv a1 Hne) as (init & x & ->).
    assert (Hm : match init ++ [x] with
                 | [] => (Some (str_of m +:+ "/" +:+ item), init ++ [x])
                 | _ :: _ =>
                     (m, removelast (init ++ [x])
                         ++ [str_of (last (init ++ [x])) +:+ "/" +:+ item])
                 end
                 = (m, init ++ [x +:+ "/" +:+ item])).
    { rewrite removelast_last, last_snoc. now destruct init. }
    rewrite Hm. cbn [snd]. split; [now destruct init|].
    destruct init as [|y init]; [reflexivity|].
    rewrite !join_snoc by discriminate. now rewrite !append_assoc.
Qed.

Lemma setByString_fold_join ps m a1 :
  a1 <> [] ->
  join "/" (snd (fold_left setByString_step ps (m, a1)))
  = fold_left (fun acc p => acc +:+ "/" +:+ p) ps (join "/" a1).
Proof.
  revert m a1. induction ps as [|p ps IH]; intros m a1 Hne; [reflexivity|].
  cbn [fold_left]. destruct (setByString_step_join m a1 p Hne) as [Hne' Hj].
  destruct (setByString_step (m, a1) p) as [m' a1'] eqn:Hs. cbn [snd] in *.
  rewrite IH by assumption. now rewrite Hj.
Qed.

(** The property [a1[-1]] is written and never read into [a1]. *)
Lemma setByString_fold_minus1 ps m m' a1 :
  snd (fold_left setByString_step ps (m, a1))
  = snd (fold_left setByString_step ps (m', a1)).
Proof.
  revert m m' a1. induction ps as [|p ps IH]; intros m m' a1; [reflexivity|].
  cbn [fold_left].
  assert (Hs : snd (setByString_step (m, a1) p) = snd (setByString_step (m', a1) p)).
  { unfold setByString_step. destruct (match_attr p); [reflexivity|]. now destruct a1. }
  destruct (setByString_step (m, a1) p) as [m1 b1], (setByString_step (m', a1) p) as [m2 b2].
  cbn [snd] in Hs. subst b2. apply IH.
Qed.

(** X15: what [setByString] drops without raising.  The text before the
    first ['/'] is not looked at, so a name without ['/'] gives no RDN
    and a name that does not start with ['/'] loses its first component;
    a first component that is not of the form type=value is dropped as
    well. *)
Theorem setByString_a1_dropped x :
  occurs "/"%char x = false ->
  setByString_a1 x = [] /\
  (forall rest,
     setByString_a1 (x +:+ String "/"%char rest) = setByString_a1 (String "/"%char rest)) /\
  (match_attr x = false ->
   forall rest,
     setByString_a1 (String "/"%char (x +:+ String "/"%char rest))
     = setByString_a1 (String "/"%char rest)).
Proof.
  intros Hx. unfold setByString_a1. split; [now rewrite split_absent|].
  split.
  - intros rest. rewrite split_app_sep by assumption.
    change (split "/"%char (String "/"%char rest)) with (EmptyString :: split "/"%char rest).
    reflexivity.
  - intros Hm rest.
    change (split "/"%char (String "/"%char (x +:+ String "/"%char rest)))
      with (EmptyString :: split "/"%char (x +:+ String "/"%char rest)).
    change (split "/"%char (String "/"%char rest)) with (EmptyString :: split "/"%char rest).
    rewrite split_app_sep by assumption. cbn [tail fold_left].
    assert (Hs : setByString_step (None, []) x = (Some ("undefined" +:+ "/" +:+ x), [])).
    { unfold setByString_step. now rewrite Hm. }
    rewrite Hs. apply setByString_fold_minus1.
Qed.

(** X16: [setByString] loses nothing of a name that starts with ['/']
    and whose first component has the form type=value: the strings it
    makes RDNs of, joined by ['/'], are the name after its first ['/'];
    a later component that is not of that form has become part of the
    component before it. *)
Theorem setByString_a1_rejoin rest :
  match_attr (hd EmptyString (split "/"%char rest)) = true ->
  join "/" (setByString_a1 (String "/"%char rest)) = rest /\
  hd_error (setByString_a1 (String "/"%char rest)) <> None.
Proof.
  intros Hm. unfold setByString_a1.
  change (split "/"%char (String "/"%char rest)) with (EmptyString :: split "/"%char rest).
  cbn [tail]. assert (Hrest := join_split "/"%char rest).
  destruct (split "/"%char rest) as [|p ps]; [discriminate Hm|]. cbn [hd] in Hm.
  cbn [fold_left].
  assert (Hs : setByString_step (None, []) p = (None, [p])).
  { unfold setByString_step. now rewrite Hm. }
  rewrite Hs. split.
  - rewrite setByString_fold_join by discriminate. cbn [join].
    now rewrite fold_slash_join.
  - assert (H : forall ps m a1, a1 <> [] ->
                 snd (fold_left setByString_step ps (m, a1)) <> []).
    { clear. induction ps as [|q ps IH]; intros m a1 Hne; [exact Hne|].
      cbn [fold_left]. destruct (setByString_step_join m a1 q Hne) as [Hne' _].
      destruct (setByString_step (m, a1) q). now apply IH. }
    specialize (H ps None [p]).
    destruct (snd (fold_left setByString_step ps (None, [p]))); [now destruct H|discriminate].
Qed.

(** *** [RDN.parseString] *)

Lemma split_app_general sep x y :
  split sep (x +:+ String sep y) = split sep x ++ split sep y.
Proof.
  induction x as [|c x IH]; rewrite ?append_String, ?append_Empty.
  - cbn [split]. now rewrite Ascii.eqb_refl.
  - cbn [split]. destruct (Ascii.eqb c sep); [now rewrite IH|].
    rewrite IH. destruct (split sep x) as [|h t] eqn:Hs; [now destruct (split_nonempty sep x)|].
    reflexivity.
Qed.

Lemma occurs_app c u v : occurs c (u +:+ v) = occurs c u || occurs c v.
Proof.
  induction u as [|a u IH]; rewrite ?append_String, ?append_Empty; [reflexivity|].
  cbn [occurs]. now rewrite IH, orb_assoc.
Qed.

Lemma escape_plus_absent w : occurs "+"%char w = false -> escape_plus w = w.
Proof.
  induction w as [|a w IH]; [reflexivity|]. cbn [occurs escape_plus].
  intros H. apply orb_false_iff in H as [Ha Hw]. now rewrite Ha, IH.
Qed.

Lemma escape_plus_app w r :
  occurs "+"%char w = false ->
  escape_plus (w +:+ String "+"%char r)
  = (w +:+ "\") +:+ String "+"%char (escape_plus r).
Proof.
  induction w as [|a w IH]; rewrite ?append_String, ?append_Empty.
  - intros _. cbn [escape_plus]. now rewrite Ascii.eqb_refl.
  - cbn [occurs escape_plus]. intros H. apply orb_false_iff in H as [Ha Hw].
    now rewrite Ha, IH.
Qed.

(** The pieces of an escaped item: the pieces of the item, all but the
    last with a backslash at the end. *)
Lemma split_escape_plus ws :
  ws <> [] -> Forall (fun w => occurs "+"%char w = false) ws ->
  split "+"%char (escape_plus (join "+" ws))
  = map (fun w => w +:+ "\") (removelast ws) ++ [List.last ws EmptyString].
Proof.
  intros Hne Hall. induction Hall as [|w ws Hw Hws IH]; [congruence|].
  destruct ws as [|w' ws].
  - cbn [join removelast map app List.last]. rewrite escape_plus_absent by assumption.
    now apply split_absent.
  - rewrite join_cons.
    change (w +:+ "+" +:+ join "+" (w' :: ws))
      with (w +:+ String "+"%char (join "+" (w' :: ws))).
    rewrite escape_plus_app by assumption. rewrite split_app_general.
    rewrite IH by discriminate.
    rewrite split_absent.
    2:{ rewrite occurs_app, Hw. reflexivity. }
    reflexivity.
Qed.

Lemma replace_all_escaped_String a s :
  Ascii.eqb a "\"%char = false ->
  replace_all_escaped "+"%char (String a s) = String a (replace_all_escaped "+"%char s).
Proof.
  intros Ha. destruct s as [|b s]; [reflexivity|].
  rewrite replace_all_escaped_eq. now rewrite Ha.
Qed.

Lemma replace_all_escaped_plus u v :
  occurs "\"%char u = false ->
  replace_all_escaped "+"%char (u +:+ String "\"%char (String "+"%char v))
  = u +:+ String "+"%char (replace_all_escaped "+"%char v).
Proof.
  intros Hu. induction u as [|a u IH]; rewrite ?append_String, ?append_Empty.
  - rewrite replace_all_escaped_eq. now rewrite !Ascii.eqb_refl.
  - cbn [occurs] in Hu. apply orb_false_iff in Hu as [Ha Hu].
    rewrite replace_all_escaped_String by assumption. now rewrite IH.
Qed.

Lemma replace_all_escaped_last_backslash w :
  occurs "\"%char w = false ->
  replace_all_escaped "+"%char (w +:+ "\") = w +:+ "\".
Proof.
  intros Hw. induction w as [|a w IH]; [reflexivity|].
  cbn [occurs] in Hw. apply orb_false_iff in Hw as [Ha Hw].
  rewrite append_String, replace_all_escaped_String by assumption. now rewrite IH.
Qed.

Lemma replace_all_escaped_no_backslash w :
  occurs "\"%char w = false -> replace_all_escaped "+"%char w = w.
Proof.
  intros Hw. induction w as [|a w IH]; [reflexivity|].
  cbn [occurs] in Hw. apply orb_false_iff in Hw as [Ha Hw].
  rewrite replace_all_escaped_String by assumption. now rewrite IH.
Qed.

Lemma ends_with_backslash_absent w :
  occurs "\"%char w = false -> ends_with_backslash w = false.
Proof.
  induction w as [|a w IH]; [reflexivity|]. cbn [occurs].
  intros H. apply orb_false_iff in H as [Ha Hw].
  destruct w as [|b w]; [exact Ha|].
  rewrite ends_with_backslash_String. now apply IH.
Qed.

(** The first loop on the pieces of one escaped item, after a first piece
    that ended with a backslash. *)
Lemma plus_fold_pending ws :
  ws <> [] -> Forall (fun w => occurs "\"%char w = false) ws ->
  forall acc u, occurs "\"%char u = false ->
  fold_left plus_step
    (map (fun w => w +:+ "\") (removelast ws) ++ [List.last ws EmptyString])
    (true, acc ++ [u +:+ "\"])
  = (false, acc ++ [u +:+ "+" +:+ join "+" ws]).
Proof.
  intros Hne Hall. induction Hall as [|w ws Hw Hws IH]; [congruence|].
  intros acc u Hu. destruct ws as [|w' ws].
  - cbn [removelast map app List.last fold_left join]. unfold plus_step.
    rewrite pop_snoc. cbn [str_of].
    rewrite (ends_with_backslash_absent w Hw).
    rewrite append_assoc.
    change ("\" +:+ "+" +:+ w) with (String "\"%char (String "+"%char w)).
    rewrite replace_all_escaped_plus by assumption.
    now rewrite replace_all_escaped_no_backslash.
  - change (removelast (w :: w' :: ws)) with (w :: removelast (w' :: ws)).
    change (List.last (w :: w' :: ws) EmptyString) with (List.last (w' :: ws) EmptyString).
    cbn [map app fold_left]. unfold plus_step at 2.
    rewrite pop_snoc. cbn [str_of]. rewrite ends_with_backslash_snoc.
    rewrite append_assoc.
    change ("\" +:+ "+" +:+ w +:+ "\")
      with (String "\"%char (String "+"%char (w +:+ "\"))).
    rewrite replace_all_escaped_plus by assumption.
    rewrite replace_all_escaped_last_backslash by assumption.
    change (u +:+ String "+"%char (w +:+ "\")) with (u +:+ "+" +:+ w +:+ "\").
    rewrite <- !append_assoc.
    rewrite IH; [|discriminate|].
    + rewrite join_cons. now rewrite !append_assoc.
    + rewrite !occurs_app, Hu, Hw. reflexivity.
Qed.

(** The first loop on the pieces of one escaped item. *)
Lemma plus_fold_item item acc :
  occurs "\"%char item = false ->
  fold_left plus_step (split "+"%char (escape_plus item)) (false, acc)
  = (false, acc ++ [item]).
Proof.
  intros Hb.
  assert (Hj := join_split "+"%char item).
  assert (Hp : Forall (fun w => occurs "+"%char w = false) (split "+"%char item)).
  { apply split_pieces_absent. now left. }
  assert (Hq : Forall (fun w => occurs "\"%char w = false) (split "+"%char item)).
  { apply split_pieces_absent. now right. }
  assert (Hne := split_nonempty "+"%char item).
  change (String "+"%char EmptyString) with "+" in Hj.
  destruct (split "+"%char item) as [|w ws]; [congruence|].
  rewrite <- Hj. rewrite split_escape_plus by assumption.
  apply Forall_cons in Hq as [Hw Hws].
  destruct ws as [|w' ws].
  - cbn [removelast map app List.last fold_left join]. unfold plus_step.
    now rewrite (ends_with_backslash_absent w Hw).
  - change (removelast (w :: w' :: ws)) with (w :: removelast (w' :: ws)).
    change (List.last (w :: w' :: ws) EmptyString) with (List.last (w' :: ws) EmptyString).
    cbn [map app fold_left]. unfold plus_step at 2.
    rewrite ends_with_backslash_snoc.
    rewrite plus_fold_pending; [|discriminate|assumption|assumption].
    now rewrite join_cons.
Qed.

Lemma split_join_escaped items :
  items <> [] ->
  split "+"%char (join "+" (map escape_plus items))
  = concat (map (fun item => split "+"%char (escape_plus item)) items).
Proof.
  intros Hne. induction items as [|x items IH]; [congruence|].
  destruct items as [|y items].
  - cbn [map join concat]. now rewrite app_nil_r.
  - change (map escape_plus (x :: y :: items))
      with (escape_plus x :: escape_plus y :: map escape_plus items).
    rewrite join_cons.
    change (escape_plus x +:+ "+" +:+ join "+" (escape_plus y :: map escape_plus items))
      with (escape_plus x
            +:+ String "+"%char (join "+" (map escape_plus (y :: items)))).
    rewrite split_app_general, IH by discriminate. reflexivity.
Qed.

Lemma plus_fold_items items acc :
  Forall (fun item => occurs "\"%char item = false) items ->
  fold_left plus_step
    (concat (map (fun item => split "+"%char (escape_plus item)) items)) (false, acc)
  = (false, acc ++ items).
Proof.
  intros Hall. revert acc. induction Hall as [|x items Hx Hitems IH]; intros acc.
  - cbn [map concat fold_left]. now rewrite app_nil_r.
  - cbn [map concat]. rewrite fold_left_app, plus_fold_item by assumption.
    rewrite IH. now rewrite <- app_assoc.
Qed.

Lemma attr_value_occurs c s v :
  attr_value s = Some v -> occurs c v = true -> occurs c s = true.
Proof.
  induction s as [|a s IH]; [discriminate|]. cbn [attr_value occurs].
  destruct (Ascii.eqb a "="%char).
  - intros [= ->] ->. apply orb_true_r.
  - intros H1 H2. rewrite (IH H1 H2). apply orb_true_r.
Qed.

Lemma begins_quote_absent item :
  occurs dquote item = false -> begins_quote item = false.
Proof.
  intros Hq. unfold begins_quote. destruct item as [|a s]; [reflexivity|].
  destruct (attr_value (String a s)) as [[|b v]|] eqn:Hv; try reflexivity.
  destruct (Ascii.eqb_spec b dquote) as [->|]; [|apply andb_false_r].
  rewrite (attr_value_occurs dquote _ _ Hv) in Hq; [discriminate|].
  cbn [occurs]. now rewrite Ascii.eqb_refl.
Qed.

Lemma quote_fold_plain items acc :
  Forall (fun item => occurs dquote item = false) items ->
  fold_left quote_step items (false, acc) = (false, acc ++ items).
Proof.
  intros Hall. revert acc. induction Hall as [|x items Hx Hitems IH]; intros acc.
  - cbn [fold_left]. now rewrite app_nil_r.
  - cbn [fold_left]. unfold quote_step at 2. rewrite (begins_quote_absent x Hx).
    rewrite IH. now rewrite <- app_assoc.
Qed.

(** X17: [parseString] reads back what was written with escaped plus
    signs.  For attribute strings without backslash and without double
    quote, joined by ['+'] after every ['+'] inside one of them was
    written as a backslash and ['+'], it returns the attribute strings. *)
Theorem parseString_escaped_plus items :
  items <> [] ->
  Forall (fun item => occurs "\"%char item = false /\ occurs dquote item = false) items ->
  parseString (join "+" (map escape_plus items)) = items.
Proof.
  intros Hne Hall. unfold parseString.
  rewrite split_join_escaped by assumption.
  rewrite plus_fold_items.
  2:{ eapply List.Forall_impl; [|exact Hall]. now intros x [H _]. }
  cbn [app]. rewrite quote_fold_plain.
  2:{ eapply List.Forall_impl; [|exact Hall]. now intros x [_ H]. }
  reflexivity.
Qed.

(** The second of two values holds two plus signs. *)
Lemma parseString_escaped_plus_witness :
  parseString "O=a+O=b\+b\+b+O=c" = ["O=a"; "O=b+b+b"; "O=c"].
Proof.
  apply (parseString_escaped_plus ["O=a"; "O=b+b+b"; "O=c"]); [discriminate|].
  repeat (apply List.Forall_cons; [split; reflexivity|]). apply List.Forall_nil.
Defined.

Lemma plus_fold_plain ps acc :
  Forall (fun p => occurs "\"%char p = false) ps ->
  fold_left plus_step ps (false, acc) = (false, acc ++ ps).
Proof.
  intros Hall. revert acc. induction Hall as [|x ps Hx Hps IH]; intros acc.
  - cbn [fold_left]. now rewrite app_nil_r.
  - cbn [fold_left]. unfold plus_step at 2. rewrite (ends_with_backslash_absent x Hx).
    rewrite IH. now rewrite <- app_assoc.
Qed.

Lemma quote_fold_open ps u :
  Forall (fun p => ends_with_dquote p = false) ps ->
  fold_left quote_step ps (true, [u])
  = (true, [fold_left (fun acc p => acc +:+ "+" +:+ p) ps u]).
Proof.
  intros Hall. revert u. induction Hall as [|x ps Hx Hps IH]; intros u; [reflexivity|].
  cbn [fold_left].
  assert (Hs : quote_step (true, [u]) x = (true, [u +:+ "+" +:+ x])).
  { unfold quote_step. change (pop [u]) with (Some u, @nil string).
    cbn [str_of app]. rewrite Hx. now destruct (begins_quote x). }
  rewrite Hs. apply IH.
Qed.

Lemma fold_plus_join ps x :
  fold_left (fun acc p => acc +:+ "+" +:+ p) ps x = join "+" (x :: ps).
Proof.
  revert x. induction ps as [|p ps IH]; intros x; [reflexivity|].
  cbn [fold_left]. rewrite IH. destruct ps as [|q r].
  - cbn [join]. reflexivity.
  - rewrite !join_cons. now rewrite !append_assoc.
Qed.

(** X18: a quote that no later piece closes swallows the rest.  When
    the first of the pieces between plus signs opens a quote (its first
    ['='] is followed by a double quote) and none of the later pieces
    ends with a double quote, [parseString] returns the whole string as
    one attribute; this includes a first piece that closes its quote
    itself. *)
Theorem parseString_open_quote p0 ps :
  begins_quote p0 = true ->
  Forall (fun p => occurs "+"%char p = false /\ occurs "\"%char p = false) (p0 :: ps) ->
  Forall (fun p => ends_with_dquote p = false) ps ->
  parseString (join "+" (p0 :: ps)) = [join "+" (p0 :: ps)].
Proof.
  intros Hq Hall Hclose. unfold parseString.
  change "+" with (String "+"%char EmptyString) at 1.
  rewrite split_join.
  2: discriminate.
  2:{ eapply List.Forall_impl; [|exact Hall]. now intros x [H _]. }
  rewrite plus_fold_plain.
  2:{ eapply List.Forall_impl; [|exact Hall]. now intros x [_ H]. }
  cbn [app fold_left].
  assert (Hs : quote_step (false, []) p0 = (true, [p0])).
  { unfold quote_step. cbn [app]. now rewrite Hq. }
  rewrite Hs, quote_fold_open by assumption. now rewrite fold_plus_join.
Qed.

(** The value of CN is quoted and holds no plus sign: CN and OU come
    back as one attribute, quotes included. *)
Lemma parseString_open_quote_witness :
  parseString ("CN=" +:+ String dquote ("john" +:+ String dquote "+OU=test"))
  = ["CN=" +:+ String dquote ("john" +:+ String dquote "+OU=test")].
Proof.
  apply (parseString_open_quote ("CN=" +:+ String dquote ("john" +:+ String dquote EmptyString))
           ["OU=test"]).
  - reflexivity.
  - repeat (apply List.Forall_cons; [split; reflexivity|]). apply List.Forall_nil.
  - repeat (apply List.Forall_cons; [reflexivity|]). apply List.Forall_nil.
Defined.

(** *** [KeyUsage]: the bits for [params.names] *)

Section KeyUsageBits.
Import KeyUsage.
Variable KEYUSAGE_NAME : list string.

Lemma substring_all s : String.substring 0 (String.length s) s = s.
Proof. induction s as [|c s IH]; [reflexivity|]. cbn [String.length String.substring]. now rewrite IH. Qed.

Lemma set_bit_0 c s : set_bit 0 (String c s) = String "1"%char s.
Proof.
  unfold set_bit. cbn [String.length Nat.add Nat.sub String.substring].
  rewrite Nat.sub_0_r, substring_all. reflexivity.
Qed.

Lemma set_bit_S j c s : set_bit (S j) (String c s) = String c (set_bit j s).
Proof. reflexivity. Qed.

Lemma set_bit_length j s :
  (j < String.length s)%nat -> String.length (set_bit j s) = String.length s.
Proof.
  revert s. induction j as [|j IH]; intros [|c s] H; cbn [String.length] in H; try lia.
  - now rewrite set_bit_0.
  - rewrite set_bit_S. cbn [String.length]. rewrite IH; lia.
Qed.

Lemma set_bit_get j k s :
  (j < String.length s)%nat ->
  String.get k (set_bit j s) = if Nat.eqb j k then Some "1"%char else String.get k s.
Proof.
  revert k s. induction j as [|j IH]; intros k [|c s] H; cbn [String.length] in H; try lia.
  - rewrite set_bit_0. now destruct k.
  - rewrite set_bit_S. destruct k as [|k]; [reflexivity|].
    cbn [String.get Nat.eqb]. apply IH. lia.
Qed.

(** The loop over [j], on any list of indices inside the string. *)
Lemma name_fold_bits name js s :
  Forall (fun j => (j < String.length s)%nat) js ->
  let s' := fold_left (fun s j => if String.eqb name (nth j KEYUSAGE_NAME EmptyString)
                                  then set_bit j s else s) js s in
  String.length s' = String.length s /\
  forall k, String.get k s'
            = if existsb (fun j => Nat.eqb j k
                                   && String.eqb name (nth j KEYUSAGE_NAME EmptyString)) js
              then Some "1"%char else String.get k s.
Proof.
  intros Hall. revert s Hall. induction js as [|j js IH]; intros s Hall; [now split|].
  apply Forall_cons in Hall as [Hj Hjs]. cbn [fold_left existsb].
  destruct (String.eqb name (nth j KEYUSAGE_NAME EmptyString)) eqn:Hn.
  - destruct (IH (set_bit j s)) as [Hlen Hget].
    { now rewrite set_bit_length. }
    split; [now rewrite Hlen, set_bit_length|].
    intros k. rewrite Hget, set_bit_get by assumption. rewrite andb_true_r.
    destruct (Nat.eqb j k); cbn [orb]; [|reflexivity].
    now destruct (existsb _ js).
  - destruct (IH s Hjs) as [Hlen Hget]. split; [assumption|].
    intros k. rewrite Hget. now rewrite andb_false_r.
Qed.

Lemma existsb_seq_at (f : nat -> bool) n k :
  existsb (fun j => Nat.eqb j k && f j) (seq 0 n) = Nat.ltb k n && f k.
Proof.
  induction n as [|n IH]; [reflexivity|].
  rewrite seq_S, existsb_app, IH. cbn [existsb Nat.add]. rewrite orb_false_r.
  destruct (Nat.eqb_spec n k) as [->|Hne].
  - rewrite Nat.ltb_irrefl. cbn [andb orb]. now rewrite (proj2 (Nat.ltb_lt k (S k))) by lia.
  - cbn [andb]. rewrite orb_false_r.
    destruct (Nat.ltb_spec k n), (Nat.ltb_spec k (S n)); try reflexivity; lia.
Qed.

Lemma name_step_bits name s :
  (length KEYUSAGE_NAME <= String.length s)%nat ->
  String.length (name_step KEYUSAGE_NAME s name) = String.length s /\
  forall k, String.get k (name_step KEYUSAGE_NAME s name)
            = if Nat.ltb k (length KEYUSAGE_NAME)
                 && String.eqb name (nth k KEYUSAGE_NAME EmptyString)
              then Some "1"%char else String.get k s.
Proof.
  intros Hlen. unfold name_step.
  destruct (name_fold_bits name (seq 0 (length KEYUSAGE_NAME)) s) as [Hl Hg].
  { apply List.Forall_forall. intros j Hj. apply in_seq in Hj. lia. }
  split; [exact Hl|]. intros k. now rewrite Hg, existsb_seq_at.
Qed.

Lemma names_fold_bits names s :
  (length KEYUSAGE_NAME <= String.length s)%nat ->
  String.length (fold_left (name_step KEYUSAGE_NAME) names s) = String.length s /\
  forall k, String.get k (fold_left (name_step KEYUSAGE_NAME) names s)
            = if Nat.ltb k (length KEYUSAGE_NAME)
                 && existsb (fun name => String.eqb name (nth k KEYUSAGE_NAME EmptyString))
                      names
              then Some "1"%char else String.get k s.
Proof.
  revert s. induction names as [|name names IH]; intros s Hlen.
  - split; [reflexivity|]. intros k. cbn [fold_left existsb]. now rewrite andb_false_r.
  - cbn [fold_left existsb]. destruct (name_step_bits name s Hlen) as [Hl Hg].
    destruct (IH (name_step KEYUSAGE_NAME s name)) as [Hl' Hg']; [now rewrite Hl|].
    split; [now rewrite Hl', Hl|].
    intros k. rewrite Hg', Hg.
    destruct (Nat.ltb k (length KEYUSAGE_NAME)); cbn [andb]; [|reflexivity].
    destruct (String.eqb name (nth k KEYUSAGE_NAME EmptyString)); cbn [orb]; [|reflexivity].
    now destruct (existsb _ names).
Qed.

(** X19: with a table of at most nine names, the string that
    [KeyUsage] makes of [params.names] has nine code units, each '0' or
    '1'; the one at position [k] of the table is '1' exactly when the
    name at position [k] is among [names].  So names outside the table
    are ignored, and order and repetition of the names do not matter. *)
Theorem KeyUsage_names_bin_bits names :
  (length KEYUSAGE_NAME <= 9)%nat ->
  String.length (names_bin KEYUSAGE_NAME names) = 9%nat /\
  (forall k, (k < length KEYUSAGE_NAME)%nat ->
     (String.get k (names_bin KEYUSAGE_NAME names) = Some "1"%char <->
      In (nth k KEYUSAGE_NAME EmptyString) names)) /\
  (forall k, (k < 9)%nat ->
     String.get k (names_bin KEYUSAGE_NAME names) = Some "1"%char \/
     String.get k (names_bin KEYUSAGE_NAME names) = Some "0"%char).
Proof.
  intros Hlen. unfold names_bin.
  destruct (names_fold_bits names "000000000" Hlen) as [Hl Hg].
  split; [exact Hl|]. split.
  - intros k Hk. rewrite Hg. rewrite (proj2 (Nat.ltb_lt _ _) Hk). cbn [andb].
    destruct (existsb _ names) eqn:He.
    + split; [intros _|reflexivity].
      apply existsb_exists in He as (name & Hin & Heq).
      apply String.eqb_eq in Heq. now subst.
    + split; intros H.
      * do 9 (destruct k as [|k]; [discriminate H|]). discriminate H.
      * assert (He' : existsb (fun name => String.eqb name (nth k KEYUSAGE_NAME EmptyString))
                        names = true).
        { apply existsb_exists. eexists. split; [exact H|]. apply String.eqb_refl. }
        congruence.
  - intros k Hk. rewrite Hg.
    destruct (_ && _); [now left|right].
    do 9 (destruct k as [|k]; [reflexivity|]). lia.
Qed.

End KeyUsageBits.

(** With the nine names of RFC 5280 in the order of their bits,
    [digitalSignature] and [keyAgreement] set the bits 0 and 4. *)
Lemma KeyUsage_names_bin_bits_witness :
  KeyUsage.names_bin
    ["digitalSignature"; "nonRepudiation"; "keyEncipherment"; "dataEncipherment";
     "keyAgreement"; "keyCertSign"; "cRLSign"; "encipherOnly"; "decipherOnly"]
    ["keyAgreement"; "digitalSignature"; "keyAgreement"; "serverAuth"]
  = "100010000" /\
  String.length
    (KeyUsage.names_bin
       ["digitalSignature"; "nonRepudiation"; "keyEncipherment"; "dataEncipherment";
        "keyAgreement"; "keyCertSign"; "cRLSign"; "encipherOnly"; "decipherOnly"]
       ["keyAgreement"; "digitalSignature"; "keyAgreement"; "serverAuth"]) = 9%nat.
Proof.
  split; [reflexivity|].
  apply (KeyUsage_names_bin_bits
           ["digitalSignature"; "nonRepudiation"; "keyEncipherment"; "dataEncipherment";
            "keyAgreement"; "keyCertSign"; "cRLSign"; "encipherOnly"; "decipherOnly"]
           ["keyAgreement"; "digitalSignature"; "keyAgreement"; "serverAuth"]).
  cbn [length]. lia.
Defined.

(** *** [X500Name.ldapToOneline] and back *)

Lemma ldap_fold_plain ps acc :
  Forall (fun p => occurs "\"%char p = false) ps ->
  fold_left ldap_step ps (false, acc) = (false, acc ++ ps).
Proof.
  intros Hall. revert acc. induction Hall as [|x ps Hx Hps IH]; intros acc.
  - cbn [fold_left]. now rewrite app_nil_r.
  - cbn [fold_left]. unfold ldap_step at 2. rewrite (ends_with_backslash_absent x Hx).
    rewrite IH. now rewrite <- app_assoc.
Qed.

(** X24: the round trip that starts from the LDAP form.  For
    components without [','], ['/'] and backslash, [ldapToOneline] of
    their LDAP form is the components in reverse order, each after a
    ['/'], and [onelineToLDAP] gives the LDAP form back. *)
Theorem ldapToOneline_onelineToLDAP comps :
  comps <> [] ->
  Forall (fun c => occurs ","%char c = false /\ occurs "/"%char c = false /\
                   occurs "\"%char c = false) comps ->
  ldapToOneline (join "," comps) = "/" +:+ join "/" (rev comps) /\
  onelineToLDAP (ldapToOneline (join "," comps)) = Ok (join "," comps).
Proof.
  intros Hne Hall.
  assert (Hc : Forall (fun c => occurs ","%char c = false) comps).
  { eapply List.Forall_impl; [|exact Hall]. now intros x (H & _ & _). }
  assert (Hs : Forall (fun c => occurs "/"%char c = false) comps).
  { eapply List.Forall_impl; [|exact Hall]. now intros x (_ & H & _). }
  assert (Hb : Forall (fun c => occurs "\"%char c = false) comps).
  { eapply List.Forall_impl; [|exact Hall]. now intros x (_ & _ & H). }
  assert (H1 : ldapToOneline (join "," comps) = "/" +:+ join "/" (rev comps)).
  { rewrite ldapToOneline_snd.
    change "," with (String ","%char EmptyString) at 1.
    rewrite split_join by assumption.
    rewrite ldap_fold_plain by assumption. cbn [snd app].
    now rewrite map_replace_first_absent. }
  split; [exact H1|]. rewrite H1.
  change ("/" +:+ join "/" (rev comps)) with (String "/"%char (join "/" (rev comps))).
  cbv beta iota zeta delta [onelineToLDAP].
  change (join "/" (rev comps)) with (join (String "/"%char EmptyString) (rev comps)).
  rewrite split_join.
  - rewrite rev_involutive. now rewrite map_replace_first_absent.
  - intros Hr. apply (f_equal (@rev string)) in Hr. rewrite rev_involutive in Hr.
    now apply Hne.
  - now apply Forall_rev.
Qed.

Lemma ldapToOneline_onelineToLDAP_witness :
  ldapToOneline "CN=foo,OU=bbb,O=aaa,C=US" = "/C=US/O=aaa/OU=bbb/CN=foo" /\
  onelineToLDAP (ldapToOneline "CN=foo,OU=bbb,O=aaa,C=US") = Ok "CN=foo,OU=bbb,O=aaa,C=US".
Proof.
  apply (ldapToOneline_onelineToLDAP ["CN=foo"; "OU=bbb"; "O=aaa"; "C=US"]);
    [discriminate|].
  repeat (apply List.Forall_cons; [repeat split; reflexivity|]). apply List.Forall_nil.
Defined.

Lemma setByString_a1_dropped_witness :
  setByString_a1 "C=US" = [] /\
  setByString_a1 "C=US/O=test" = setByString_a1 "/O=test".
Proof.
  destruct (setByString_a1_dropped "C=US" eq_refl) as (H1 & H2 & _).
  split; [exact H1|]. exact (H2 "O=test").
Defined.

Lemma setByString_a1_rejoin_witness :
  join "/" (setByString_a1 "/C=US/O=aaa/CN=1980/12/31") = "C=US/O=aaa/CN=1980/12/31".
Proof.
  apply (setByString_a1_rejoin "C=US/O=aaa/CN=1980/12/31"). reflexivity.
Defined.

End X509StringFacts.

(** ** More of asn1x509-1.0.js: what the builders store and encode *)

Module ASN1X509MoreFacts.
Import JSStr ASN1 ASN1X509Facts.

#[local] Hint Resolve keeps_retS keeps_throwS keeps_getS keeps_liftR keeps_modifyS
  keeps_attempt keeps_on_throw_modifyS : keeps.

(** A SEQUENCE is encoded only when none of its elements is [null]. *)
Lemma DERSequence_Ok_elements K a h :
  getEncodedHex K (DERSequence a) = Ok h -> Forall (fun x => x <> None) a.
Proof.
  cbn [getEncodedHex]. intros H.
  match type of H with
  | bindR ?e _ = _ => destruct e as [hs|] eqn:He; [|discriminate]
  end.
  clear H. revert hs He. induction a as [|[x|] a IH]; intros hs He.
  - constructor.
  - constructor; [discriminate|].
    destruct (getEncodedHex K x); cbn [bindR] in He; [|discriminate].
    match type of He with
    | bindR ?e _ = _ => destruct e as [hs'|] eqn:He'; [|discriminate]
    end.
    now apply (IH hs').
  - discriminate.
Qed.

(** The object a call that returned has left. *)
Lemma TBSCertificate_getEncodedHex_needs_all_fields_aux K o h o' :
  TBSCertificate.getEncodedHex K o = (Ok h, o') ->
  o' = TBSCertificate.set_isModified false
         (TBSCertificate.set_hTLV (Some h)
            (TBSCertificate.set_asn1Array (TBSCertificate.asn1Array o') o)).
Proof.
  intros H.
  destruct (TBSCertificate.asn1NotBefore o) as [nb|] eqn:Hb.
  2:{ rewrite TBSCertificate_getEncodedHex_unset in H by now left. discriminate. }
  destruct (TBSCertificate.asn1NotAfter o) as [na|] eqn:Ha.
  2:{ rewrite TBSCertificate_getEncodedHex_unset in H by now right. discriminate. }
  rewrite (TBSCertificate_getEncodedHex_eq K o nb na Hb Ha) in H. cbn zeta in H.
  destruct (getEncodedHex K _) as [h'|m] eqn:Hh; [|discriminate].
  now injection H as <- <-.
Qed.

(** X20: [TBSCertificate.getEncodedHex] returns an encoding only when
    serial number, signature algorithm, issuer, notBefore, notAfter,
    subject and public key are all set; it then stores the encoding in
    [hTLV], clears [isModified] and leaves the seven fields and the
    extensions as they were. *)
Theorem TBSCertificate_getEncodedHex_needs_all_fields K o h o' :
  TBSCertificate.getEncodedHex K o = (Ok h, o') ->
  (TBSCertificate.asn1SerialNumber o <> None /\
   TBSCertificate.asn1SignatureAlg o <> None /\
   TBSCertificate.asn1Issuer o <> None /\
   TBSCertificate.asn1NotBefore o <> None /\
   TBSCertificate.asn1NotAfter o <> None /\
   TBSCertificate.asn1Subject o <> None /\
   TBSCertificate.asn1SubjPKey o <> None) /\
  TBSCertificate.hTLV o' = Some h /\
  TBSCertificate.isModified o' = false /\
  o' = TBSCertificate.set_isModified false
         (TBSCertificate.set_hTLV (Some h)
            (TBSCertificate.set_asn1Array (TBSCertificate.asn1Array o') o)).
Proof.
  intros H.
  destruct (TBSCertificate.asn1NotBefore o) as [nb|] eqn:Hb.
  2:{ rewrite TBSCertificate_getEncodedHex_unset in H by now left. discriminate. }
  destruct (TBSCertificate.asn1NotAfter o) as [na|] eqn:Ha.
  2:{ rewrite TBSCertificate_getEncodedHex_unset in H by now right. discriminate. }
  rewrite (TBSCertificate_getEncodedHex_eq K o nb na Hb Ha) in H. cbn zeta in H.
  destruct (getEncodedHex K _) as [h'|m] eqn:Hh; [|discriminate].
  injection H as <- <-.
  apply DERSequence_Ok_elements in Hh. unfold TBSCertificate.fields in Hh.
  cbn [app] in Hh.
  repeat match goal with
         | H : Forall _ (_ :: _) |- _ => apply Forall_cons in H as [? H]
         end.
  split; [|now repeat split].
  repeat split; try assumption; try discriminate.
  now destruct (TBSCertificate.asn1SignatureAlg o).
Qed.

Lemma TBSCertificate_getEncodedHex_needs_all_fields_witness :
  TBSCertificate.asn1SerialNumber Sample.tbs_v3 <> None /\
  TBSCertificate.hTLV (snd (TBSCertificate.getEncodedHex (Sample.kernel true) Sample.tbs_v3))
  = Some "306ca003020102020104300d06092a864886f70d01010b0500300d310b3009060355040613025553301e170d3133303530343233353935395a170d3134303530343233353935395a300d310b300906035504061302555330030101ffa310300e300c0603551d13040530030101ff".
Proof.
  destruct (TBSCertificate_getEncodedHex_needs_all_fields (Sample.kernel true) Sample.tbs_v3
              "306ca003020102020104300d06092a864886f70d01010b0500300d310b3009060355040613025553301e170d3133303530343233353935395a170d3134303530343233353935395a300d310b300906035504061302555330030101ffa310300e300c0603551d13040530030101ff"
              (snd (TBSCertificate.getEncodedHex (Sample.kernel true) Sample.tbs_v3)))
    as ((H1 & _) & H2 & _); [reflexivity|].
  split; [exact H1|exact H2].
Defined.

(** X29: [TBSCertificate.getEncodedHex] keeps no encoding back: what
    it returns is made of the fields at the time of the call, whatever
    [asn1Array], [hTLV] and [isModified] hold from earlier calls. *)
Theorem TBSCertificate_getEncodedHex_not_cached K o a h b :
  fst (TBSCertificate.getEncodedHex K
         (TBSCertificate.set_isModified b
            (TBSCertificate.set_hTLV h (TBSCertificate.set_asn1Array a o))))
  = fst (TBSCertificate.getEncodedHex K o) /\
  (forall x h1 o1,
     TBSCertificate.getEncodedHex K o = (Ok h1, o1) ->
     fst (TBSCertificate.getEncodedHex K (TBSCertificate.setSerialNumberByParam x o1))
     = fst (TBSCertificate.getEncodedHex K (TBSCertificate.setSerialNumberByParam x o))).
Proof.
  assert (Hgen : forall o a h b,
            fst (TBSCertificate.getEncodedHex K
                   (TBSCertificate.set_isModified b
                      (TBSCertificate.set_hTLV h (TBSCertificate.set_asn1Array a o))))
            = fst (TBSCertificate.getEncodedHex K o)).
  { clear. intros o a h b. unfold TBSCertificate.getEncodedHex. run_st.
    cbn [TBSCertificate.asn1NotBefore TBSCertificate.asn1NotAfter
         TBSCertificate.set_isModified TBSCertificate.set_hTLV
         TBSCertificate.set_asn1Array].
    destruct (TBSCertificate.asn1NotBefore o), (TBSCertificate.asn1NotAfter o);
      try reflexivity.
    unfold TBSCertificate.fields.
    cbn [TBSCertificate.asn1Version TBSCertificate.asn1SerialNumber
         TBSCertificate.asn1SignatureAlg TBSCertificate.asn1Issuer
         TBSCertificate.asn1Subject TBSCertificate.asn1SubjPKey
         TBSCertificate.extensionsArray].
    now destruct (getEncodedHex K _). }
  split; [apply Hgen|].
  intros x h1 o1 H.
  apply TBSCertificate_getEncodedHex_needs_all_fields_aux in H. rewrite H.
  apply (Hgen (TBSCertificate.setSerialNumberByParam x o)).
Qed.

(** *** Certificate *)

(** X21: nothing sets [isModified] again once [sign] has completed.
    Whatever the caller then does to the TBSCertificate the certificate
    holds, [getEncodedHex] and [getPEMString] go on returning the
    encoding made when [sign] ran. *)
Theorem Certificate_encoding_outlives_tbs_change K o o' f :
  Certificate.sign K o = (Ok tt, o') ->
  exists h,
    fst (Certificate.getEncodedHex o') = Ok h /\
    fst (Certificate.getEncodedHex
           (Certificate.set_asn1TBSCert (option_map f (Certificate.asn1TBSCert o')) o'))
    = Ok h /\
    fst (Certificate.getPEMString K
           (Certificate.set_asn1TBSCert (option_map f (Certificate.asn1TBSCert o')) o'))
    = Ok ("-----BEGIN CERTIFICATE-----" +:+ CRLF +:+ hextob64nl K h +:+
          CRLF +:+ "-----END CERTIFICATE-----" +:+ CRLF).
Proof.
  intros Hs.
  apply Certificate_sign_Ok in Hs
    as (tbs & tbs1 & a & hTBS & hexSig & hAlg & _ & _ & _ & _ & _ & _ & _ & _ & Hh & Hm).
  eexists. unfold Certificate.getPEMString, Certificate.getEncodedHex. run_st.
  cbn [Certificate.isModified Certificate.hTLV Certificate.set_asn1TBSCert].
  rewrite Hm, Hh. repeat split.
Qed.

(** X22: attaching with [setSignatureHex] the signature that [sign]
    computed gives the same encoding as [sign]: on the certificate as it
    was before [sign], [setSignatureHex] of that signature completes and
    stores the same [hTLV]. *)
Theorem Certificate_setSignatureHex_as_sign K o o1 :
  Certificate.sign K o = (Ok tt, o1) ->
  exists sigHex o2,
    Certificate.hexSig o1 = Some sigHex /\
    Certificate.setSignatureHex K sigHex o = (Ok tt, o2) /\
    Certificate.hTLV o2 = Certificate.hTLV o1 /\
    Certificate.getEncodedHex o2 = (fst (Certificate.getEncodedHex o1), o2).
Proof.
  intros Hs.
  apply Certificate_sign_Ok in Hs
    as (tbs & tbs1 & a & hTBS & hexSig & hAlg & Htbs & Halg & Henc & _ & HhAlg
        & _ & Hhex & _ & Hh & Hm).
  exists hexSig.
  assert (Hset : exists o2,
             Certificate.setSignatureHex K hexSig o = (Ok tt, o2) /\
             Certificate.hTLV o2
             = Some (DERSequence_hex K [hTBS; hAlg; DERBitString_hex K ("00" +:+ hexSig)]) /\
             Certificate.isModified o2 = false).
  { unfold Certificate.setSignatureHex, Certificate.signed_encoding,
      Certificate.on_asn1TBSCert. run_st.
    rewrite Htbs, Halg.
    cbn [Certificate.asn1TBSCert Certificate.set_asn1TBSCert Certificate.set_asn1SignatureAlg
         Certificate.set_hexSig Certificate.set_asn1Sig].
    rewrite Henc. cbn [getEncodedHex bindR algid_object]. rewrite HhAlg. cbn [bindR].
    eexists. split; [reflexivity|]. split; reflexivity. }
  destruct Hset as (o2 & Hset & Hh2 & Hm2).
  exists o2. split; [assumption|]. split; [assumption|].
  split; [now rewrite Hh, Hh2|].
  unfold Certificate.getEncodedHex. run_st. now rewrite Hm, Hh, Hm2, Hh2.
Qed.

(** *** CRL *)

Lemma keeps_on_asn1TBSCertList {F A} (f : CRL.t -> F) (m : ST TBSCertList.t A) :
  (forall x o, f (CRL.set_asn1TBSCertList x o) = f o) ->
  keeps f (CRL.on_asn1TBSCertList m).
Proof.
  intros H o. unfold CRL.on_asn1TBSCertList.
  destruct (CRL.asn1TBSCertList o) as [tbs|]; [|reflexivity].
  destruct (m tbs). apply H.
Qed.

#[local] Hint Resolve keeps_on_asn1TBSCertList : keeps.

Lemma CRL_signed_encoding_keeps_hTLV K sigAlg sig :
  keeps CRL.hTLV (CRL.signed_encoding K sigAlg sig).
Proof. unfold CRL.signed_encoding. repeat keeps_step. Qed.

#[local] Hint Resolve CRL_signed_encoding_keeps_hTLV : keeps.

Lemma CRL_sign_threw_hTLV K : keeps_on_throw CRL.hTLV (CRL.sign K).
Proof. unfold CRL.sign. repeat keeps_step. Qed.

(** X23: [CRL.sign] assigns to the undeclared name [sig].  Where no
    global [sig] exists the call raises on every CRL and leaves [hTLV]
    as it was, so that a CRL without encoding still has none and
    [getEncodedHex] raises 'not signed yet' after the attempt. *)
Theorem CRL_sign_needs_global_sig K o :
  global_sig K = false ->
  (exists msg, fst (CRL.sign K o) = Throw msg) /\
  CRL.hTLV (snd (CRL.sign K o)) = CRL.hTLV o /\
  (CRL.hTLV o = None ->
   fst (CRL.getEncodedHex (snd (CRL.sign K o))) = Throw "not signed yet").
Proof.
  intros Hg. destruct (CRL.sign K o) as [[[]|msg] o'] eqn:Hs.
  - apply CRL_sign_Ok in Hs as (tbs & tbs1 & hTBS & hexSig & Hg' & _). congruence.
  - cbn [fst snd]. pose proof (CRL_sign_threw_hTLV K _ _ _ Hs) as Hh.
    split; [now exists msg|]. split; [exact Hh|].
    intros Hn. unfold CRL.getEncodedHex. run_st. rewrite Hh, Hn.
    now destruct (CRL.isModified o').
Qed.

(** X25: [TBSCertList.getEncodedHex] returns an encoding only when
    signature algorithm, issuer and thisUpdate are set.  With no version
    set (the class has no setter for it) the array it has encoded and
    stored is these three, then nextUpdate when set, then the SEQUENCE of
    the revoked certificates when there are some. *)
Theorem TBSCertList_getEncodedHex_fields K o h o' :
  TBSCertList.asn1Version o = None ->
  TBSCertList.getEncodedHex K o = (Ok h, o') ->
  TBSCertList.asn1SignatureAlg o <> None /\
  TBSCertList.asn1Issuer o <> None /\
  TBSCertList.asn1ThisUpdate o <> None /\
  TBSCertList.asn1Array o' =
    [ algid_object (TBSCertList.asn1SignatureAlg o);
      TBSCertList.asn1Issuer o;
      TBSCertList.asn1ThisUpdate o ]
    ++ match TBSCertList.asn1NextUpdate o with Some u => [Some u] | None => [] end
    ++ match TBSCertList.aRevokedCert o with
       | [] => []
       | entries => [Some (DERSequence (map Some entries))]
       end /\
  TBSCertList.hTLV o' = Some h /\
  getEncodedHex K (DERSequence (TBSCertList.asn1Array o')) = Ok h.
Proof.
  intros Hv. unfold TBSCertList.getEncodedHex. run_st.
  destruct (getEncodedHex K (DERSequence (TBSCertList.fields o))) as [h'|m] eqn:Hh;
    [|discriminate].
  intros [= <- <-].
  assert (Hf : TBSCertList.fields o =
    [ algid_object (TBSCertList.asn1SignatureAlg o);
      TBSCertList.asn1Issuer o;
      TBSCertList.asn1ThisUpdate o ]
    ++ match TBSCertList.asn1NextUpdate o with Some u => [Some u] | None => [] end
    ++ match TBSCertList.aRevokedCert o with
       | [] => []
       | entries => [Some (DERSequence (map Some entries))]
       end).
  { unfold TBSCertList.fields. rewrite Hv. cbn [app].
    now destruct (TBSCertList.aRevokedCert o). }
  cbn [TBSCertList.asn1Array TBSCertList.hTLV TBSCertList.set_asn1Array
       TBSCertList.set_hTLV TBSCertList.set_isModified].
  pose proof (DERSequence_Ok_elements K _ _ Hh) as Hall. rewrite Hf in Hall.
  cbn [app] in Hall.
  apply Forall_cons in Hall as [H1 Hall].
  apply Forall_cons in Hall as [H2 Hall].
  apply Forall_cons in Hall as [H3 _].
  split; [now destruct (TBSCertList.asn1SignatureAlg o)|].
  repeat split; assumption.
Qed.

Lemma TBSCertList_getEncodedHex_fields_witness :
  TBSCertList.asn1Array
    (snd (TBSCertList.getEncodedHex (Sample.kernel true) Sample.tbscertlist))
  = [ algid_object (TBSCertList.asn1SignatureAlg Sample.tbscertlist);
      TBSCertList.asn1Issuer Sample.tbscertlist;
      TBSCertList.asn1ThisUpdate Sample.tbscertlist ]
    ++ match TBSCertList.asn1NextUpdate Sample.tbscertlist with
       | Some u => [Some u]
       | None => []
       end
    ++ match TBSCertList.aRevokedCert Sample.tbscertlist with
       | [] => []
       | entries => [Some (DERSequence (map Some entries))]
       end.
Proof.
  destruct (TBSCertList_getEncodedHex_fields (Sample.kernel true) Sample.tbscertlist
              match fst (TBSCertList.getEncodedHex (Sample.kernel true) Sample.tbscertlist)
              with Ok h => h | Throw _ => EmptyString end
              (snd (TBSCertList.getEncodedHex (Sample.kernel true) Sample.tbscertlist))
              eq_refl eq_refl) as (_ & _ & _ & H & _).
  exact H.
Defined.

Lemma TBSCertificate_getEncodedHex_not_cached_witness :
  fst (TBSCertificate.getEncodedHex (Sample.kernel true)
         (TBSCertificate.set_isModified false
            (TBSCertificate.set_hTLV (Some "3000")
               (TBSCertificate.set_asn1Array [] Sample.tbs_v3))))
  = fst (TBSCertificate.getEncodedHex (Sample.kernel true) Sample.tbs_v3).
Proof.
  exact (proj1 (TBSCertificate_getEncodedHex_not_cached (Sample.kernel true) Sample.tbs_v3
                  [] (Some "3000") false)).
Defined.

Lemma Certificate_encoding_outlives_tbs_change_witness :
  exists h,
    fst (Certificate.getEncodedHex (snd (Certificate.sign (Sample.kernel true) Sample.cert)))
    = Ok h /\
    fst (Certificate.getEncodedHex
           (Certificate.set_asn1TBSCert
              (option_map (TBSCertificate.setSerialNumberByParam (DERInteger 5))
                 (Certificate.asn1TBSCert
                    (snd (Certificate.sign (Sample.kernel true) Sample.cert))))
              (snd (Certificate.sign (Sample.kernel true) Sample.cert))))
    = Ok h.
Proof.
  destruct (Certificate_encoding_outlives_tbs_change (Sample.kernel true) Sample.cert
              (snd (Certificate.sign (Sample.kernel true) Sample.cert))
              (TBSCertificate.setSerialNumberByParam (DERInteger 5)))
    as (h & H1 & H2 & _); [reflexivity|].
  exists h. split; [exact H1|exact H2].
Defined.

Lemma Certificate_setSignatureHex_as_sign_witness :
  exists sigHex o2,
    Certificate.hexSig (snd (Certificate.sign (Sample.kernel true) Sample.cert))
    = Some sigHex /\
    Certificate.setSignatureHex (Sample.kernel true) sigHex Sample.cert = (Ok tt, o2) /\
    Certificate.hTLV o2
    = Certificate.hTLV (snd (Certificate.sign (Sample.kernel true) Sample.cert)).
Proof.
  destruct (Certificate_setSignatureHex_as_sign (Sample.kernel true) Sample.cert
              (snd (Certificate.sign (Sample.kernel true) Sample.cert)))
    as (sigHex & o2 & H1 & H2 & H3 & _); [reflexivity|].
  exists sigHex, o2. repeat split; assumption.
Defined.

Lemma CRL_sign_needs_global_sig_witness :
  (exists msg, fst (CRL.sign (Sample.kernel false) Sample.crl) = Throw msg) /\
  fst (CRL.getEncodedHex (snd (CRL.sign (Sample.kernel false) Sample.crl)))
  = Throw "not signed yet".
Proof.
  destruct (CRL_sign_needs_global_sig (Sample.kernel false) Sample.crl eq_refl)
    as (H1 & _ & H3).
  split; [exact H1|]. apply H3. reflexivity.
Defined.

End ASN1X509MoreFacts.
